(** * thief-reader: chapter segmentation and scroll-position engine

    A shallow embedding of the reader's core (the later evolution of
    [extension.js]): the heuristic chapter segmenter and its fallback,
    the scroll cursor of the status-bar surface, the reconciliation of
    the chapter-preview panel, startup restore and debounced saving, the
    commands of the document list and the wheel handler of the preview. *)

From Stdlib Require Import ZArith NArith String Ascii Bool Lia.
From Stdlib Require Import SpecFloat.
From Stdlib Require DecimalString.
From stdpp Require Import base option list gmap.

Local Open Scope list_scope.

(** ** JavaScript strings

    A JS string is a sequence of UTF-16 code units; [length], [substring]
    and the character classes of regular expressions all work on code
    units, so that is what the model keeps. *)

Module JsString.

Definition char := N.
Definition jsstring := list char.

(** Source literals are written as UTF-8 text in this file and decoded to
    code units (characters outside the BMP become surrogate pairs). *)
Fixpoint utf16_of_utf8 (bs : list N) : jsstring :=
  match bs with
  | [] => []
  | b0 :: t0 =>
    if (b0 <? 0x80)%N then b0 :: utf16_of_utf8 t0
    else
      match t0 with
      | [] => [0xFFFD%N]
      | b1 :: t1 =>
        if (b0 <? 0xE0)%N
        then ((b0 - 0xC0) * 64 + (b1 - 0x80))%N :: utf16_of_utf8 t1
        else
          match t1 with
          | [] => [0xFFFD%N]
          | b2 :: t2 =>
            if (b0 <? 0xF0)%N
            then ((b0 - 0xE0) * 4096 + (b1 - 0x80) * 64 + (b2 - 0x80))%N
                   :: utf16_of_utf8 t2
            else
              match t2 with
              | [] => [0xFFFD%N]
              | b3 :: t3 =>
                let cp := ((b0 - 0xF0) * 262144 + (b1 - 0x80) * 4096
                           + (b2 - 0x80) * 64 + (b3 - 0x80) - 0x10000)%N in
                (0xD800 + cp / 1024)%N :: (0xDC00 + cp mod 1024)%N
                  :: utf16_of_utf8 t3
              end
          end
      end
  end.

Definition js (s : string) : jsstring :=
  utf16_of_utf8 (map N_of_ascii (list_ascii_of_string s)).
Arguments js s%_string.

(** [\s] of regular expressions and the set removed by [trim()]:
    WhiteSpace and LineTerminator of ECMAScript. *)
Definition isWhiteSpace (c : char) : bool :=
  ((c =? 0x09) || (c =? 0x0A) || (c =? 0x0B) || (c =? 0x0C) || (c =? 0x0D)
   || (c =? 0x20) || (c =? 0xA0) || (c =? 0x1680)
   || ((0x2000 <=? c) && (c <=? 0x200A))
   || (c =? 0x2028) || (c =? 0x2029) || (c =? 0x202F) || (c =? 0x205F)
   || (c =? 0x3000) || (c =? 0xFEFF))%N.

Fixpoint dropWhile (p : char -> bool) (s : jsstring) : jsstring :=
  match s with
  | [] => []
  | c :: s' => if p c then dropWhile p s' else s
  end.

Definition trimStart (s : jsstring) : jsstring := dropWhile isWhiteSpace s.
Definition trimEnd (s : jsstring) : jsstring :=
  rev (dropWhile isWhiteSpace (rev s)).
(** [s.trim()] *)
Definition trim (s : jsstring) : jsstring := trimEnd (trimStart s).

(** [s.split(sep)] for a one-character separator. *)
Fixpoint splitOn (sep : char) (s : jsstring) : list jsstring :=
  match s with
  | [] => [[]]
  | c :: s' =>
    if (c =? sep)%N then [] :: splitOn sep s'
    else
      match splitOn sep s' with
      | l :: ls => (c :: l) :: ls
      | [] => [[c]]
      end
  end.

(** [lines.join(sep)] *)
Fixpoint join (sep : jsstring) (ls : list jsstring) : jsstring :=
  match ls with
  | [] => []
  | [l] => l
  | l :: ls' => l ++ sep ++ join sep ls'
  end.

(** [s.substring(a, b)]: both arguments are clamped into [0, length],
    and swapped when the first is the larger. *)
Definition substring (s : jsstring) (a b : Z) : jsstring :=
  let len := Z.of_nat (length s) in
  let a' := Z.min (Z.max a 0) len in
  let b' := Z.min (Z.max b 0) len in
  let from := Z.min a' b' in
  let to := Z.max a' b' in
  firstn (Z.to_nat (to - from)) (skipn (Z.to_nat from) s).

(** [s.replace(/\s+/g, ' ')]: every maximal run of white space becomes
    one space. *)
Fixpoint collapseRun (inRun : bool) (s : jsstring) : jsstring :=
  match s with
  | [] => []
  | c :: s' =>
    if isWhiteSpace c
    then (if inRun then collapseRun true s' else 0x20%N :: collapseRun true s')
    else c :: collapseRun false s'
  end.
Definition collapseSpaces (s : jsstring) : jsstring := collapseRun false s.

End JsString.

Import JsString.

(** ** Regular expressions

    The patterns of the source are sequences of greedily quantified
    character classes, capture groups around one quantified class,
    alternations of literals and the end anchor.  All of them start with
    [^] (or are used by [split], which matches at a given position), so
    the matcher works at the head of its input.  It backtracks the way
    the ECMAScript matcher does: a quantifier first takes as many
    characters as it can and gives them back one at a time while the
    rest of the pattern fails. *)

Module Regex.

Inductive node :=
| Cls (p : char -> bool) (lo : nat) (hi : option nat)  (* p{lo,hi} *)
| Grp (p : char -> bool) (lo : nat) (hi : option nat)  (* (p{lo,hi}) *)
| Alt (alts : list jsstring)                            (* (a|b|...), not captured *)
| Eos.                                                  (* $ *)

Definition regex := list node.

Definition more (hi : option nat) : bool :=
  match hi with Some 0 => false | _ => true end.
Definition dec (hi : option nat) : option nat :=
  match hi with Some n => Some (pred n) | None => None end.

(** A greedy quantifier over a class; [acc] is what it has consumed,
    most recent first, and [k] is the rest of the pattern. *)
Fixpoint rep {R} (p : char -> bool) (lo : nat) (hi : option nat)
    (k : jsstring -> jsstring -> option R) (acc s : jsstring) : option R :=
  let stop := if (lo =? 0)%nat then k (rev acc) s else None in
  match s with
  | c :: s' =>
    if p c && more hi then
      match rep p (pred lo) (dec hi) k (c :: acc) s' with
      | Some r => Some r
      | None => stop
      end
    else stop
  | [] => stop
  end.

Fixpoint stripPrefix (pre s : jsstring) : option jsstring :=
  match pre, s with
  | [], _ => Some s
  | a :: pre', c :: s' => if (a =? c)%N then stripPrefix pre' s' else None
  | _ :: _, [] => None
  end.

Fixpoint firstAlt {R} (k : jsstring -> option R) (alts : list jsstring)
    (s : jsstring) : option R :=
  match alts with
  | [] => None
  | a :: alts' =>
    match stripPrefix a s with
    | Some s' =>
      match k s' with
      | Some r => Some r
      | None => firstAlt k alts' s
      end
    | None => firstAlt k alts' s
    end
  end.

(** Captures in group order, and what is left of the input. *)
Fixpoint exec (r : regex) (caps : list jsstring) (s : jsstring)
    : option (list jsstring * jsstring) :=
  match r with
  | [] => Some (caps, s)
  | Cls p lo hi :: r' => rep p lo hi (fun _ s' => exec r' caps s') [] s
  | Grp p lo hi :: r' => rep p lo hi (fun m s' => exec r' (caps ++ [m]) s') [] s
  | Alt alts :: r' => firstAlt (fun s' => exec r' caps s') alts s
  | Eos :: r' => match s with [] => exec r' caps s | _ :: _ => None end
  end.

(** The match array of [s.match(r)]: [match[0]] and the groups. *)
Definition matchAt (r : regex) (s : jsstring)
    : option (jsstring * list jsstring) :=
  match exec r [] s with
  | Some (caps, rest) => Some (firstn (length s - length rest) s, caps)
  | None => None
  end.

(** [r.test(s)] *)
Definition test (r : regex) (s : jsstring) : bool :=
  match exec r [] s with Some _ => true | None => false end.

(** Length of the match of [r] at the head of [s]. *)
Definition matchLength (r : regex) (s : jsstring) : option nat :=
  match exec r [] s with
  | Some (_, rest) => Some (length s - length rest)
  | None => None
  end.

(** [s.split(r)]: at each position the separator is tried; a non-empty
    match closes the current piece and the scan resumes after it
    ([skip] counts the characters of the match still to pass).  An empty
    match closes the piece only when the piece is not empty, and the
    scan then moves one character on. *)
Fixpoint splitFrom (r : regex) (skip : nat) (cur s : jsstring)
    : list jsstring :=
  match s with
  | [] => [rev cur]
  | c :: s' =>
    match skip with
    | S n => splitFrom r n cur s'
    | O =>
      match matchLength r s with
      | Some (S n) => rev cur :: splitFrom r n [] s'
      | Some O =>
        match cur with
        | [] => splitFrom r 0 [c] s'
        | _ :: _ => rev cur :: splitFrom r 0 [c] s'
        end
      | None => splitFrom r 0 (c :: cur) s'
      end
    end
  end.
Definition split (r : regex) (s : jsstring) : list jsstring :=
  splitFrom r 0 [] s.

(** [s.replace(r, '')] for an anchored, non-global [r]. *)
Definition removeMatch (r : regex) (s : jsstring) : jsstring :=
  match exec r [] s with
  | Some (_, rest) => rest
  | None => s
  end.

(** *** Character classes and pattern syntax *)

Definition oneOf (cs : jsstring) (c : char) : bool := existsb (N.eqb c) cs.
Definition digit (c : char) : bool := ((0x30 <=? c) && (c <=? 0x39))%N.
Definition upperAZ (c : char) : bool := ((0x41 <=? c) && (c <=? 0x5A))%N.
(** [.]: anything but a line terminator. *)
Definition dot (c : char) : bool :=
  negb ((c =? 0x0A) || (c =? 0x0D) || (c =? 0x2028) || (c =? 0x2029))%N.
Definition orc (p q : char -> bool) (c : char) : bool := p c || q c.

(** Case folding of the [i] flag.  The flag is only used with ASCII
    letters and CJK text, for which folding the ASCII letters is exact:
    the matcher never folds a character outside ASCII onto an ASCII one. *)
Definition canonicalize (c : char) : char :=
  if ((0x61 <=? c) && (c <=? 0x7A))%N then (c - 32)%N else c.
Definition sameCI (a c : char) : bool :=
  (canonicalize a =? canonicalize c)%N.

Definition one (p : char -> bool) : node := Cls p 1 (Some 1).
Definition opt (p : char -> bool) : node := Cls p 0 (Some 1).
Definition star (p : char -> bool) : node := Cls p 0 None.
Definition plus (p : char -> bool) : node := Cls p 1 None.
Definition atLeast (n : nat) (p : char -> bool) : node := Cls p n None.
Definition lit (s : jsstring) : regex := map (fun a => one (N.eqb a)) s.
Definition litCI (s : jsstring) : regex := map (fun a => one (sameCI a)) s.

End Regex.

Import Regex.

(** ** Chapter segmentation *)

Module Segmenter.

Record Chapter := mkChapter {
  title : jsstring;
  startLine : nat;
  content : list jsstring
}.

Definition NL : char := 0x0A%N.

Definition cjkNumerals : jsstring := js "一二三四五六七八九十".
(** [[：:\-]] *)
Definition titleSep : char -> bool := oneOf (js "：:-").
(** [[、．.]] *)
Definition listSep : char -> bool := oneOf (js "、．.").

(** The boundary rules of [_extractChapters], in the order they are tried. *)
Definition chapterPatterns : list regex :=
  [ (* /^第[一二三四五六七八九十\d]+章\s*[：:\-]?\s*(.+)/ *)
    lit (js "第") ++ [plus (orc (oneOf cjkNumerals) digit)] ++ lit (js "章")
      ++ [star isWhiteSpace; opt titleSep; star isWhiteSpace; Grp dot 1 None];
    (* /^第\d+章\s*[：:\-]?\s*(.+)/ *)
    lit (js "第") ++ [plus digit] ++ lit (js "章")
      ++ [star isWhiteSpace; opt titleSep; star isWhiteSpace; Grp dot 1 None];
    (* /^[一二三四五六七八九十]+、\s*(.+)/ *)
    [plus (oneOf cjkNumerals)] ++ lit (js "、")
      ++ [star isWhiteSpace; Grp dot 1 None];
    (* /^[\d]+\.\s*(.+)/ *)
    [plus digit] ++ lit (js ".") ++ [star isWhiteSpace; Grp dot 1 None];
    (* /^[\d]+[\s]*[、．.]\s*(.+)/ *)
    [plus digit; star isWhiteSpace; one listSep; star isWhiteSpace;
     Grp dot 1 None];
    (* /^Chapter\s+\d+\s*[:\-]?\s*(.+)/i *)
    litCI (js "Chapter")
      ++ [plus isWhiteSpace; plus digit; star isWhiteSpace;
          opt (oneOf (js ":-")); star isWhiteSpace; Grp dot 1 None];
    (* /^CHAPTER\s+\d+\s*[:\-]?\s*(.+)/i *)
    litCI (js "CHAPTER")
      ++ [plus isWhiteSpace; plus digit; star isWhiteSpace;
          opt (oneOf (js ":-")); star isWhiteSpace; Grp dot 1 None];
    (* /^={3,}\s*(.+)\s*={3,}/ *)
    [atLeast 3 (oneOf (js "=")); star isWhiteSpace; Grp dot 1 None;
     star isWhiteSpace; atLeast 3 (oneOf (js "="))];
    (* /^-{3,}\s*(.+)\s*-{3,}/ *)
    [atLeast 3 (oneOf (js "-")); star isWhiteSpace; Grp dot 1 None;
     star isWhiteSpace; atLeast 3 (oneOf (js "-"))];
    (* /^\*{3,}\s*(.+)\s*\*{3,}/ *)
    [atLeast 3 (oneOf (js "*")); star isWhiteSpace; Grp dot 1 None;
     star isWhiteSpace; atLeast 3 (oneOf (js "*"))];
    (* /^【(.+)】$/ *)
    lit (js "【") ++ [Grp dot 1 None] ++ lit (js "】") ++ [Eos];
    (* /^《(.+)》$/ *)
    lit (js "《") ++ [Grp dot 1 None] ++ lit (js "》") ++ [Eos];
    (* /^(\d+)\s*[、．.]\s*(.+)/ *)
    [Grp digit 1 None; star isWhiteSpace; one listSep; star isWhiteSpace;
     Grp dot 1 None];
    (* /^(\d+)\s+(.+)/ *)
    [Grp digit 1 None; plus isWhiteSpace; Grp dot 1 None] ].

(** [/^\s*[：:\-]\s*/], removed from a candidate title. *)
Definition leadingSeparator : regex :=
  [star isWhiteSpace; one titleSep; star isWhiteSpace].

(** [/^[A-Z\s\d\-_]+$/] *)
Definition capsLine : regex :=
  [plus (orc upperAZ (orc isWhiteSpace (orc digit (oneOf (js "-_"))))); Eos].

(** [/^(序言|前言|引言|结语|附录|目录|索引|参考文献|致谢)/i] *)
Definition keywordLine : regex :=
  [Alt (map (map canonicalize)
          [js "序言"; js "前言"; js "引言"; js "结语"; js "附录"; js "目录";
           js "索引"; js "参考文献"; js "致谢"])].

(** [match[match.length - 1] || match[0]], then the clean-up of the
    title. *)
Definition titleOfMatch (m : jsstring * list jsstring) : jsstring :=
  let (whole, caps) := m in
  let picked :=
    match last caps with
    | Some ((_ :: _) as g) => g
    | _ => whole
    end in
  trim (removeMatch leadingSeparator picked).

(** The first pattern that matches decides. *)
Fixpoint firstPattern (ps : list regex) (line : jsstring) : option jsstring :=
  match ps with
  | [] => None
  | p :: ps' =>
    match matchAt p line with
    | Some m => Some (titleOfMatch m)
    | None => firstPattern ps' line
    end
  end.

(** The title a (trimmed, non-empty) line opens a chapter with, if the
    line is a chapter boundary: [isChapter] and [chapterTitle] of the
    loop body. *)
Definition boundaryTitle (line : jsstring) : option jsstring :=
  match firstPattern chapterPatterns line with
  | Some t => Some t
  | None =>
    if (2 <? length line)%nat && (length line <? 50)%nat then
      if test capsLine line then Some line
      else if test keywordLine (map canonicalize line) then Some line
      else None
    else None
  end.

(** The loop of [_extractChapters] from line [i] on: [chapters] are the
    closed chapters, [currentChapter] the open one. *)
Fixpoint scanLines (i : nat) (lines : list jsstring)
    (currentChapter : option Chapter) (chapters : list Chapter)
    : list Chapter :=
  match lines with
  | [] =>
    match currentChapter with
    | Some ch => chapters ++ [ch]
    | None => chapters
    end
  | raw :: rest =>
    let line := trim raw in
    match line with
    | [] => scanLines (S i) rest currentChapter chapters
    | _ :: _ =>
      match boundaryTitle line with
      | Some chapterTitle =>
        let chapters' :=
          match currentChapter with
          | Some ch => chapters ++ [ch]
          | None => chapters
          end in
        scanLines (S i) rest (Some (mkChapter chapterTitle i [])) chapters'
      | None =>
        match currentChapter with
        | Some ch =>
          if (5 <? length line)%nat
          then scanLines (S i) rest
                 (Some (mkChapter (title ch) (startLine ch)
                          (content ch ++ [line]))) chapters
          else scanLines (S i) rest currentChapter chapters
        | None => scanLines (S i) rest currentChapter chapters
        end
      end
    end
  end.

Definition _extractChapters (text : jsstring) : list Chapter :=
  scanLines 0 (splitOn NL text) None [].

(** [/\n\s*\n/] *)
Definition blankLineGap : regex :=
  [one (N.eqb NL); star isWhiteSpace; one (N.eqb NL)].

Definition nonBlank (s : jsstring) : bool := (0 <? length (trim s))%nat.

Definition emptyTitle : jsstring := js "（空内容）".
Definition noTitle : jsstring := js "（无标题）".

(** [x || fallback] on strings. *)
Definition orElse (x fallback : jsstring) : jsstring :=
  match x with [] => fallback | _ :: _ => x end.

(** [t.substring(0, 10) + (t.length > 10 ? '...' : '')] *)
Definition shortTitle (t : jsstring) : jsstring :=
  substring t 0 10 ++ (if (10 <? length t)%nat then js "..." else []).

Definition lineChapter (line : jsstring) : Chapter :=
  let trimmedLine := trim line in
  mkChapter (orElse (shortTitle trimmedLine) noTitle) 0 [trimmedLine].

Definition paragraphChapter (paragraph : jsstring) : list Chapter :=
  let lines := List.filter nonBlank (splitOn NL paragraph) in
  match lines with
  | [] => []
  | l0 :: _ =>
    let firstLine := trim l0 in
    [mkChapter (orElse (shortTitle firstLine) noTitle) 0 lines]
  end.

Definition _createFallbackChapters (text : jsstring) : list Chapter :=
  let paragraphs := List.filter nonBlank (split blankLineGap text) in
  let chapters :=
    match paragraphs with
    | [] =>
      let lines := List.filter nonBlank (splitOn NL text) in
      match lines with
      | [] =>
        let cleanContent := collapseSpaces (trim text) in
        match cleanContent with
        | [] => [mkChapter emptyTitle 0 []]
        | _ :: _ =>
          [mkChapter (orElse (substring cleanContent 0 10) emptyTitle) 0
             [cleanContent]]
        end
      | _ :: _ => map lineChapter lines
      end
    | _ :: _ => concat (map paragraphChapter paragraphs)
    end in
  match chapters with
  | [] => [mkChapter emptyTitle 0 []]
  | _ :: _ => chapters
  end.

Definition _extractChaptersWithFallback (text : jsstring) : list Chapter :=
  let chapters := _extractChapters text in
  if (0 <? length chapters)%nat then chapters
  else _createFallbackChapters text.

(** *** Vocabulary of the properties *)

(** A line on which no boundary rule fires: after trimming it matches
    none of the patterns and neither of the two heading tests. *)
Definition notBoundary (raw : jsstring) : Prop :=
  boundaryTitle (trim raw) = None.

(** The sentinel chapter of an empty document. *)
Definition sentinel : Chapter := mkChapter emptyTitle 0 [].

End Segmenter.

Import Segmenter.

(** ** JS numbers that come out of [Math.floor]

    Offsets are integers throughout, except where the preview panel's
    scroll percentage (a double) is turned into one. *)

Module JsNumber.

Inductive JsInt :=
| NaN
| Infinity (negative : bool)
| Int (z : Z).

Definition prec : Z := 53.
Definition emax : Z := 1024.

(** A string length as a double. *)
Definition ofZ (z : Z) : spec_float := binary_normalize prec emax z 0 false.

Definition mul (x y : spec_float) : spec_float := SFmul prec emax x y.

(** [x > 0] *)
Definition isPositive (x : spec_float) : bool :=
  SFltb (S754_zero false) x.

Definition Math_floor (x : spec_float) : JsInt :=
  match x with
  | S754_zero _ => Int 0
  | S754_infinity s => Infinity s
  | S754_nan => NaN
  | S754_finite s m e =>
    let v := if s then Z.neg m else Z.pos m in
    Int (if (0 <=? e)%Z then v * 2 ^ e else v / 2 ^ (- e))%Z
  end.

(** [Math.min(x, b)] and [Math.max(a, x)] with an integer bound. *)
Definition Math_min (x : JsInt) (b : Z) : JsInt :=
  match x with
  | NaN => NaN
  | Infinity true => Infinity true
  | Infinity false => Int b
  | Int z => Int (Z.min z b)
  end.
Definition Math_max (a : Z) (x : JsInt) : JsInt :=
  match x with
  | NaN => NaN
  | Infinity true => Int a
  | Infinity false => Infinity false
  | Int z => Int (Z.max a z)
  end.

(** The value as an integer offset, when it is one. *)
Definition toOffset (x : JsInt) : option Z :=
  match x with Int z => Some z | _ => None end.

(** Decimal rendering of an integer in a template literal. *)
Definition toString (z : Z) : jsstring :=
  js (DecimalString.NilZero.string_of_int (Z.to_int z)).

End JsNumber.

Import JsNumber.

(** ** The segmenter of the earlier evolution

    [extension.js] holds an earlier evolution of [_extractChapters], with
    the same boundary rules: it opens a default chapter for text that
    comes before any boundary and ends with catch-all chapters of its
    own.  The later evolution, above, moved that into the fallback. *)

Module Earlier.

Fixpoint scanLines (i : nat) (lines : list jsstring)
    (currentChapter : option Chapter) (chapters : list Chapter)
    : list Chapter :=
  match lines with
  | [] =>
    match currentChapter with
    | Some ch => chapters ++ [ch]
    | None => chapters
    end
  | raw :: rest =>
    let line := trim raw in
    match line with
    | [] => scanLines (S i) rest currentChapter chapters
    | _ :: _ =>
      match boundaryTitle line with
      | Some chapterTitle =>
        let chapters' :=
          match currentChapter with
          | Some ch => chapters ++ [ch]
          | None => chapters
          end in
        scanLines (S i) rest (Some (mkChapter chapterTitle i [])) chapters'
      | None =>
        if (5 <? length line)%nat then
          match currentChapter, chapters with
          | Some ch, _ =>
            scanLines (S i) rest
              (Some (mkChapter (title ch) (startLine ch)
                       (content ch ++ [line]))) chapters
          | None, [] =>
            scanLines (S i) rest
              (Some (mkChapter (js "开始内容") i [line])) chapters
          | None, _ :: _ => scanLines (S i) rest currentChapter chapters
          end
        else scanLines (S i) rest currentChapter chapters
      end
    end
  end.

Fixpoint numbered (index : nat) (paragraphs : list jsstring) : list Chapter :=
  match paragraphs with
  | [] => []
  | paragraph :: rest =>
    match List.filter nonBlank (splitOn NL paragraph) with
    | [] => numbered (S index) rest
    | paragraphLines =>
      mkChapter (js "段落 " ++ toString (Z.of_nat (S index))) 0
        paragraphLines :: numbered (S index) rest
    end
  end.

Definition _extractChapters (text : jsstring) : list Chapter :=
  let lines := splitOn NL text in
  match scanLines 0 lines None [] with
  | [] =>
    match List.filter nonBlank (Regex.split blankLineGap text) with
    | (_ :: _ :: _) as paragraphs => numbered 0 paragraphs
    | _ => [mkChapter (js "全文内容") 0 (List.filter nonBlank lines)]
    end
  | chapters => chapters
  end.

End Earlier.

(** ** The reader: documents, cursor, preview panel and host *)

Module Reader.

Local Open Scope Z_scope.

Inductive FileType := Pasted | PDF | TXT | EPUB.
Inductive FileStatus := Active | Missing | Error.

(** An entry of [_files]. *)
Record File := mkFile {
  id : jsstring;
  name : jsstring;
  path : jsstring;
  type : FileType;
  chapters : list Chapter;
  fullText : jsstring;
  pages : Z;
  status : FileStatus;
  lastChapter : option Z;
  lastScrollOffset : Z;
  lastReadTime : option Z;
  chapterPositions : option (gmap Z Z)
}.

Definition set_readingPosition (ch : option Z) (off : Z) (t : option Z)
    (f : File) : File :=
  mkFile (id f) (name f) (path f) (type f) (chapters f) (fullText f)
    (pages f) (status f) ch off t (chapterPositions f).
Definition set_chapterPositions (m : option (gmap Z Z)) (f : File) : File :=
  mkFile (id f) (name f) (path f) (type f) (chapters f) (fullText f)
    (pages f) (status f) (lastChapter f) (lastScrollOffset f)
    (lastReadTime f) m.

(** A record of the persisted list [thief-reader.files]; a field that is
    [null] or absent in the stored JSON is [None]. *)
Record SavedFile := mkSavedFile {
  sv_id : jsstring;
  sv_name : jsstring;
  sv_type : FileType;
  sv_path : jsstring;
  sv_fullText : jsstring;
  sv_addedTime : Z;
  sv_status : FileStatus;
  sv_lastChapter : option Z;
  sv_lastScrollOffset : option Z;
  sv_lastReadTime : option Z;
  sv_chapterPositions : option (gmap Z Z)
}.

(** The key-value store: the file list and the id of the current file. *)
Record Storage := mkStorage {
  storedFiles : option (list SavedFile);
  storedCurrentFileId : option jsstring
}.

(** What a pending timer of the host will run. *)
Inductive Callback :=
| SaveState                       (* the debounced write *)
| Redisplay (chapter : Chapter).  (* the delayed status-bar refresh *)

Record Timer := mkTimer {
  handle : nat;
  due : Z;
  callback : Callback
}.

(** The provider ([_files] to [_saveDebounceTimer]; [_currentFile] is a
    reference to an element of [_files], kept as its position), the
    preview panel manager ([_webviewPanel] to [_lastCharOffset]) and the
    host (clock, pending timers, store). *)
Record State := mkState {
  files : list File;
  currentFile : option nat;
  currentChapter : option Z;
  currentPage : Z;
  scrollOffset : Z;
  statusBarText : jsstring;
  statusBarVisible : bool;
  isRestoring : bool;
  saveDebounceTimer : option nat;
  webviewPanel : bool;
  isVisible : bool;
  lastScrollPercentage : spec_float;
  lastCharOffset : Z;
  now : Z;
  nextTimer : nat;
  timers : list Timer;
  storage : Storage;
  writeCount : nat
}.

Definition set_files (v : list File) (st : State) : State :=
  mkState v (currentFile st) (currentChapter st) (currentPage st)
    (scrollOffset st) (statusBarText st) (statusBarVisible st)
    (isRestoring st) (saveDebounceTimer st) (webviewPanel st)
    (isVisible st) (lastScrollPercentage st) (lastCharOffset st) (now st)
    (nextTimer st) (timers st) (storage st) (writeCount st).
Definition set_currentFile (v : option nat) (st : State) : State :=
  mkState (files st) v (currentChapter st) (currentPage st)
    (scrollOffset st) (statusBarText st) (statusBarVisible st)
    (isRestoring st) (saveDebounceTimer st) (webviewPanel st)
    (isVisible st) (lastScrollPercentage st) (lastCharOffset st) (now st)
    (nextTimer st) (timers st) (storage st) (writeCount st).
Definition set_currentChapter (v : option Z) (st : State) : State :=
  mkState (files st) (currentFile st) v (currentPage st) (scrollOffset st)
    (statusBarText st) (statusBarVisible st) (isRestoring st)
    (saveDebounceTimer st) (webviewPanel st) (isVisible st)
    (lastScrollPercentage st) (lastCharOffset st) (now st) (nextTimer st)
    (timers st) (storage st) (writeCount st).
Definition set_currentPage (v : Z) (st : State) : State :=
  mkState (files st) (currentFile st) (currentChapter st) v
    (scrollOffset st) (statusBarText st) (statusBarVisible st)
    (isRestoring st) (saveDebounceTimer st) (webviewPanel st)
    (isVisible st) (lastScrollPercentage st) (lastCharOffset st) (now st)
    (nextTimer st) (timers st) (storage st) (writeCount st).
Definition set_scrollOffset (v : Z) (st : State) : State :=
  mkState (files st) (currentFile st) (currentChapter st) (currentPage st)
    v (statusBarText st) (statusBarVisible st) (isRestoring st)
    (saveDebounceTimer st) (webviewPanel st) (isVisible st)
    (lastScrollPercentage st) (lastCharOffset st) (now st) (nextTimer st)
    (timers st) (storage st) (writeCount st).
Definition set_statusBarText (v : jsstring) (st : State) : State :=
  mkState (files st) (currentFile st) (currentChapter st) (currentPage st)
    (scrollOffset st) v (statusBarVisible st) (isRestoring st)
    (saveDebounceTimer st) (webviewPanel st) (isVisible st)
    (lastScrollPercentage st) (lastCharOffset st) (now st) (nextTimer st)
    (timers st) (storage st) (writeCount st).
Definition set_isRestoring (v : bool) (st : State) : State :=
  mkState (files st) (currentFile st) (currentChapter st) (currentPage st)
    (scrollOffset st) (statusBarText st) (statusBarVisible st) v
    (saveDebounceTimer st) (webviewPanel st) (isVisible st)
    (lastScrollPercentage st) (lastCharOffset st) (now st) (nextTimer st)
    (timers st) (storage st) (writeCount st).
Definition set_saveDebounceTimer (v : option nat) (st : State) : State :=
  mkState (files st) (currentFile st) (currentChapter st) (currentPage st)
    (scrollOffset st) (statusBarText st) (statusBarVisible st)
    (isRestoring st) v (webviewPanel st) (isVisible st)
    (lastScrollPercentage st) (lastCharOffset st) (now st) (nextTimer st)
    (timers st) (storage st) (writeCount st).
Definition set_webviewPanel (v : bool) (st : State) : State :=
  mkState (files st) (currentFile st) (currentChapter st) (currentPage st)
    (scrollOffset st) (statusBarText st) (statusBarVisible st)
    (isRestoring st) (saveDebounceTimer st) v (isVisible st)
    (lastScrollPercentage st) (lastCharOffset st) (now st) (nextTimer st)
    (timers st) (storage st) (writeCount st).
Definition set_isVisible (v : bool) (st : State) : State :=
  mkState (files st) (currentFile st) (currentChapter st) (currentPage st)
    (scrollOffset st) (statusBarText st) (statusBarVisible st)
    (isRestoring st) (saveDebounceTimer st) (webviewPanel st) v
    (lastScrollPercentage st) (lastCharOffset st) (now st) (nextTimer st)
    (timers st) (storage st) (writeCount st).
Definition set_lastScrollPercentage (v : spec_float) (st : State) : State :=
  mkState (files st) (currentFile st) (currentChapter st) (currentPage st)
    (scrollOffset st) (statusBarText st) (statusBarVisible st)
    (isRestoring st) (saveDebounceTimer st) (webviewPanel st)
    (isVisible st) v (lastCharOffset st) (now st) (nextTimer st)
    (timers st) (storage st) (writeCount st).
Definition set_lastCharOffset (v : Z) (st : State) : State :=
  mkState (files st) (currentFile st) (currentChapter st) (currentPage st)
    (scrollOffset st) (statusBarText st) (statusBarVisible st)
    (isRestoring st) (saveDebounceTimer st) (webviewPanel st)
    (isVisible st) (lastScrollPercentage st) v (now st) (nextTimer st)
    (timers st) (storage st) (writeCount st).
Definition set_now (v : Z) (st : State) : State :=
  mkState (files st) (currentFile st) (currentChapter st) (currentPage st)
    (scrollOffset st) (statusBarText st) (statusBarVisible st)
    (isRestoring st) (saveDebounceTimer st) (webviewPanel st)
    (isVisible st) (lastScrollPercentage st) (lastCharOffset st) v
    (nextTimer st) (timers st) (storage st) (writeCount st).
Definition set_nextTimer (v : nat) (st : State) : State :=
  mkState (files st) (currentFile st) (currentChapter st) (currentPage st)
    (scrollOffset st) (statusBarText st) (statusBarVisible st)
    (isRestoring st) (saveDebounceTimer st) (webviewPanel st)
    (isVisible st) (lastScrollPercentage st) (lastCharOffset st) (now st)
    v (timers st) (storage st) (writeCount st).
Definition set_timers (v : list Timer) (st : State) : State :=
  mkState (files st) (currentFile st) (currentChapter st) (currentPage st)
    (scrollOffset st) (statusBarText st) (statusBarVisible st)
    (isRestoring st) (saveDebounceTimer st) (webviewPanel st)
    (isVisible st) (lastScrollPercentage st) (lastCharOffset st) (now st)
    (nextTimer st) v (storage st) (writeCount st).
Definition set_storage (v : Storage) (st : State) : State :=
  mkState (files st) (currentFile st) (currentChapter st) (currentPage st)
    (scrollOffset st) (statusBarText st) (statusBarVisible st)
    (isRestoring st) (saveDebounceTimer st) (webviewPanel st)
    (isVisible st) (lastScrollPercentage st) (lastCharOffset st) (now st)
    (nextTimer st) (timers st) v (writeCount st).
Definition set_writeCount (v : nat) (st : State) : State :=
  mkState (files st) (currentFile st) (currentChapter st) (currentPage st)
    (scrollOffset st) (statusBarText st) (statusBarVisible st)
    (isRestoring st) (saveDebounceTimer st) (webviewPanel st)
    (isVisible st) (lastScrollPercentage st) (lastCharOffset st) (now st)
    (nextTimer st) (timers st) (storage st) v.

Definition initialState : State :=
  mkState [] None None 0 0 (js "reader: 准备就绪 📖") true false None
    false false (S754_zero false) 0 0 0%nat [] (mkStorage None None) 0%nat.

(** *** Host timers *)

Definition setTimeout (cb : Callback) (delay : Z) (st : State)
    : nat * State :=
  let h := nextTimer st in
  (h, set_timers (timers st ++ [mkTimer h (now st + delay) cb])
        (set_nextTimer (S h) st)).

Definition clearTimeout (h : nat) (st : State) : State :=
  set_timers (List.filter (fun t => negb (handle t =? h)%nat) (timers st)) st.

(** *** Per-file and per-chapter positions *)

Definition current (st : State) : option File :=
  match currentFile st with
  | Some r => files st !! r
  | None => None
  end.

Definition sameId (a b : jsstring) : bool := bool_decide (a = b).

Fixpoint updateFirst (p : File -> bool) (g : File -> File) (fs : list File)
    : list File :=
  match fs with
  | [] => []
  | f :: fs' => if p f then g f :: fs' else f :: updateFirst p g fs'
  end.

Definition _saveFileReadingPosition (fileId : jsstring) (st : State) : State :=
  match fileId with
  | [] => st
  | _ :: _ =>
    set_files
      (updateFirst (fun f => sameId (id f) fileId)
         (set_readingPosition (currentChapter st) (scrollOffset st)
            (Some (now st)))
         (files st)) st
  end.

Definition _saveChapterPosition (chapterIndex : option Z) (offset : Z)
    (st : State) : State :=
  match currentFile st, current st, chapterIndex with
  | Some r, Some f, Some i =>
    let positions := default ∅ (chapterPositions f) in
    set_files
      (<[r := set_chapterPositions (Some (<[i := offset]> positions)) f]>
         (files st)) st
  | _, _, _ => st
  end.

Definition _getChapterPosition (chapterIndex : option Z) (st : State) : Z :=
  match current st, chapterIndex with
  | Some f, Some i =>
    match chapterPositions f with
    | None => 0
    | Some positions => default 0 (positions !! i)
    end
  | _, _ => 0
  end.

(** [chapters[i]] *)
Definition chapterAt (f : File) (i : Z) : option Chapter :=
  if (0 <=? i)%Z then chapters f !! Z.to_nat i else None.

(** *** The status-bar surface *)

Definition previewIsVisible (st : State) : bool :=
  isVisible st && webviewPanel st.

Definition displayLength : Z := 80.

Definition flatten (ch : Chapter) : jsstring := join (js " ") (content ch).

Definition maxScrollOffsetOf (ch : Chapter) : Z :=
  Z.max 0 (Z.of_nat (length (flatten ch)) - 1).

Definition clampOffset (ch : Chapter) (offset : Z) : Z :=
  Z.max 0 (Z.min offset (maxScrollOffsetOf ch)).

Definition scrollIndicator (offset actualEndPos totalLength : Z) : jsstring :=
  if (displayLength <? totalLength)%Z
  then js " [" ++ toString offset ++ js "-" ++ toString actualEndPos
         ++ js "/" ++ toString totalLength ++ js "]"
  else [].

Definition displayContent (ch : Chapter) (offset : Z) : jsstring :=
  let fullContent := flatten ch in
  let totalLength := Z.of_nat (length fullContent) in
  let actualEndPos := Z.min (offset + displayLength) totalLength in
  substring fullContent offset actualEndPos.

(** The text of the status bar item; its colour, which carries the
    opacity setting, is left out. *)
Definition _displayChapterText (chapter : option Chapter) (st : State)
    : State :=
  match chapter with
  | None => st
  | Some ch =>
    if negb (statusBarVisible st) then st
    else
      let fullContent := flatten ch in
      let totalLength := Z.of_nat (length fullContent) in
      let offset := clampOffset ch (scrollOffset st) in
      let actualEndPos := Z.min (offset + displayLength) totalLength in
      let previewStatus :=
        if previewIsVisible st then js "🔍" else js "📖" in
      set_statusBarText
        (js "reader: " ++ title ch
           ++ scrollIndicator offset actualEndPos totalLength
           ++ js " - " ++ displayContent ch offset ++ js " " ++ previewStatus)
        (set_scrollOffset offset st)
  end.

(** *** Debounced saving *)

Definition serialize (t : Z) (f : File) : SavedFile :=
  mkSavedFile (id f) (name f) (type f) (path f)
    (match type f with Pasted => fullText f | _ => [] end)
    t (status f) (lastChapter f) (Some (lastScrollOffset f))
    (lastReadTime f) (Some (default ∅ (chapterPositions f))).

(** The body of the debounced timer: [saveFiles] and, with a current
    file, [saveReadingState]. *)
Definition writeState (st : State) : State :=
  let saved := map (serialize (now st)) (files st) in
  let currentId :=
    match current st with
    | Some f => Some (id f)
    | None => storedCurrentFileId (storage st)
    end in
  set_writeCount (S (writeCount st))
    (set_storage (mkStorage (Some saved) currentId) st).

Definition saveDelay : Z := 500.

Definition _saveCurrentState (st : State) : State :=
  if isRestoring st then st
  else
    let st1 :=
      match current st with
      | Some f => _saveFileReadingPosition (id f) st
      | None => st
      end in
    let st2 :=
      match saveDebounceTimer st1 with
      | Some h => clearTimeout h st1
      | None => st1
      end in
    let (h, st3) := setTimeout SaveState saveDelay st2 in
    set_saveDebounceTimer (Some h) st3.

(** A pending timer that is due runs its callback, once. *)
Definition runCallback (cb : Callback) (st : State) : State :=
  match cb with
  | SaveState => writeState st
  | Redisplay ch => _displayChapterText (Some ch) st
  end.

Definition fireTimer (h : nat) (st : State) : State :=
  match List.find (fun t => (handle t =? h)%nat) (timers st) with
  | Some t =>
    if (due t <=? now st)%Z then runCallback (callback t) (clearTimeout h st)
    else st
  | None => st
  end.

(** Time passes. *)
Definition tick (dt : Z) (st : State) : State :=
  set_now (now st + Z.max 0 dt) st.

(** *** The preview panel *)

(** What [chapter.content] may be when it reaches the flattening helper
    of the preview: an array of lines or an already joined string. *)
Inductive Content :=
| Lines (ls : list jsstring)
| Text (s : jsstring).

(** The argument is [None] when the chapter or its content is missing. *)
Definition getChapterContentAsString (content : option Content) : jsstring :=
  match content with
  | None => []
  | Some (Lines ls) => join [NL] ls
  | Some (Text s) => s
  end.

Definition previewText (ch : Chapter) : jsstring :=
  getChapterContentAsString (Some (Lines (content ch))).

(** [_handleScrollPositionChanged]: the panel's scroll events only update
    the cached position ([charOffset || 0]). *)
Definition _handleScrollPositionChanged (scrollPercentage : spec_float)
    (charOffset : option Z) (st : State) : State :=
  set_lastCharOffset (default 0 charOffset)
    (set_lastScrollPercentage scrollPercentage st).

(** The offset [_syncLastScrollPositionToStatusBar] commits for a chapter
    text of [len] characters; [None] when the JS value is [NaN], which
    the integer cursor of this model cannot hold. *)
Definition committedOffset (charOffset : Z) (percentage : spec_float)
    (len : Z) : option Z :=
  let newTextOffset :=
    if (charOffset =? 0) && isPositive percentage
    then Math_floor (mul percentage (ofZ len))
    else Int charOffset in
  toOffset (Math_max 0 (Math_min newTextOffset (len - 1))).

Definition refreshDelay : Z := 50.

Definition _syncLastScrollPositionToStatusBar (st : State) : option State :=
  match current st, currentChapter st with
  | Some f, Some i =>
    match chapterAt f i with
    | None => Some st
    | Some chapter =>
      let fullContent := previewText chapter in
      match committedOffset (lastCharOffset st) (lastScrollPercentage st)
              (Z.of_nat (length fullContent)) with
      | None => None
      | Some newTextOffset =>
        let st1 := set_scrollOffset newTextOffset st in
        let st2 := _displayChapterText (Some chapter) st1 in
        let st3 := _saveChapterPosition (currentChapter st2) newTextOffset st2 in
        let st4 := _saveCurrentState st3 in
        Some (snd (setTimeout (Redisplay chapter) refreshDelay st4))
      end
    end
  | _, _ => Some st
  end.

(** The handler of the panel's dispose event.  [hide] disposes of the
    panel, and the host raises the event during that call; the event is
    also an [Event] of its own below, for a panel closed from outside. *)
Definition _onChapterPreviewDisposed (st : State) : option State :=
  st1 ← _syncLastScrollPositionToStatusBar st;
  Some (set_lastCharOffset 0
          (set_lastScrollPercentage (S754_zero false)
             (set_isVisible false (set_webviewPanel false st1)))).

Definition hide (st : State) : option State :=
  if webviewPanel st then
    st1 ← _syncLastScrollPositionToStatusBar st;
    st2 ← _onChapterPreviewDisposed st1;
    Some (set_isVisible false (set_webviewPanel false st2))
  else Some st.

(** *** Navigation *)

(** [chapterIndex] is [parseInt(chapterId)], [None] for [NaN]. *)
Definition _selectChapter (chapterIndex : option Z) (st : State)
    : option State :=
  match current st, chapterIndex with
  | Some f, Some idx =>
    if (0 <=? idx) && (idx <? Z.of_nat (length (chapters f))) then
      let st1 :=
        match currentChapter st with
        | Some c =>
          if negb (c =? idx)
          then _saveChapterPosition (currentChapter st) (scrollOffset st) st
          else st
        | None => st
        end in
      let st2 := set_currentPage 0 (set_currentChapter (Some idx) st1) in
      let st3 := set_scrollOffset (_getChapterPosition (Some idx) st2) st2 in
      let chapter := chapterAt f idx in
      let st4 := _displayChapterText chapter st3 in
      let st5 := _saveCurrentState st4 in
      if previewIsVisible st5 then
        st6 ← hide st5;
        match chapter with
        | Some ch => Some (snd (setTimeout (Redisplay ch) refreshDelay st6))
        | None => Some st6
        end
      else Some st5
    else Some st
  | _, _ => Some st
  end.

(** The tail shared by the four stepping commands once the offset has
    moved. *)
Definition afterStep (chapter : option Chapter) (st : State) : State :=
  let st1 := _displayChapterText chapter st in
  let st2 := _saveChapterPosition (currentChapter st1) (scrollOffset st1) st1 in
  _saveCurrentState st2.

Definition stepBack (size : Z) (st : State) : State :=
  match currentChapter st, current st with
  | Some i, Some f =>
    if 0 <? scrollOffset st then
      let st1 := set_scrollOffset (Z.max 0 (scrollOffset st - size)) st in
      afterStep (chapterAt f i) st1
    else st
  | _, _ => st
  end.

(** With no chapter object at the current index the source fails on
    [chapter.content] before it changes anything. *)
Definition stepForward (size : Z) (st : State) : State :=
  match currentChapter st, current st with
  | Some i, Some f =>
    match chapterAt f i with
    | Some chapter =>
      let maxScrollOffset := maxScrollOffsetOf chapter in
      if scrollOffset st <? maxScrollOffset then
        let st1 :=
          set_scrollOffset (Z.min maxScrollOffset (scrollOffset st + size)) st in
        afterStep (Some chapter) st1
      else st
    | None => st
    end
  | _, _ => st
  end.

Definition jumpSize : Z := 80.
Definition scrollStep : Z := 10.

Definition _previousPage : State -> State := stepBack jumpSize.
Definition _nextPage : State -> State := stepForward jumpSize.
Definition _scrollLeft : State -> State := stepBack scrollStep.
Definition _scrollRight : State -> State := stepForward scrollStep.

(** *** Startup restore *)

(** What the disk holds at a path when the library is restored. *)
Inductive DiskEntry :=
| Absent                                   (* [fs.existsSync] is false *)
| Unreadable                               (* reading or decoding throws *)
| PdfFile (text : jsstring) (numpages : Z)
| TxtFile (text : jsstring)
| EpubFile (text : jsstring) (parsed : list Chapter).

Section Restore.

Variable disk : jsstring -> DiskEntry.
Variable basename : jsstring -> jsstring.
Variable clock : Z.  (* [Date.now()] *)

(** [_loadFileQuietly]; [None] when it throws. *)
Definition _loadFileQuietly (filePath fileId : jsstring) : option File :=
  let make ty chs text pageCount :=
    mkFile (orElse fileId (toString clock)) (basename filePath) filePath ty
      chs text pageCount Active None 0 None None in
  match disk filePath with
  | PdfFile text numpages =>
    Some (make PDF (_extractChapters text) text numpages)
  | TxtFile text =>
    let lineCount := Z.of_nat (length (splitOn NL text)) in
    Some (make TXT (_extractChapters text) text ((lineCount + 49) / 50))
  | EpubFile text parsed =>
    Some (make EPUB parsed text (Z.of_nat (length parsed)))
  | Absent | Unreadable => None
  end.

Definition inert (savedFile : SavedFile) (st : FileStatus) : File :=
  mkFile (sv_id savedFile) (sv_name savedFile) (sv_path savedFile)
    (sv_type savedFile) [] [] 0 st
    (sv_lastChapter savedFile) (default 0 (sv_lastScrollOffset savedFile))
    (sv_lastReadTime savedFile)
    (Some (default ∅ (sv_chapterPositions savedFile))).

(** One turn of the loop of [_restoreData]. *)
Definition restoreFile (savedFile : SavedFile) : File :=
  match sv_type savedFile with
  | Pasted =>
    let chapters := _extractChaptersWithFallback (sv_fullText savedFile) in
    mkFile (sv_id savedFile) (sv_name savedFile) [] Pasted chapters
      (sv_fullText savedFile) (Z.of_nat (length chapters)) Active
      (sv_lastChapter savedFile) (default 0 (sv_lastScrollOffset savedFile))
      (sv_lastReadTime savedFile)
      (Some (default ∅ (sv_chapterPositions savedFile)))
  | _ =>
    match sv_path savedFile, disk (sv_path savedFile) with
    | [], _ | _, Absent => inert savedFile Missing
    | _, _ =>
      match _loadFileQuietly (sv_path savedFile) (sv_id savedFile) with
      | None => inert savedFile Error
      | Some fileInfo =>
        let restored :=
          set_chapterPositions
            (Some (default ∅ (sv_chapterPositions savedFile)))
            (set_readingPosition (sv_lastChapter savedFile)
               (default 0 (sv_lastScrollOffset savedFile))
               (sv_lastReadTime savedFile) fileInfo) in
        match lastChapter restored with
        | Some lc =>
          if Z.of_nat (length (chapters restored)) <=? lc
          then set_readingPosition (Some 0) 0 (lastReadTime restored) restored
          else restored
        | None => restored
        end
      end
    end
  end.

End Restore.

Definition _restoreFileReadingPosition (file : File) (st : State) : State :=
  let first :=
    if 0 <? Z.of_nat (length (chapters file)) then Some 0 else None in
  match lastChapter file with
  | Some lc =>
    if Z.of_nat (length (chapters file)) <=? lc
    then set_scrollOffset 0 (set_currentChapter first st)
    else set_scrollOffset (lastScrollOffset file)
           (set_currentChapter (Some lc) st)
  | None => set_scrollOffset 0 (set_currentChapter first st)
  end.

Definition ready : jsstring := js "reader: 准备就绪".

(** Shown while a stored library is being restored. *)
Definition restoring : jsstring := js "reader: 正在恢复数据...".

Fixpoint findIndex (p : File -> bool) (fs : list File) : option nat :=
  match fs with
  | [] => None
  | f :: fs' => if p f then Some O else S <$> findIndex p fs'
  end.

Definition _restoreReadingState (st : State) : option State :=
  match storedCurrentFileId (storage st) with
  | None | Some [] => Some (set_statusBarText ready st)
  | Some currentFileId =>
    match findIndex (fun f => sameId (id f) currentFileId) (files st) with
    | None => Some (set_statusBarText ready st)
    | Some r =>
      match files st !! r with
      | None => Some (set_statusBarText ready st)
      | Some file =>
        match status file with
        | Missing | Error => Some (set_statusBarText ready st)
        | Active =>
          let st1 := _restoreFileReadingPosition file (set_currentFile (Some r) st) in
          let st2 :=
            match currentChapter st1, chapters file with
            | Some i, _ :: _ => _displayChapterText (chapterAt file i) st1
            | _, _ =>
              set_statusBarText (js "reader: 已恢复 " ++ name file) st1
            end in
          if previewIsVisible st2 then hide st2 else Some st2
        end
      end
    end
  end.

(** [_restoreData] runs across several suspension points; it raises
    [_isRestoring] when it starts and lowers it when it is done. *)
Definition beginRestore (st : State) : State := set_isRestoring true st.

Definition finishRestore (disk : jsstring -> DiskEntry)
    (basename : jsstring -> jsstring) (st : State) : option State :=
  let clock := now st in
  match default [] (storedFiles (storage st)) with
  | [] =>
    let st1 := set_statusBarText ready st in
    st2 ← (if previewIsVisible st1 then hide st1 else Some st1);
    Some (set_isRestoring false st2)
  | savedFiles =>
    let st0 := set_statusBarText restoring st in
    let st1 :=
      set_files (map (restoreFile disk basename clock) savedFiles) st0 in
    st2 ← _restoreReadingState st1;
    st3 ← (if previewIsVisible st2 then hide st2 else Some st2);
    Some (set_isRestoring false st3)
  end.

(** *** Vocabulary of the properties *)

(** The library seen through its chapter lists. *)
Definition shape (st : State) : list (list Chapter) := map chapters (files st).

(** The part of the state the cursor commands depend on and never
    change. *)
Definition base (st : State) :=
  (statusBarVisible st, isRestoring st, currentFile st, shape st).

(** The cached position of the preview panel. *)
Definition preview (st : State) :=
  (webviewPanel st, isVisible st, lastScrollPercentage st, lastCharOffset st).

Definition view (st : State) := (base st, currentChapter st, preview st).

Definition currentChapters (st : State) : option (list Chapter) :=
  r ← currentFile st; shape st !! r.

Definition nthChapter (chs : list Chapter) (i : Z) : option Chapter :=
  if 0 <=? i then chs !! Z.to_nat i else None.

(** The chapter under the cursor. *)
Definition loaded (st : State) : option Chapter :=
  chs ← currentChapters st; i ← currentChapter st; nthChapter chs i.

(** A double that is neither infinite nor NaN. *)
Definition isFinite (x : spec_float) : bool :=
  match x with
  | S754_zero _ | S754_finite _ _ _ => true
  | S754_infinity _ | S754_nan => false
  end.

(** The navigation commands. *)
Inductive Command :=
| ScrollLeft
| ScrollRight
| PreviousPage
| NextPage
| SelectChapter (chapterIndex : option Z).

Definition perform (c : Command) (st : State) : option State :=
  match c with
  | ScrollLeft => Some (_scrollLeft st)
  | ScrollRight => Some (_scrollRight st)
  | PreviousPage => Some (_previousPage st)
  | NextPage => Some (_nextPage st)
  | SelectChapter i => _selectChapter i st
  end.

(** The signed step of a stepping command. *)
Definition delta (c : Command) : option Z :=
  match c with
  | ScrollLeft => Some (- scrollStep)
  | ScrollRight => Some scrollStep
  | PreviousPage => Some (- jumpSize)
  | NextPage => Some jumpSize
  | SelectChapter _ => None
  end.

(** What can happen to the reader, one event at a time. *)
Inductive Event :=
| Do (c : Command)
| TimerFires (h : nat)
| Elapse (dt : Z)
| PreviewScrolled (scrollPercentage : spec_float) (charOffset : option Z)
| PreviewClosed
| PanelDisposed
| RestoreStarts
| RestoreEnds (disk : jsstring -> DiskEntry) (basename : jsstring -> jsstring).

Definition handleEvent (e : Event) (st : State) : option State :=
  match e with
  | Do c => perform c st
  | TimerFires h => Some (fireTimer h st)
  | Elapse dt => Some (tick dt st)
  | PreviewScrolled p c => Some (_handleScrollPositionChanged p c st)
  | PreviewClosed => hide st
  | PanelDisposed => _onChapterPreviewDisposed st
  | RestoreStarts => Some (beginRestore st)
  | RestoreEnds disk basename => finishRestore disk basename st
  end.

Fixpoint handleAll (es : list Event) (st : State) : option State :=
  match es with
  | [] => Some st
  | e :: es' => st' ← handleEvent e st; handleAll es' st'
  end.

(** Navigation proper: the commands, and time passing with its timers. *)
Definition navigation (e : Event) : bool :=
  match e with
  | Do _ | TimerFires _ | Elapse _ => true
  | _ => false
  end.

Definition clamp (x lo hi : Z) : Z := Z.max lo (Z.min x hi).

(** The cursor is inside the chapter it is in, or there is none. *)
Definition inRange (st : State) : Prop :=
  match loaded st with
  | Some ch => 0 <= scrollOffset st <= maxScrollOffsetOf ch
  | None => currentChapter st = None \/ current st = None
  end.

(** The state of a running reader: the status bar shows text (it is
    never hidden in this evolution), the preview has cached a finite
    percentage, and the cursor is in range. *)
Definition Inv (st : State) : Prop :=
  statusBarVisible st = true
  /\ isFinite (lastScrollPercentage st) = true
  /\ inRange st.

(** The pending debounced writes. *)
Definition isSave (t : Timer) : bool :=
  match callback t with SaveState => true | Redisplay _ => false end.
Definition pendingSaves (st : State) : list Timer :=
  List.filter isSave (timers st).

(** Timer handles are fresh and distinct, and a pending write is the one
    [_saveDebounceTimer] refers to. *)
Definition DebounceInv (st : State) : Prop :=
  Forall (fun t => (handle t < nextTimer st)%nat) (timers st)
  /\ NoDup (map handle (timers st))
  /\ Forall (fun t => saveDebounceTimer st = Some (handle t)) (pendingSaves st).

(** The mapped offsets of the current document. *)
Definition positions (st : State) : gmap Z Z :=
  match current st with
  | Some f => default ∅ (chapterPositions f)
  | None => ∅
  end.

(** 0.62 as a double: 0x1.3d70a3d70a3d7p-1. *)
Definition pct62 : spec_float :=
  S754_finite false 0x13D70A3D70A3D7 (-53).

(** The host side of the state: timers and store. *)
Definition host (st : State) :=
  (timers st, nextTimer st, saveDebounceTimer st, writeCount st, storage st,
   now st).

(** What closing the preview over chapter [ch] commits. *)
Definition previewCommit (st : State) (ch : Chapter) : option Z :=
  committedOffset (lastCharOffset st) (lastScrollPercentage st)
    (Z.of_nat (length (previewText ch))).

(** A helper is quiet when it changes neither the view nor the host nor
    the offset. *)
Definition quiet (st st' : State) : Prop :=
  view st' = view st /\ host st' = host st
  /\ scrollOffset st' = scrollOffset st.

(** Nothing is scheduled for saving and nothing is written. *)
Definition nothingSaved (st st' : State) : Prop :=
  pendingSaves st' = pendingSaves st
  /\ writeCount st' = writeCount st
  /\ storage st' = storage st.

(** A step of the reader is orderly when it keeps the timers in order
    and, during a restore, stays in the restore and saves nothing. *)
Definition orderly (st st' : State) : Prop :=
  (DebounceInv st -> DebounceInv st')
  /\ (isRestoring st = true -> isRestoring st' = true /\ nothingSaved st st').

End Reader.

Import Reader.

(** ** Sample documents and states *)

Module Samples.

Local Open Scope Z_scope.

(** A chapter whose flattened text has 500 characters, and a short one. *)
Definition longChapter : Chapter :=
  mkChapter (js "One") 0 [repeat 0x61%N 500].
Definition shortChapter : Chapter :=
  mkChapter (js "Two") 3 [js "abc"].

Definition story (positions : gmap Z Z) : File :=
  mkFile (js "1700000000000") (js "story.txt") (js "/books/story.txt") TXT
    [longChapter; shortChapter] [] 1 Active (Some 0) 450 None (Some positions).

(** Reading chapter one of [story] at offset 450. *)
Definition reading (positions : gmap Z Z) : State :=
  mkState [story positions] (Some O) (Some 0) 0 450 (js "reader: One") true
    false None false false (S754_zero false) 0 0 0%nat []
    (mkStorage None None) 0%nat.

(** The same with an offset of 100 remembered for the short chapter, as
    after a restore that found the book shortened on disk. *)
Definition staleState : State := reading {[ 1 := 100 ]}.

(** A chapter of 1000 characters with the preview open on it; the panel
    last reported no probed offset and a percentage of 0.62. *)
Definition thousand : Chapter :=
  mkChapter (js "K") 0 [repeat 0x61%N 499; repeat 0x62%N 500].

Definition previewing : State :=
  mkState
    [mkFile (js "7") (js "k.txt") (js "/books/k.txt") TXT [thousand] [] 1
       Active (Some 0) 0 None (Some ∅)]
    (Some O) (Some 0) 0 0 (js "reader: K") true false None true true pct62 0
    0 0%nat [] (mkStorage None None) 0%nat.

(** A book of two long chapters with an offset of 7 remembered for the
    second, read in chapter one at offset 450 with the preview open; the
    panel last reported the probed offset 300. *)
Definition twoLong (positions : gmap Z Z) : File :=
  mkFile (js "1700000000002") (js "long.txt") (js "/books/long.txt") TXT
    [longChapter; thousand] [] 1 Active (Some 0) 450 None (Some positions).

Definition previewingTwo : State :=
  mkState [twoLong {[ 1 := 7 ]}] (Some O) (Some 0) 0 450 (js "reader: One")
    true false None true true (S754_zero false) 300 0 0%nat []
    (mkStorage None None) 0%nat.

(** A pasted document stored with a reading position in its sixth
    chapter, whose text segments into three. *)
Definition pastedRecord : SavedFile :=
  mkSavedFile (js "42") (js "[paste]") Pasted [] (js "a

b

c") 0 Active (Some 5) (Some 40) None None.

(** The same record for a file on disk. *)
Definition fileRecord : SavedFile :=
  mkSavedFile (js "43") (js "abc.txt") TXT (js "/books/abc.txt") [] 0 Active
    (Some 5) (Some 40) None None.

Definition sampleDisk (path : jsstring) : DiskEntry :=
  if sameId path (js "/books/abc.txt")
  then TxtFile (js "Chapter 1 First
Chapter 2 Second
Chapter 3 Third")
  else Absent.

Definition sampleBasename (path : jsstring) : jsstring :=
  default path (last (splitOn 0x2F%N path)).

End Samples.

(** ** Vocabulary of the outline

    What the properties of the two segmenters are stated with. *)

Module Outline.

(** A line that opens a chapter: one of the boundary rules fires on it
    once it is trimmed. *)
Definition heading (raw : jsstring) : bool :=
  match boundaryTitle (trim raw) with Some _ => true | None => false end.

(** The headings from line [i] on, with their line numbers and titles. *)
Fixpoint headings (i : nat) (lines : list jsstring) : list (nat * jsstring) :=
  match lines with
  | [] => []
  | raw :: rest =>
    match boundaryTitle (trim raw) with
    | Some t => (i, t) :: headings (S i) rest
    | None => headings (S i) rest
    end
  end.

Definition key (c : Chapter) : nat * jsstring := (startLine c, title c).

Definition opened (cur : option Chapter) : list Chapter :=
  match cur with Some ch => [ch] | None => [] end.

(** The lines up to the next heading. *)
Fixpoint section (lines : list jsstring) : list jsstring :=
  match lines with
  | [] => []
  | raw :: rest => if heading raw then [] else raw :: section rest
  end.

(** A content line is longer than five code units. *)
Definition long (line : jsstring) : bool := (5 <? length line)%nat.

(** What a chapter keeps of the lines below its heading. *)
Definition body (lines : list jsstring) : list jsstring :=
  List.filter long (map trim (section lines)).

(** A line that changes nothing before the first heading, in either
    evolution: blank, or not a heading and at most five code units long. *)
Definition inertLine (raw : jsstring) : bool :=
  negb (heading raw) && negb (long (trim raw)).

(** A chapter the fallback may produce. *)
Definition fallbackShaped (c : Chapter) : Prop :=
  startLine c = 0%nat /\ title c <> [] /\ (length (title c) <= 13)%nat.

(** A chapter with something to show. *)
Definition hasText (c : Chapter) : Prop :=
  content c <> [] /\ Forall (fun l => trim l <> []) (content c).

End Outline.

(** ** The library: documents added, selected and removed *)

Module Library.

Local Open Scope Z_scope.

(** The value of [file.type]. *)
Definition typeName (t : FileType) : jsstring :=
  match t with
  | Pasted => js "粘贴"
  | PDF => js "PDF"
  | TXT => js "TXT"
  | EPUB => js "EPUB"
  end.

(** [f.status !== 'missing' && f.status !== 'error'] *)
Definition available (f : File) : bool :=
  match status f with Active => true | Missing | Error => false end.

(** The delayed refresh after the preview has been closed.  [None] when
    there is no chapter object to refresh: the callback then does
    nothing, and the timers of this model hold no such callback. *)
Definition closePreviewAndRefresh (chapter : option Chapter) (st : State)
    : option State :=
  if previewIsVisible st then
    st1 ← hide st;
    ch ← chapter;
    Some (snd (setTimeout (Redisplay ch) refreshDelay st1))
  else Some st.

(** [_selectFileFromList].  [file] is a reference to the entry found, so
    its fields are read where the source reads them, after the position
    of the outgoing document has been written.  [None] as for [hide],
    and as for [closePreviewAndRefresh]. *)
Definition _selectFileFromList (fileId : jsstring) (st : State)
    : option State :=
  match findIndex (fun f => sameId (id f) fileId) (files st) with
  | None => Some st
  | Some r =>
    match files st !! r with
    | None => Some st
    | Some found =>
      match status found with
      | Missing | Error => Some st
      | Active =>
        let st1 :=
          match current st with
          | Some cf =>
            if negb (sameId (id cf) fileId)
            then _saveFileReadingPosition (id cf) st
            else st
          | None => st
          end in
        let st2 := set_currentFile (Some r) st1 in
        match current st2 with
        | None => Some st2
        | Some file =>
          let st3 := _restoreFileReadingPosition file st2 in
          st5 ←
            match currentChapter st3, chapters file with
            | Some i, _ :: _ =>
              let chapter := chapterAt file i in
              closePreviewAndRefresh chapter (_displayChapterText chapter st3)
            | _, _ =>
              let st4 :=
                set_statusBarText
                  (js "reader: 已选择 " ++ name file ++ js " ["
                     ++ typeName (type file) ++ js "]") st3 in
              if previewIsVisible st4 then hide st4 else Some st4
            end;
          Some (_saveCurrentState st5)
        end
      end
    end
  end.

(** Where the current document is after [_files.splice(index, 1)]; the
    entry removed is no longer in the list. *)
Definition afterSplice (index : nat) (r : option nat) : option nat :=
  match r with
  | Some k =>
    if (k <? index)%nat then Some k
    else if (index <? k)%nat then Some (pred k)
    else None
  | None => None
  end.

Definition clearSelection (st : State) : State :=
  set_statusBarText ready
    (set_scrollOffset 0 (set_currentChapter None (set_currentFile None st))).

Definition _removeFile (fileId : jsstring) (st : State) : State :=
  match findIndex (fun f => sameId (id f) fileId) (files st) with
  | None => st
  | Some index =>
    let st1 :=
      set_currentFile (afterSplice index (currentFile st))
        (set_files (delete index (files st)) st) in
    let st2 :=
      match current st with
      | Some cf =>
        if sameId (id cf) fileId
        then clearSelection (set_currentPage 0 st1)
        else st1
      | None => st1
      end in
    _saveCurrentState st2
  end.

(** Where the current document is after [_files.filter(...)]. *)
Definition afterFilter (p : File -> bool) (fs : list File) (r : option nat)
    : option nat :=
  match r with
  | Some k =>
    match fs !! k with
    | Some f => if p f then Some (length (List.filter p (take k fs))) else None
    | None => None
    end
  | None => None
  end.

Definition _cleanupMissingFiles (st : State) : State :=
  let validFiles := List.filter available (files st) in
  let st1 :=
    set_currentFile (afterFilter available (files st) (currentFile st))
      (set_files validFiles st) in
  let st2 :=
    match current st with
    | Some cf => if available cf then st1 else clearSelection st1
    | None => st1
    end in
  _saveCurrentState st2.

(** [_generatePasteFileName]; [formattedTime] is [_formatTimestamp] of
    the clock, a rendering in the host's time zone. *)
Definition _generatePasteFileName (content formattedTime : jsstring)
    : jsstring :=
  let cleanContent := collapseSpaces (trim content) in
  let preview := substring cleanContent 0 10 in
  match preview with
  | [] => js "[粘贴内容]（空）（" ++ formattedTime ++ js "）"
  | _ :: _ =>
    if (10 <? length cleanContent)%nat
    then js "[粘贴内容]" ++ preview ++ js "...（" ++ formattedTime ++ js "）"
    else js "[粘贴内容]" ++ preview ++ js "（" ++ formattedTime ++ js "）"
  end.

Definition pastedFile (content formattedTime : jsstring) (clock : Z) : File :=
  let chapters := _extractChaptersWithFallback content in
  mkFile (toString clock) (_generatePasteFileName content formattedTime) []
    Pasted chapters content (Z.of_nat (length chapters)) Active None 0 None
    (Some ∅).

Definition _loadPastedContent (formatTimestamp : Z -> jsstring)
    (content : jsstring) (st : State) : State :=
  let st0 := set_statusBarText (js "reader: 正在解析粘贴内容...") st in
  let fileInfo := pastedFile content (formatTimestamp (now st)) (now st) in
  let st1 := set_files (files st0 ++ [fileInfo]) st0 in
  let st2 :=
    set_scrollOffset 0
      (set_currentPage 0
         (set_currentChapter
            (if (0 <? length (chapters fileInfo))%nat then Some 0 else None)
            (set_currentFile (Some (length (files st0))) st1))) in
  _saveCurrentState (set_statusBarText (js "reader: 已加载粘贴内容") st2).

(** [_applyOpacityToStatusBar], the visible effect of [_setOpacity]. *)
Definition _applyOpacityToStatusBar (st : State) : State :=
  match currentChapter st, current st with
  | Some i, Some f => _displayChapterText (chapterAt f i) st
  | _, _ => st
  end.

(** *** Opening the preview panel *)

(** [Math.min(x, 1)] on doubles. *)
Definition Math_min1 (x : spec_float) : spec_float :=
  match SFcompare x (ofZ 1) with
  | Some Gt => ofZ 1
  | Some _ => x
  | None => S754_nan
  end.

Definition _calculateScrollPercentage (currentOffset : Z)
    (fullContent : jsstring) : spec_float :=
  match fullContent with
  | [] => S754_zero false
  | _ :: _ =>
    Math_min1
      (SFdiv prec emax (ofZ currentOffset)
         (ofZ (Z.of_nat (length fullContent))))
  end.

(** [showChapterPreview]; what it posts to the panel's webview (after a
    debounce of its own) is not part of the state. *)
Definition showChapterPreview (st : State) : State :=
  match current st, currentChapter st with
  | Some f, Some i =>
    match chapterAt f i with
    | None => st
    | Some chapter =>
      let fullContent := previewText chapter in
      let currentOffset := scrollOffset st in
      let st1 :=
        set_lastScrollPercentage
          (_calculateScrollPercentage currentOffset fullContent)
          (set_lastCharOffset currentOffset st) in
      if webviewPanel st1 then st1
      else set_isVisible true (set_webviewPanel true st1)
    end
  | _, _ => st
  end.

Definition toggleChapterPreview (st : State) : option State :=
  if isVisible st then hide st else Some (showChapterPreview st).

(** [charOffset || Math.floor(scrollPercentage * fullContent.length)],
    clamped; [None] for [NaN]. *)
Definition respondedOffset (charOffset : option Z) (percentage : spec_float)
    (len : Z) : option Z :=
  let newTextOffset :=
    match charOffset with
    | Some c => if c =? 0 then Math_floor (mul percentage (ofZ len)) else Int c
    | None => Math_floor (mul percentage (ofZ len))
    end in
  toOffset (Math_max 0 (Math_min newTextOffset (len - 1))).

Definition _handleScrollPositionResponse (scrollPercentage : spec_float)
    (charOffset : option Z) (st : State) : option State :=
  match current st, currentChapter st with
  | Some f, Some i =>
    match chapterAt f i with
    | None => Some st
    | Some chapter =>
      let fullContent := previewText chapter in
      newTextOffset ←
        respondedOffset charOffset scrollPercentage
          (Z.of_nat (length fullContent));
      let st1 := set_scrollOffset newTextOffset st in
      Some (_saveCurrentState (_displayChapterText (Some chapter) st1))
    end
  | _, _ => Some st
  end.

(** *** Vocabulary of the properties *)

(** What reading never changes in a document. *)
Definition fixedPart (f : File) :=
  (id f, name f, path f, type f, chapters f, fullText f, pages f, status f).

Definition library (st : State) := map fixedPart (files st).

Definition notNegative (c : option Z) : Prop :=
  match c with Some i => 0 <= i | None => True end.

Definition storedOk (f : File) : Prop := notNegative (lastChapter f).

(** No chapter index is negative: the cursor's, those of the documents
    and those of the store. *)
Definition WellStored (st : State) : Prop :=
  notNegative (currentChapter st)
  /\ Forall (fun f => notNegative (lastChapter f)) (files st)
  /\ Forall (fun s => notNegative (sv_lastChapter s))
       (default [] (storedFiles (storage st))).

(** Step 1 of [_selectFileFromList]: the position of the outgoing
    document is written. *)
Definition leave (fileId : jsstring) (st : State) : State :=
  match current st with
  | Some cf =>
    if negb (sameId (id cf) fileId)
    then _saveFileReadingPosition (id cf) st
    else st
  | None => st
  end.

(** Steps 2 to 6 of [_selectFileFromList], once the entry has been
    found. *)
Definition enter (r : nat) (file : File) (st1 : State) : option State :=
  let st3 := _restoreFileReadingPosition file (set_currentFile (Some r) st1) in
  st5 ←
    match currentChapter st3, chapters file with
    | Some i, _ :: _ =>
      let chapter := chapterAt file i in
      closePreviewAndRefresh chapter (_displayChapterText chapter st3)
    | _, _ =>
      let st4 :=
        set_statusBarText
          (js "reader: 已选择 " ++ name file ++ js " ["
             ++ typeName (type file) ++ js "]") st3 in
      if previewIsVisible st4 then hide st4 else Some st4
    end;
  Some (_saveCurrentState st5).

(** Where [_restoreFileReadingPosition] puts the cursor. *)
Definition landing (file : File) : option Z * Z :=
  let first :=
    if 0 <? Z.of_nat (length (chapters file)) then Some 0 else None in
  match lastChapter file with
  | Some lc =>
    if Z.of_nat (length (chapters file)) <=? lc then (first, 0)
    else (Some lc, lastScrollOffset file)
  | None => (first, 0)
  end.

(** Closing the preview commits a number: the cached percentage is
    finite, or it is not consulted. *)
Definition commitSafe (st : State) : Prop :=
  isFinite (lastScrollPercentage st) = true
  \/ lastCharOffset st <> 0
  \/ isPositive (lastScrollPercentage st) = false.

(** The status bar shows text, closing the preview commits a number and
    the cursor is in range. *)
Definition Calm (st : State) : Prop :=
  statusBarVisible st = true /\ commitSafe st /\ inRange st.

Definition Steady (st : State) : Prop := Calm st /\ WellStored st.

(** A response the panel can send: a finite percentage, and a non-zero
    offset or a positive percentage. *)
Definition soundResponse (p : spec_float) (c : option Z) : bool :=
  isFinite p
  && (isPositive p || match c with Some k => negb (k =? 0) | None => false end).

(** Everything that can happen to the reader: the events of the cursor
    and the preview, and the commands of the library as the side bar,
    the status bar and the key bindings send them. *)
Inductive Action :=
| Handle (e : Event)
| SelectFile (fileId : jsstring)
| RemoveFile (fileId : jsstring)
| CleanupMissingFiles
| LoadPastedContent (content : jsstring)
| SetOpacity
| ToggleChapterPreview
| ShowChapterPreview
| ScrollPositionResponse (scrollPercentage : spec_float)
    (charOffset : option Z).

Section Actions.

Variable formatTimestamp : Z -> jsstring.

Definition act (a : Action) (st : State) : option State :=
  match a with
  | Handle e => handleEvent e st
  | SelectFile fileId => _selectFileFromList fileId st
  | RemoveFile fileId => Some (_removeFile fileId st)
  | CleanupMissingFiles => Some (_cleanupMissingFiles st)
  | LoadPastedContent content =>
    Some (_loadPastedContent formatTimestamp content st)
  | SetOpacity => Some (_applyOpacityToStatusBar st)
  | ToggleChapterPreview => toggleChapterPreview st
  | ShowChapterPreview => Some (showChapterPreview st)
  | ScrollPositionResponse p c => _handleScrollPositionResponse p c st
  end.

Fixpoint actAll (actions : list Action) (st : State) : option State :=
  match actions with
  | [] => Some st
  | a :: rest => st' ← act a st; actAll rest st'
  end.

End Actions.

(** The actions that keep the reader steady: all but the end of a
    restore, which replaces the library, and with sound reports from the
    panel. *)
Definition steadyAction (a : Action) : bool :=
  match a with
  | Handle (PreviewScrolled p _) => isFinite p
  | Handle (RestoreEnds _ _) => false
  | ScrollPositionResponse p c => soundResponse p c
  | _ => true
  end.

(** The actions that read: they add no document and remove none. *)
Definition reads (a : Action) : bool :=
  match a with
  | Handle (RestoreEnds _ _) | RemoveFile _ | CleanupMissingFiles
  | LoadPastedContent _ => false
  | _ => true
  end.

(** *** Vocabulary of saving and of the restore *)









End Library.

(** ** The wheel handler of the hover window *)

Module Wheel.

Local Open Scope Z_scope.

Record ScrollWheelHandler := mkHandler {
  _scrollStep : Z;
  _scrollPosition : Z;
  _maxScrollPosition : Z;
  _isInitialized : bool
}.

Definition newHandler : ScrollWheelHandler := mkHandler 50 0 0 false.

(** What [_generateScrolledContent] returns. *)
Record ScrolledContent := mkContent {
  text : jsstring;
  chapterTitle : jsstring;
  position : jsstring;
  scrollPosition : Z;
  maxPosition : Z;
  hasMore : bool
}.

Definition _getCurrentChapterLength (st : State) : Z :=
  match current st, currentChapter st with
  | Some f, Some i =>
    match chapterAt f i with
    | Some chapter => Z.of_nat (length (previewText chapter))
    | None => 0
    end
  | _, _ => 0
  end.

Definition initialize (st : State) (w : ScrollWheelHandler)
    : ScrollWheelHandler :=
  match current st, currentChapter st with
  | Some _, Some _ =>
    mkHandler (_scrollStep w) (scrollOffset st) (_getCurrentChapterLength st)
      true
  | _, _ => w
  end.

Definition windowLength : Z := 300.

Definition _generateScrolledContent (st : State) (w : ScrollWheelHandler)
    : option ScrolledContent :=
  match current st, currentChapter st with
  | Some f, Some i =>
    match chapterAt f i with
    | Some chapter =>
      match previewText chapter with
      | [] => None
      | (_ :: _) as fullContent =>
        let pos := _scrollPosition w in
        let text := substring fullContent pos (pos + windowLength) in
        let len := Z.of_nat (length fullContent) in
        Some (mkContent text (title chapter)
                (toString pos ++ js "-"
                   ++ toString (pos + Z.of_nat (length text)) ++ js "/"
                   ++ toString len)
                pos len (pos + windowLength <? len))
      end
    | None => None
    end
  | _, _ => None
  end.

(** [Math.sign]; [None] for [NaN]. *)
Definition Math_sign (x : spec_float) : option Z :=
  match x with
  | S754_nan => None
  | S754_zero _ => Some 0
  | S754_infinity s | S754_finite s _ _ => Some (if s then -1 else 1)
  end.

(** [handleWheelEvent]: the handler after the event and the content it
    returns; [None] when [deltaY] is [NaN], which leaves a position that
    is not a number. *)
Definition handleWheelEvent (deltaY : spec_float) (ctrlKey : bool)
    (st : State) (w : ScrollWheelHandler)
    : option (ScrollWheelHandler * option ScrolledContent) :=
  match current st, currentChapter st with
  | Some _, Some _ =>
    let w1 := if _isInitialized w then w else initialize st w in
    let step := if ctrlKey then _scrollStep w1 * 2 else _scrollStep w1 in
    direction ← Math_sign deltaY;
    let newPosition := Z.max 0 (_scrollPosition w1 + direction * step) in
    let maxPosition := Z.max 0 (_maxScrollPosition w1 - 200) in
    let w2 :=
      mkHandler (_scrollStep w1) (Z.min newPosition maxPosition)
        (_maxScrollPosition w1) (_isInitialized w1) in
    Some (w2, _generateScrolledContent st w2)
  | _, _ => Some (w, None)
  end.

(** [syncToStatusBar]; the redisplay it asks for names no chapter and
    does nothing. *)
Definition syncToStatusBar (w : ScrollWheelHandler) (st : State) : State :=
  match current st with
  | Some _ =>
    if _isInitialized w then
      _displayChapterText None
        (_saveCurrentState (set_scrollOffset (_scrollPosition w) st))
    else st
  | None => st
  end.

Definition reset (w : ScrollWheelHandler) : ScrollWheelHandler :=
  mkHandler (_scrollStep w) 0 0 false.

Definition setScrollStep (step : Z) (w : ScrollWheelHandler)
    : ScrollWheelHandler :=
  mkHandler (Z.max 10 (Z.min 200 step)) (_scrollPosition w)
    (_maxScrollPosition w) (_isInitialized w).

End Wheel.

(** ** More sample documents *)

Module Shelf.

Local Open Scope Z_scope.

(** A second book, never opened. *)
Definition notes : File :=
  mkFile (js "1700000000001") (js "notes.txt") (js "/books/notes.txt") TXT
    [Samples.shortChapter] [] 1 Active None 0 None (Some ∅).

(** Two books, the first one open at offset 450 of its first chapter. *)
Definition twoBooks : State :=
  mkState [Samples.story ∅; notes] (Some O) (Some 0) 0 450
    (js "reader: One") true false None false false (S754_zero false) 0 0
    0%nat [] (mkStorage None None) 0%nat.

(** A clock rendering for the names of pasted documents. *)
Definition stamp (timestamp : Z) : jsstring := js "2023-11-14 22:13:20".

(** The reader at startup, with two records in the store: a pasted
    document and a file, both left in their sixth chapter. *)
Definition startup : State :=
  set_storage
    (mkStorage (Some [Samples.pastedRecord; Samples.fileRecord])
       (Some (js "42")))
    initialState.


End Shelf.

(** * Properties *)

(** ** Strings and splitting *)

Module JsStringFacts.

Lemma dropWhile_all (p : char -> bool) (s : jsstring) :
  Forall (fun c => p c = true) s -> dropWhile p s = [].
Proof.
  induction 1 as [|c s Hc _ IH]; simpl; [reflexivity|].
  now rewrite Hc.
Qed.

Lemma dropWhile_nil (p : char -> bool) (s : jsstring) :
  dropWhile p s = [] -> Forall (fun c => p c = true) s.
Proof.
  induction s as [|c s IH]; simpl; [constructor|].
  destruct (p c) eqn:Hc; [|discriminate].
  intros H. constructor; auto.
Qed.

Lemma trim_blank (s : jsstring) :
  Forall (fun c => isWhiteSpace c = true) s -> trim s = [].
Proof.
  intros H. unfold trim, trimEnd, trimStart.
  now rewrite (dropWhile_all _ _ H).
Qed.

(** [trim] leaves nothing exactly when every character is white space. *)
Lemma trim_nil_blank (s : jsstring) :
  trim s = [] -> Forall (fun c => isWhiteSpace c = true) s.
Proof.
  unfold trim, trimEnd, trimStart. intros H.
  apply dropWhile_nil.
  destruct (dropWhile isWhiteSpace s) as [|c t] eqn:E; [reflexivity|].
  exfalso.
  assert (Hc : isWhiteSpace c = false).
  { clear H. revert E. induction s as [|a s IH]; simpl; [discriminate|].
    destruct (isWhiteSpace a) eqn:Ha; [exact IH|].
    intros [= -> _]. exact Ha. }
  assert (H' : dropWhile isWhiteSpace (rev (c :: t)) = []).
  { destruct (dropWhile isWhiteSpace (rev (c :: t))) as [|x l]; [reflexivity|].
    simpl in H. now destruct (rev l). }
  clear H. rename H' into H.
  apply dropWhile_nil in H.
  apply Forall_rev in H. rewrite rev_involutive in H.
  inversion H as [|? ? Hc' _]; subst. congruence.
Qed.

Lemma splitOn_not_nil (sep : char) (s : jsstring) : splitOn sep s <> [].
Proof.
  destruct s as [|c s]; simpl; [discriminate|].
  destruct (c =? sep)%N; [discriminate|].
  destruct (splitOn sep s); discriminate.
Qed.

(** Every piece of a split is made of characters of the text. *)
Lemma splitOn_pieces (P : char -> Prop) (sep : char) (s : jsstring) :
  Forall P s -> Forall (Forall P) (splitOn sep s).
Proof.
  induction 1 as [|c s Hc Hs IH]; simpl.
  - repeat constructor.
  - destruct (c =? sep)%N.
    + constructor; [constructor | exact IH].
    + destruct (splitOn sep s) as [|l ls]; [repeat constructor; exact Hc|].
      inversion IH; subst. constructor; [constructor|]; assumption.
Qed.

Lemma splitFrom_pieces (P : char -> Prop) (r : regex) (s : jsstring) :
  Forall P s ->
  forall skip cur, Forall P cur -> Forall (Forall P) (splitFrom r skip cur s).
Proof.
  induction 1 as [|c s Hc Hs IH]; intros skip cur Hcur; simpl.
  - constructor; [now apply Forall_rev | constructor].
  - destruct skip as [|n]; [|now apply IH].
    destruct (matchLength r (c :: s)) as [[|n]|].
    + destruct cur as [|a cur'].
      * apply IH. now constructor.
      * constructor; [now apply Forall_rev|]. apply IH. now constructor.
    + constructor; [now apply Forall_rev|]. now apply IH.
    + apply IH. now constructor.
Qed.

Lemma split_pieces (P : char -> Prop) (r : regex) (s : jsstring) :
  Forall P s -> Forall (Forall P) (split r s).
Proof. intros H. now apply splitFrom_pieces. Qed.

Lemma length_join_sep (sep1 sep2 : jsstring) (ls : list jsstring) :
  length sep1 = length sep2 ->
  length (join sep1 ls) = length (join sep2 ls).
Proof.
  intros Hsep. induction ls as [|l ls IH]; [reflexivity|].
  destruct ls as [|l' ls']; [reflexivity|].
  change (join sep1 (l :: l' :: ls')) with (l ++ sep1 ++ join sep1 (l' :: ls')).
  change (join sep2 (l :: l' :: ls')) with (l ++ sep2 ++ join sep2 (l' :: ls')).
  rewrite !length_app, IH, Hsep. reflexivity.
Qed.

(** [substring] with ordered, in-range bounds is the plain slice. *)
Lemma substring_slice (s : jsstring) (a b : Z) :
  (0 <= a <= b)%Z -> (b <= Z.of_nat (length s))%Z ->
  substring s a b = firstn (Z.to_nat (b - a)) (skipn (Z.to_nat a) s).
Proof.
  intros Hab Hb. unfold substring.
  replace (Z.min (Z.max a 0) (Z.of_nat (length s))) with a by lia.
  replace (Z.min (Z.max b 0) (Z.of_nat (length s))) with b by lia.
  replace (Z.min a b) with a by lia.
  replace (Z.max a b) with b by lia.
  reflexivity.
Qed.

End JsStringFacts.

(** ** The segmenter *)

Module SegmenterFacts.

Import JsStringFacts.

Lemma blank_notBoundary (raw : jsstring) : trim raw = [] -> notBoundary raw.
Proof. unfold notBoundary. intros ->. reflexivity. Qed.

(** Lines without a boundary leave the scan as it was while no chapter is
    open. *)
Lemma scanLines_skip (pre rest : list jsstring) :
  Forall notBoundary pre ->
  forall i chapters,
    scanLines i (pre ++ rest) None chapters
    = scanLines (i + length pre) rest None chapters.
Proof.
  induction 1 as [|raw pre Hraw _ IH]; intros i chapters; simpl.
  - now rewrite Nat.add_0_r.
  - unfold notBoundary in Hraw.
    destruct (trim raw) as [|c line] eqn:E.
    + rewrite IH. f_equal. lia.
    + rewrite Hraw, IH. f_equal. lia.
Qed.

Lemma scanLines_no_boundary (lines : list jsstring) (i : nat) :
  Forall notBoundary lines -> scanLines i lines None [] = [].
Proof.
  intros H. rewrite <- (app_nil_r lines), (scanLines_skip _ [] H).
  reflexivity.
Qed.

(** The scan never drops a chapter it has closed or opened. *)
Lemma scanLines_length (lines : list jsstring) :
  forall i cur chapters,
    (length chapters + (if cur is Some _ then 1 else 0)
     <= length (scanLines i lines cur chapters))%nat.
Proof.
  induction lines as [|raw lines IH]; intros i cur chapters; simpl.
  - destruct cur; rewrite ?length_app; simpl; lia.
  - destruct (trim raw) as [|c line]; [apply IH|].
    destruct (boundaryTitle (c :: line)).
    + etransitivity; [|apply IH]. simpl.
      destruct cur; rewrite ?length_app; simpl; lia.
    + destruct cur as [ch|]; [|apply (IH (S i) None chapters)].
      destruct (5 <? length (c :: line))%nat;
        (etransitivity; [|apply IH]); simpl; lia.
Qed.

Lemma filter_blank (ls : list jsstring) :
  Forall (Forall (fun c => isWhiteSpace c = true)) ls ->
  List.filter nonBlank ls = [].
Proof.
  induction 1 as [|l ls Hl _ IH]; simpl; [reflexivity|].
  unfold nonBlank at 1. now rewrite (trim_blank _ Hl).
Qed.

(** The fallback always produces a chapter. *)
Lemma fallback_not_empty (text : jsstring) : _createFallbackChapters text <> [].
Proof.
  unfold _createFallbackChapters.
  match goal with |- context [match ?x with [] => [mkChapter _ _ _] | _ :: _ => _ end] =>
    destruct x eqn:E end; discriminate.
Qed.

Lemma pipeline_not_empty (text : jsstring) :
  _extractChaptersWithFallback text <> [].
Proof.
  unfold _extractChaptersWithFallback.
  destruct (_extractChapters text) as [|ch chs] eqn:E; simpl.
  - apply fallback_not_empty.
  - discriminate.
Qed.

(** The earlier evolution in [extension.js] does keep such lines, in a
    default chapter. *)
Lemma earlier_evolution_keeps_leading_lines :
  Earlier._extractChapters (js "a short preface
and nothing else")
  = [mkChapter (js "开始内容") 0 [js "a short preface"; js "and nothing else"]].
Proof. reflexivity. Qed.

(** [C3] When no boundary rule fires on the lines at the head of the
    text, the heuristic segmenter behaves as if those lines were not
    there: its result is the scan of the remaining lines alone (only the
    line numbers keep counting), so none of the leading lines is held by
    any chapter.  When no rule fires on the remaining lines either, the
    result is the empty list, not a catch-all chapter. *)
Theorem no_boundary_no_chapter (text : jsstring) (pre rest : list jsstring) :
  splitOn NL text = pre ++ rest ->
  Forall notBoundary pre ->
  _extractChapters text = scanLines (length pre) rest None []
  /\ (Forall notBoundary rest -> _extractChapters text = []).
Proof.
  intros Hsplit Hpre. unfold _extractChapters. rewrite Hsplit. split.
  - now rewrite scanLines_skip.
  - intros Hrest. apply scanLines_no_boundary.
    apply Forall_app; split; assumption.
Qed.

Lemma no_boundary_no_chapter_witness :
  let text := js "a short preface
Chapter 1 The Start
the first lines of the story" in
  _extractChapters text
  = [mkChapter (js "The Start") 1 [js "the first lines of the story"]]
  /\ _extractChapters (js "a short preface
and nothing else") = [].
Proof.
  split.
  - refine (proj1 (no_boundary_no_chapter _ [js "a short preface"]
                     [js "Chapter 1 The Start";
                      js "the first lines of the story"] _ _)).
    + reflexivity.
    + repeat constructor.
  - refine (proj2 (no_boundary_no_chapter _
                     [js "a short preface"; js "and nothing else"] [] _ _) _).
    + reflexivity.
    + repeat constructor.
    + constructor.
Defined.

(** [C4] For a text that is blank after trimming, the heuristic segmenter
    finds nothing and the fallback returns exactly one chapter, with the
    placeholder title and no content. *)
Theorem blank_text_sentinel (text : jsstring) :
  trim text = [] ->
  _extractChapters text = []
  /\ _createFallbackChapters text = [sentinel]
  /\ _extractChaptersWithFallback text = [sentinel].
Proof.
  intros Hblank.
  pose proof (trim_nil_blank _ Hblank) as Hws.
  assert (Hex : _extractChapters text = []).
  { unfold _extractChapters. apply scanLines_no_boundary.
    eapply Forall_impl; [apply (splitOn_pieces _ NL _ Hws)|].
    intros l Hl. apply blank_notBoundary. now apply trim_blank. }
  assert (Hfb : _createFallbackChapters text = [sentinel]).
  { unfold _createFallbackChapters.
    rewrite (filter_blank _ (split_pieces _ blankLineGap _ Hws)).
    rewrite (filter_blank _ (splitOn_pieces _ NL _ Hws)).
    rewrite Hblank. reflexivity. }
  repeat split; try assumption.
  unfold _extractChaptersWithFallback. rewrite Hex. exact Hfb.
Qed.

Lemma blank_text_sentinel_witness :
  _extractChaptersWithFallback (js "  

	 
") = [mkChapter (js "（空内容）") 0 []].
Proof.
  refine (proj2 (proj2 (blank_text_sentinel _ _))). reflexivity.
Defined.

Lemma orElse_not_empty (x fallback : jsstring) :
  fallback <> [] -> orElse x fallback <> [].
Proof. now destruct x. Qed.

(** Every chapter made by the fallback has a title: each one is guarded
    by a placeholder. *)
Lemma fallback_titles_not_empty (text : jsstring) :
  Forall (fun ch => title ch <> []) (_createFallbackChapters text).
Proof.
  assert (He : emptyTitle <> []) by discriminate.
  assert (Hn : noTitle <> []) by discriminate.
  unfold _createFallbackChapters.
  match goal with
  | |- Forall _ (match ?x with [] => _ | _ :: _ => _ end) =>
    assert (H : Forall (fun ch => title ch <> []) x); [|destruct x; auto]
  end.
  destruct (List.filter nonBlank (split blankLineGap text)) as [|p ps].
  - destruct (List.filter nonBlank (splitOn NL text)) as [|l ls].
    + destruct (collapseSpaces (trim text)); repeat constructor; simpl;
        [exact He | now apply orElse_not_empty].
    + apply Forall_forall. intros ch Hin.
      apply list_elem_of_fmap in Hin as (l' & -> & _).
      now apply orElse_not_empty.
  - apply Forall_concat, Forall_forall. intros chs Hin.
    apply list_elem_of_fmap in Hin as (p' & -> & _).
    unfold paragraphChapter.
    destruct (List.filter nonBlank (splitOn NL p')); repeat constructor.
    now apply orElse_not_empty.
Qed.

(** [C2] Every chapter of a non-blank text is meant to have a non-empty
    title, and the segmenter does not deliver that: the heading [1.-] is
    not blank, the fourth pattern takes it as a boundary with [-] as the
    candidate title, the clean-up strips the separator, and the only
    chapter of the result has the empty title. *)
Theorem bare_separator_heading_empty_title :
  trim (js "1.-") <> []
  /\ boundaryTitle (js "1.-") = Some []
  /\ _extractChaptersWithFallback (js "1.-") = [mkChapter [] 0 []].
Proof.
  split; [|split; reflexivity].
  intros H. vm_compute in H. discriminate H.
Qed.

End SegmenterFacts.

(** ** The cursor *)

Module ReaderFacts.

Import Reader JsStringFacts.
Local Open Scope Z_scope.

Arguments js : simpl never.
Arguments _extractChapters : simpl never.
Arguments _extractChaptersWithFallback : simpl never.
Arguments toString : simpl never.
Arguments displayContent : simpl never.
Arguments scrollIndicator : simpl never.

(** *** What the helpers leave alone *)

Lemma current_chapters (st : State) :
  currentChapters st = chapters <$> current st.
Proof.
  unfold currentChapters, current, shape.
  destruct (currentFile st) as [r|]; simpl; [|reflexivity].
  apply list_lookup_fmap.
Qed.

Lemma current_Some (st : State) (f : File) :
  current st = Some f -> currentChapters st = Some (chapters f).
Proof. intros H. now rewrite current_chapters, H. Qed.

Lemma current_None (st : State) :
  current st = None -> currentChapters st = None.
Proof. intros H. now rewrite current_chapters, H. Qed.

Lemma loaded_current (st : State) :
  loaded st
  = match current st, currentChapter st with
    | Some f, Some i => chapterAt f i
    | _, _ => None
    end.
Proof.
  unfold loaded. rewrite current_chapters.
  destruct (current st) as [f|]; simpl; [|reflexivity].
  destruct (currentChapter st); reflexivity.
Qed.

Lemma base_chapters (st st' : State) :
  base st' = base st -> currentChapters st' = currentChapters st.
Proof.
  unfold base, currentChapters. intros H.
  injection H as _ _ Hfile Hshape. rewrite Hfile. rewrite Hshape. reflexivity.
Qed.

Lemma base_current (st st' : State) (f : File) :
  base st' = base st -> current st = Some f ->
  exists f', current st' = Some f' /\ chapters f' = chapters f.
Proof.
  intros Hb Hf. pose proof (base_chapters _ _ Hb) as Hc.
  rewrite !current_chapters, Hf in Hc.
  destruct (current st') as [f'|]; [|discriminate].
  exists f'. split; [reflexivity|]. now injection Hc.
Qed.

Lemma view_base (st st' : State) : view st' = view st -> base st' = base st.
Proof. intros H. exact (f_equal (fun v => fst (fst v)) H). Qed.

Lemma view_loaded (st st' : State) :
  view st' = view st -> loaded st' = loaded st.
Proof.
  intros H. unfold loaded. rewrite (base_chapters _ _ (view_base _ _ H)).
  now rewrite (f_equal (fun v => snd (fst v)) H : currentChapter st' = _).
Qed.

Lemma map_chapters_insert (fs : list File) (r : nat) (f f' : File) :
  fs !! r = Some f -> chapters f' = chapters f ->
  map chapters (<[r := f']> fs) = map chapters fs.
Proof.
  intros Hf Hch. rewrite list_fmap_insert, Hch.
  apply list_insert_id. now rewrite list_lookup_fmap, Hf.
Qed.

Lemma map_updateFirst {B} (proj : File -> B) (p : File -> bool)
    (g : File -> File) (fs : list File) :
  (forall f, proj (g f) = proj f) ->
  map proj (updateFirst p g fs) = map proj fs.
Proof.
  intros Hg. induction fs as [|f fs IH]; simpl; [reflexivity|].
  destruct (p f); simpl; [now rewrite Hg | now rewrite IH].
Qed.

Lemma quiet_refl (st : State) : quiet st st.
Proof. repeat split. Qed.

Lemma quiet_trans (st1 st2 st3 : State) :
  quiet st1 st2 -> quiet st2 st3 -> quiet st1 st3.
Proof. unfold quiet. intros (-> & -> & ->) (-> & -> & ->). auto. Qed.

Lemma quiet_saveFileReadingPosition (fileId : jsstring) (st : State) :
  quiet st (_saveFileReadingPosition fileId st).
Proof.
  unfold _saveFileReadingPosition. destruct fileId; [apply quiet_refl|].
  unfold quiet, view, base, shape; simpl.
  now rewrite map_updateFirst.
Qed.

Lemma quiet_saveChapterPosition (i : option Z) (off : Z) (st : State) :
  quiet st (_saveChapterPosition i off st).
Proof.
  unfold _saveChapterPosition, current.
  destruct (currentFile st) as [r|] eqn:Hr; [|apply quiet_refl].
  destruct (files st !! r) as [f|] eqn:Hf; [|apply quiet_refl].
  destruct i as [i|]; [|apply quiet_refl].
  unfold quiet, view, base, shape; simpl. rewrite Hr.
  now rewrite (map_chapters_insert _ _ f).
Qed.

Lemma view_setTimeout (cb : Callback) (d : Z) (st : State) :
  view (snd (setTimeout cb d st)) = view st
  /\ scrollOffset (snd (setTimeout cb d st)) = scrollOffset st.
Proof. easy. Qed.

Lemma view_saveCurrentState (st : State) :
  view (_saveCurrentState st) = view st
  /\ scrollOffset (_saveCurrentState st) = scrollOffset st.
Proof.
  unfold _saveCurrentState. destruct (isRestoring st); [easy|].
  set (st1 := match current st with
              | Some f => _saveFileReadingPosition (id f) st
              | None => st end).
  assert (H1 : quiet st st1).
  { subst st1. destruct (current st);
      [apply quiet_saveFileReadingPosition | apply quiet_refl]. }
  destruct H1 as (<- & _ & <-).
  destruct (saveDebounceTimer st1); easy.
Qed.

Lemma view_display (chapter : option Chapter) (st : State) :
  view (_displayChapterText chapter st) = view st
  /\ host (_displayChapterText chapter st) = host st.
Proof.
  unfold _displayChapterText. destruct chapter; [|easy].
  destruct (statusBarVisible st); easy.
Qed.

Lemma offset_display (ch : Chapter) (st : State) :
  statusBarVisible st = true ->
  scrollOffset (_displayChapterText (Some ch) st)
  = clampOffset ch (scrollOffset st).
Proof. unfold _displayChapterText. now intros ->. Qed.

Lemma visible_of_view (st st' : State) :
  view st' = view st -> statusBarVisible st' = statusBarVisible st.
Proof. intros H. exact (f_equal (fun v => fst (fst (fst (fst (fst v))))) H). Qed.

(** *** The committed offset of the preview *)

Lemma shr_1_nonneg (mrs : shr_record) :
  0 <= shr_m mrs -> 0 <= shr_m (shr_1 mrs).
Proof.
  destruct mrs as [m r s]. simpl.
  destruct m as [|[p|p|]|[p|p|]]; simpl; lia.
Qed.

Lemma iter_shr_1_nonneg (p : positive) :
  forall mrs, 0 <= shr_m mrs -> 0 <= shr_m (SpecFloat.iter_pos shr_1 p mrs).
Proof.
  induction p as [p IH|p IH|]; simpl; intros mrs H.
  - apply IH, IH, shr_1_nonneg, H.
  - apply IH, IH, H.
  - apply shr_1_nonneg, H.
Qed.

Lemma shr_fexp_nonneg (m e : Z) (l : location) :
  0 <= m -> 0 <= shr_m (fst (shr_fexp prec emax m e l)).
Proof.
  intros Hm. unfold shr_fexp, shr.
  assert (H0 : 0 <= shr_m (shr_record_of_loc m l))
    by (destruct l as [|[]]; exact Hm).
  destruct (fexp prec emax (Zdigits2 m + e) - e); simpl; try exact H0.
  now apply iter_shr_1_nonneg.
Qed.

Lemma round_nearest_even_nonneg (m : Z) (l : location) :
  0 <= m -> 0 <= round_nearest_even m l.
Proof.
  intros Hm. destruct l as [|[]]; simpl; try lia.
  destruct (Z.even m); lia.
Qed.

(** Rounding a non-negative mantissa never yields NaN. *)
Lemma binary_round_aux_not_nan (sx : bool) (mx ex : Z) (lx : location) :
  0 <= mx -> binary_round_aux prec emax sx mx ex lx <> S754_nan.
Proof.
  intros Hm. unfold binary_round_aux.
  pose proof (shr_fexp_nonneg mx ex lx Hm) as H1.
  destruct (shr_fexp prec emax mx ex lx) as [mrs' e']. simpl in H1.
  pose proof (shr_fexp_nonneg _ e' loc_Exact
                (round_nearest_even_nonneg _ (loc_of_shr_record mrs') H1)) as H2.
  destruct (shr_fexp prec emax _ e' loc_Exact) as [mrs'' e'']. simpl in H2.
  destruct (shr_m mrs'') as [|m|m]; [discriminate| |lia].
  destruct (e'' <=? emax - prec); discriminate.
Qed.

Lemma ofZ_not_nan (z : Z) : ofZ z <> S754_nan.
Proof.
  unfold ofZ, binary_normalize, binary_round.
  destruct z as [|m|m]; [discriminate| |];
    destruct (shl_align _ _ _) as [mz ez];
    apply binary_round_aux_not_nan; lia.
Qed.

(** A positive finite percentage times a length is a number. *)
Lemma mul_length_not_nan (p : spec_float) (len : Z) :
  isFinite p = true -> isPositive p = true -> mul p (ofZ len) <> S754_nan.
Proof.
  intros Hfin Hpos. pose proof (ofZ_not_nan len) as Hlen.
  destruct p as [s|s| |s m e]; try discriminate.
  unfold mul, SFmul.
  destruct (ofZ len) as [s'|s'| |s' m' e']; try discriminate; [congruence|].
  apply binary_round_aux_not_nan. lia.
Qed.

Lemma committedOffset_range (c : Z) (p : spec_float) (len v : Z) :
  committedOffset c p len = Some v -> 0 <= v <= Z.max 0 (len - 1).
Proof.
  unfold committedOffset.
  destruct (if (c =? 0) && isPositive p then Math_floor (mul p (ofZ len))
            else Int c) as [|[]|z]; simpl; try discriminate;
    intros [= <-]; lia.
Qed.

Lemma committedOffset_total (c : Z) (p : spec_float) (len : Z) :
  isFinite p = true -> is_Some (committedOffset c p len).
Proof.
  intros Hfin. unfold committedOffset.
  destruct ((c =? 0) && isPositive p) eqn:E; [|simpl; eauto].
  apply andb_prop in E as [_ Hpos].
  pose proof (mul_length_not_nan p len Hfin Hpos) as Hn.
  destruct (mul p (ofZ len)) as [s|[]| |s m e]; simpl; eauto.
  congruence.
Qed.

(** The probed offset is committed when there is one. *)
Lemma committedOffset_probed (c : Z) (p : spec_float) (len : Z) :
  c <> 0 -> committedOffset c p len = Some (clamp c 0 (len - 1)).
Proof.
  intros Hc. unfold committedOffset.
  now destruct (Z.eqb_spec c 0).
Qed.

(** Without one, the percentage decides. *)
Lemma committedOffset_percentage (p : spec_float) (len : Z) :
  isPositive p = true ->
  committedOffset 0 p len
  = toOffset (Math_max 0 (Math_min (Math_floor (mul p (ofZ len))) (len - 1))).
Proof. intros Hp. unfold committedOffset. now rewrite Hp. Qed.

Lemma committedOffset_zero (p : spec_float) (len : Z) :
  isPositive p = false -> committedOffset 0 p len = Some 0.
Proof.
  intros Hp. unfold committedOffset. rewrite Hp. simpl. f_equal. lia.
Qed.

(** Rounding keeps the sign it is given. *)
Lemma binary_round_aux_sign (sx : bool) (mx ex : Z) (lx : location) :
  match binary_round_aux prec emax sx mx ex lx with
  | S754_zero s | S754_infinity s | S754_finite s _ _ => s = sx
  | S754_nan => True
  end.
Proof.
  unfold binary_round_aux.
  destruct (shr_fexp prec emax mx ex lx) as [mrs' e'].
  destruct (shr_fexp prec emax _ e' loc_Exact) as [mrs'' e''].
  destruct (shr_m mrs'') as [|m|m]; [reflexivity| |exact I].
  now destruct (e'' <=? emax - prec).
Qed.

Lemma ofZ_sign (len : Z) :
  0 <= len ->
  match ofZ len with
  | S754_zero s | S754_infinity s | S754_finite s _ _ => s = false
  | S754_nan => True
  end.
Proof.
  intros Hlen. unfold ofZ, binary_normalize, binary_round.
  destruct len as [|m|m]; [reflexivity| |lia].
  destruct (shl_align _ _ _) as [mz ez]. apply binary_round_aux_sign.
Qed.

Lemma floor_negative (m : positive) (e : Z) :
  forall z, Math_floor (S754_finite true m e) = Int z -> z <= 0.
Proof.
  intros z. simpl. intros [= <-].
  destruct (Z.leb_spec 0 e).
  - pose proof (Z.pow_pos_nonneg 2 e). nia.
  - apply Z.div_le_upper_bound; [apply Z.pow_pos_nonneg|]; lia.
Qed.

(** When the percentage is not positive the guard commits 0, which is
    also what clamping the floor of percentage times length gives, as
    long as both factors are finite doubles. *)
Lemma nonpositive_percentage_floor (p : spec_float) (len : Z) :
  isFinite p = true -> isPositive p = false ->
  0 <= len -> isFinite (ofZ len) = true ->
  toOffset (Math_max 0 (Math_min (Math_floor (mul p (ofZ len))) (len - 1)))
  = Some 0.
Proof.
  intros Hfin Hpos Hlen Hflen.
  pose proof (ofZ_sign len Hlen) as Hs.
  destruct p as [s|s| |s m e]; try discriminate.
  - destruct (ofZ len) as [s'|s'| |s' m' e']; try discriminate;
      simpl; f_equal; lia.
  - destruct s; [|discriminate].
    destruct (ofZ len) as [s'|s'| |s' m' e']; try discriminate.
    + simpl. f_equal. lia.
    + subst s'. unfold mul, SFmul. simpl xorb.
      pose proof (binary_round_aux_sign true (Z.pos (m * m')) (e + e')
                    loc_Exact) as Hsign.
      pose proof (binary_round_aux_not_nan true (Z.pos (m * m')) (e + e')
                    loc_Exact ltac:(lia)) as Hnan.
      destruct (binary_round_aux prec emax true _ _ _) as [s''|s''| |s'' m'' e''];
        try congruence; subst s''.
      * simpl. f_equal. lia.
      * simpl. reflexivity.
      * destruct (Math_floor (S754_finite true m'' e'')) as [| |z] eqn:Ez;
          try discriminate.
        apply floor_negative in Ez. simpl. f_equal. lia.
Qed.

(** [pct62] is the double nearest to 62/100: it has 53 significant
    bits and lies within half a unit in the last place of 0.62. *)
Lemma pct62_nearest :
  match pct62 with
  | S754_finite false m e =>
    e = -53 /\ 2 ^ 52 <= Z.pos m < 2 ^ 53
    /\ Z.abs (100 * Z.pos m - 62 * 2 ^ 53) <= 50
  | _ => False
  end.
Proof. vm_compute. repeat split; discriminate. Qed.

Lemma length_previewText (ch : Chapter) :
  length (previewText ch) = length (flatten ch).
Proof. apply length_join_sep. reflexivity. Qed.

Lemma clampOffset_range (ch : Chapter) (x : Z) :
  0 <= clampOffset ch x <= maxScrollOffsetOf ch.
Proof. unfold clampOffset, maxScrollOffsetOf. lia. Qed.

Lemma clampOffset_id (ch : Chapter) (x : Z) :
  0 <= x <= maxScrollOffsetOf ch -> clampOffset ch x = x.
Proof. unfold clampOffset. lia. Qed.

(** *** Closing the preview *)

Lemma sync_nothing_loaded (st : State) :
  loaded st = None -> _syncLastScrollPositionToStatusBar st = Some st.
Proof.
  rewrite loaded_current. unfold _syncLastScrollPositionToStatusBar.
  destruct (current st), (currentChapter st); try reflexivity.
  now intros ->.
Qed.

Lemma sync_loaded (st : State) (ch : Chapter) :
  loaded st = Some ch ->
  _syncLastScrollPositionToStatusBar st
  = match previewCommit st ch with
    | None => None
    | Some v =>
      Some (snd (setTimeout (Redisplay ch) refreshDelay
                   (_saveCurrentState
                      (_saveChapterPosition (currentChapter st) v
                         (_displayChapterText (Some ch)
                            (set_scrollOffset v st))))))
    end.
Proof.
  rewrite loaded_current. unfold _syncLastScrollPositionToStatusBar.
  destruct (current st) as [f|]; [|discriminate].
  destruct (currentChapter st) as [i|] eqn:Hi; [|discriminate].
  intros ->. unfold previewCommit.
  destruct (committedOffset _ _ _) as [v|]; [|reflexivity].
  destruct (view_display (Some ch) (set_scrollOffset v st)) as [Hv _].
  rewrite (f_equal (fun v => snd (fst v)) Hv : currentChapter _ = _).
  simpl. now rewrite Hi.
Qed.

(** Committing keeps the view and lands on the committed offset. *)
Lemma sync_commits (st : State) (ch : Chapter) (v : Z) :
  loaded st = Some ch -> previewCommit st ch = Some v ->
  exists st', _syncLastScrollPositionToStatusBar st = Some st'
    /\ view st' = view st /\ scrollOffset st' = v.
Proof.
  intros Hch Hv. rewrite (sync_loaded _ _ Hch), Hv.
  eexists; split; [reflexivity|].
  set (st1 := set_scrollOffset v st).
  set (st2 := _displayChapterText (Some ch) st1).
  set (st3 := _saveChapterPosition (currentChapter st) v st2).
  set (st4 := _saveCurrentState st3).
  destruct (view_saveCurrentState st3) as [H4 O4]. fold st4 in H4, O4.
  destruct (quiet_saveChapterPosition (currentChapter st) v st2)
    as (H3 & _ & O3). fold st3 in H3, O3.
  destruct (view_display (Some ch) st1) as [H2 _]. fold st2 in H2.
  split.
  - transitivity (view st4); [reflexivity|].
    now rewrite H4, H3, H2.
  - change (scrollOffset st4 = v). rewrite O4, O3. subst st2.
    unfold _displayChapterText.
    destruct (statusBarVisible st1); [|reflexivity]. simpl.
    apply clampOffset_id.
    pose proof (committedOffset_range _ _ _ _ Hv) as Hr.
    rewrite length_previewText in Hr. exact Hr.
Qed.

Lemma previewCommit_view (st st' : State) (ch : Chapter) :
  view st' = view st -> previewCommit st' ch = previewCommit st ch.
Proof.
  intros H. unfold previewCommit.
  pose proof (f_equal snd H) as Hp. unfold preview in Hp. simpl in Hp.
  injection Hp as _ _ -> ->. reflexivity.
Qed.

(** What [hide] leaves of the state when the panel was open. *)
Lemma hide_commits (st : State) (ch : Chapter) (v : Z) :
  webviewPanel st = true ->
  loaded st = Some ch -> previewCommit st ch = Some v ->
  exists st', hide st = Some st'
    /\ base st' = base st /\ currentChapter st' = currentChapter st
    /\ preview st' = (false, false, S754_zero false, 0)
    /\ scrollOffset st' = v.
Proof.
  intros Hp Hch Hv. unfold hide. rewrite Hp.
  destruct (sync_commits st ch v Hch Hv) as (st1 & -> & V1 & O1). simpl.
  unfold _onChapterPreviewDisposed.
  destruct (sync_commits st1 ch v) as (st2 & -> & V2 & O2).
  { now rewrite (view_loaded _ _ V1). }
  { now rewrite (previewCommit_view _ _ _ V1). }
  simpl. eexists; split; [reflexivity|].
  rewrite V1 in V2.
  pose proof (f_equal (fun v => fst (fst v)) V2) as Hb.
  pose proof (f_equal (fun v => snd (fst v)) V2) as Hc.
  simpl in Hb, Hc.
  repeat split; try assumption.
Qed.

Lemma hide_nothing_loaded (st : State) :
  loaded st = None ->
  exists st', hide st = Some st'
    /\ base st' = base st /\ currentChapter st' = currentChapter st
    /\ lastScrollPercentage st'
       = (if webviewPanel st then S754_zero false else lastScrollPercentage st)
    /\ scrollOffset st' = scrollOffset st.
Proof.
  intros Hl. unfold hide. destruct (webviewPanel st) eqn:Hp.
  - rewrite (sync_nothing_loaded _ Hl). simpl.
    unfold _onChapterPreviewDisposed.
    rewrite (sync_nothing_loaded _ Hl). simpl.
    eexists; split; [reflexivity|]. repeat split.
  - eexists; split; [reflexivity|]. repeat split.
Qed.

Lemma hide_closed (st : State) : webviewPanel st = false -> hide st = Some st.
Proof. unfold hide. now intros ->. Qed.

(** *** Stepping *)

Lemma current_view (st st' : State) :
  view st' = view st -> current st = None -> current st' = None.
Proof.
  intros Hv Hc. pose proof (base_chapters _ _ (view_base _ _ Hv)) as H.
  rewrite !current_chapters, Hc in H.
  now destruct (current st').
Qed.

Lemma view_sym (st st' : State) : view st' = view st -> view st = view st'.
Proof. easy. Qed.

Lemma chapter_view (st st' : State) :
  view st' = view st -> currentChapter st' = currentChapter st.
Proof. intros H. exact (f_equal (fun v => snd (fst v)) H). Qed.

Lemma percentage_view (st st' : State) :
  view st' = view st -> lastScrollPercentage st' = lastScrollPercentage st.
Proof.
  intros H. pose proof (f_equal snd H) as Hp. unfold preview in Hp.
  simpl in Hp. now injection Hp.
Qed.

Lemma inRange_view (st st' : State) :
  view st' = view st -> scrollOffset st' = scrollOffset st ->
  inRange st -> inRange st'.
Proof.
  intros Hv Ho. unfold inRange.
  rewrite (view_loaded _ _ Hv), Ho, (chapter_view _ _ Hv).
  destruct (loaded st); [easy|].
  intros [H|H]; [now left | right; now apply (current_view st)].
Qed.

Lemma Inv_view (st st' : State) :
  view st' = view st -> scrollOffset st' = scrollOffset st ->
  Inv st -> Inv st'.
Proof.
  intros Hv Ho (H1 & H2 & H3). repeat split.
  - now rewrite (visible_of_view _ _ Hv).
  - now rewrite (percentage_view _ _ Hv).
  - now apply (inRange_view st).
Qed.

Lemma afterStep_spec (chapter : option Chapter) (st : State) :
  view (afterStep chapter st) = view st
  /\ scrollOffset (afterStep chapter st)
     = scrollOffset (_displayChapterText chapter st).
Proof.
  unfold afterStep.
  set (st1 := _displayChapterText chapter st).
  set (st2 := _saveChapterPosition _ _ st1).
  destruct (view_saveCurrentState st2) as [-> ->].
  destruct (quiet_saveChapterPosition (currentChapter st1) (scrollOffset st1) st1)
    as (H & _ & O). fold st2 in H, O. rewrite H, O.
  split; [apply view_display | reflexivity].
Qed.

Lemma stepForward_spec (size : Z) (st : State) (ch : Chapter) :
  statusBarVisible st = true -> loaded st = Some ch ->
  view (stepForward size st) = view st
  /\ scrollOffset (stepForward size st)
     = (if scrollOffset st <? maxScrollOffsetOf ch
        then clampOffset ch (Z.min (maxScrollOffsetOf ch) (scrollOffset st + size))
        else scrollOffset st).
Proof.
  intros Hvis. rewrite loaded_current. unfold stepForward.
  destruct (current st) as [f|]; [|discriminate].
  destruct (currentChapter st) as [i|]; [|discriminate].
  intros ->.
  destruct (scrollOffset st <? maxScrollOffsetOf ch); [|easy].
  destruct (afterStep_spec (Some ch)
              (set_scrollOffset (Z.min (maxScrollOffsetOf ch)
                                   (scrollOffset st + size)) st)) as [-> ->].
  split; [reflexivity|]. now rewrite offset_display.
Qed.

Lemma stepBack_spec (size : Z) (st : State) (ch : Chapter) :
  statusBarVisible st = true -> loaded st = Some ch ->
  view (stepBack size st) = view st
  /\ scrollOffset (stepBack size st)
     = (if 0 <? scrollOffset st
        then clampOffset ch (Z.max 0 (scrollOffset st - size))
        else scrollOffset st).
Proof.
  intros Hvis. rewrite loaded_current. unfold stepBack.
  destruct (current st) as [f|]; [|discriminate].
  destruct (currentChapter st) as [i|]; [|discriminate].
  intros ->.
  destruct (0 <? scrollOffset st); [|easy].
  destruct (afterStep_spec (Some ch)
              (set_scrollOffset (Z.max 0 (scrollOffset st - size)) st))
    as [-> ->].
  split; [reflexivity|]. now rewrite offset_display.
Qed.

(** With no chapter or no document the stepping commands do nothing. *)
Lemma step_unloaded (size : Z) (st : State) :
  currentChapter st = None \/ current st = None ->
  stepForward size st = st /\ stepBack size st = st.
Proof.
  unfold stepForward, stepBack. intros [->| ->]; [easy|].
  now destruct (currentChapter st).
Qed.

(** Both directions follow the one clamping law. *)
Lemma stepForward_clamp (size : Z) (st : State) (ch : Chapter) :
  0 <= size -> Inv st -> loaded st = Some ch ->
  scrollOffset (stepForward size st)
  = clamp (scrollOffset st + size) 0 (maxScrollOffsetOf ch).
Proof.
  intros Hs (Hvis & _ & Hr) Hch. unfold inRange in Hr. rewrite Hch in Hr.
  destruct (stepForward_spec size st ch Hvis Hch) as [_ ->].
  unfold clamp, clampOffset.
  destruct (Z.ltb_spec (scrollOffset st) (maxScrollOffsetOf ch)); lia.
Qed.

Lemma stepBack_clamp (size : Z) (st : State) (ch : Chapter) :
  0 <= size -> Inv st -> loaded st = Some ch ->
  scrollOffset (stepBack size st)
  = clamp (scrollOffset st - size) 0 (maxScrollOffsetOf ch).
Proof.
  intros Hs (Hvis & _ & Hr) Hch. unfold inRange in Hr. rewrite Hch in Hr.
  destruct (stepBack_spec size st ch Hvis Hch) as [_ ->].
  unfold clamp, clampOffset.
  destruct (Z.ltb_spec 0 (scrollOffset st)); lia.
Qed.

Lemma Inv_stepForward (size : Z) (st : State) :
  Inv st -> Inv (stepForward size st).
Proof.
  intros HI. destruct (loaded st) as [ch|] eqn:Hch.
  - destruct HI as (Hvis & Hfin & Hr).
    destruct (stepForward_spec size st ch Hvis Hch) as [Hv Ho].
    repeat split.
    + now rewrite (visible_of_view _ _ Hv).
    + now rewrite (percentage_view _ _ Hv).
    + unfold inRange in *. rewrite (view_loaded _ _ Hv), Hch in *. rewrite Ho.
      destruct (scrollOffset st <? maxScrollOffsetOf ch);
        [apply clampOffset_range | exact Hr].
  - pose proof HI as (_ & _ & Hr). unfold inRange in Hr. rewrite Hch in Hr.
    now rewrite (proj1 (step_unloaded size st Hr)).
Qed.

Lemma Inv_stepBack (size : Z) (st : State) :
  Inv st -> Inv (stepBack size st).
Proof.
  intros HI. destruct (loaded st) as [ch|] eqn:Hch.
  - destruct HI as (Hvis & Hfin & Hr).
    destruct (stepBack_spec size st ch Hvis Hch) as [Hv Ho].
    repeat split.
    + now rewrite (visible_of_view _ _ Hv).
    + now rewrite (percentage_view _ _ Hv).
    + unfold inRange in *. rewrite (view_loaded _ _ Hv), Hch in *. rewrite Ho.
      destruct (0 <? scrollOffset st);
        [apply clampOffset_range | exact Hr].
  - pose proof HI as (_ & _ & Hr). unfold inRange in Hr. rewrite Hch in Hr.
    now rewrite (proj2 (step_unloaded size st Hr)).
Qed.

(** *** The per-chapter offsets *)

Lemma positions_same (st st' : State) :
  currentFile st' = currentFile st ->
  map chapterPositions (files st') = map chapterPositions (files st) ->
  positions st' = positions st.
Proof.
  intros Hr Hm. unfold positions, current. rewrite Hr.
  destruct (currentFile st) as [r|]; [|reflexivity].
  assert (H : chapterPositions <$> files st' !! r
              = chapterPositions <$> files st !! r)
    by (rewrite <- !list_lookup_fmap; now f_equal).
  destruct (files st' !! r), (files st !! r); simpl in H; try discriminate;
    [now injection H as -> | reflexivity].
Qed.

Lemma positions_display (chapter : option Chapter) (st : State) :
  positions (_displayChapterText chapter st) = positions st.
Proof.
  unfold _displayChapterText. destruct chapter; [|reflexivity].
  now destruct (statusBarVisible st).
Qed.

Lemma positions_saveCurrentState (st : State) :
  positions (_saveCurrentState st) = positions st.
Proof.
  apply positions_same.
  - exact (f_equal (fun v => snd (fst (fst (fst v))))
             (proj1 (view_saveCurrentState st))).
  - unfold _saveCurrentState. destruct (isRestoring st); [reflexivity|].
    set (st1 := match current st with
                | Some f => _saveFileReadingPosition (id f) st
                | None => st end).
    assert (H1 : map chapterPositions (files st1)
                 = map chapterPositions (files st)).
    { subst st1. destruct (current st) as [f|]; [|reflexivity].
      unfold _saveFileReadingPosition. destruct (id f); [reflexivity|].
      simpl. now apply map_updateFirst. }
    rewrite <- H1. now destruct (saveDebounceTimer st1).
Qed.

Lemma positions_saveChapterPosition (c off : Z) (st : State) (f : File) :
  current st = Some f ->
  positions (_saveChapterPosition (Some c) off st)
  = <[c := off]> (positions st).
Proof.
  intros Hf. unfold positions at 2. rewrite Hf.
  unfold _saveChapterPosition. rewrite Hf.
  unfold current in Hf. destruct (currentFile st) as [r|] eqn:Hr; [|discriminate].
  unfold positions, current. simpl. rewrite Hr.
  rewrite list_lookup_insert_eq; [reflexivity|].
  now apply lookup_lt_Some in Hf.
Qed.

Lemma getChapterPosition_positions (i : Z) (st : State) :
  _getChapterPosition (Some i) st = default 0 (positions st !! i).
Proof.
  unfold _getChapterPosition, positions.
  destruct (current st) as [f|]; [|reflexivity].
  now destruct (chapterPositions f).
Qed.

(** *** Selecting a chapter *)

Lemma select_no_document (i : option Z) (st : State) :
  current st = None -> _selectChapter i st = Some st.
Proof. unfold _selectChapter. now intros ->. Qed.

Lemma select_out_of_range (i : option Z) (st : State) (f : File) :
  current st = Some f ->
  match i with
  | Some idx => ~ (0 <= idx < Z.of_nat (length (chapters f)))
  | None => True
  end ->
  _selectChapter i st = Some st.
Proof.
  intros Hf Hi. unfold _selectChapter. rewrite Hf.
  destruct i as [idx|]; [|reflexivity].
  destruct (Z.leb_spec 0 idx), (Z.ltb_spec idx (Z.of_nat (length (chapters f))));
    simpl; try reflexivity.
  lia.
Qed.

Lemma nthChapter_in_range (chs : list Chapter) (idx : Z) :
  0 <= idx < Z.of_nat (length chs) -> is_Some (nthChapter chs idx).
Proof.
  intros H. unfold nthChapter.
  destruct (Z.leb_spec 0 idx); [|lia].
  apply lookup_lt_is_Some. lia.
Qed.

Lemma select_in_range (st : State) (f : File) (idx : Z) :
  current st = Some f ->
  0 <= idx < Z.of_nat (length (chapters f)) ->
  statusBarVisible st = true ->
  (previewIsVisible st = true -> isFinite (lastScrollPercentage st) = true) ->
  exists st' ch,
    _selectChapter (Some idx) st = Some st'
    /\ base st' = base st /\ currentChapter st' = Some idx
    /\ nthChapter (chapters f) idx = Some ch
    /\ (isFinite (lastScrollPercentage st) = true ->
        isFinite (lastScrollPercentage st') = true)
    /\ 0 <= scrollOffset st' <= maxScrollOffsetOf ch
    /\ (previewIsVisible st = false ->
        scrollOffset st' = clampOffset ch (default 0 (positions st !! idx))
        /\ positions st'
           = match currentChapter st with
             | Some c =>
               if c =? idx then positions st
               else <[c := scrollOffset st]> (positions st)
             | None => positions st
             end).
Proof.
  intros Hf Hidx Hvis Hfin.
  destruct (nthChapter_in_range _ _ Hidx) as [ch Hch].
  unfold _selectChapter. rewrite Hf.
  replace ((0 <=? idx) && (idx <? Z.of_nat (length (chapters f)))) with true
    by (symmetry; apply andb_true_intro; split;
        [apply Z.leb_le | apply Z.ltb_lt]; lia).
  change (chapterAt f idx) with (nthChapter (chapters f) idx). rewrite Hch.
  set (st1 := match currentChapter st with
              | Some c =>
                if negb (c =? idx)
                then _saveChapterPosition (currentChapter st) (scrollOffset st) st
                else st
              | None => st
              end).
  assert (Q1 : quiet st st1).
  { subst st1. destruct (currentChapter st) as [c|]; [|apply quiet_refl].
    destruct (negb (c =? idx));
      [apply quiet_saveChapterPosition | apply quiet_refl]. }
  assert (P1 : positions st1
               = match currentChapter st with
                 | Some c =>
                   if c =? idx then positions st
                   else <[c := scrollOffset st]> (positions st)
                 | None => positions st
                 end).
  { subst st1. destruct (currentChapter st) as [c|]; [|reflexivity].
    destruct (c =? idx); simpl; [reflexivity|].
    now apply positions_saveChapterPosition with f. }
  set (st2 := set_currentPage 0 (set_currentChapter (Some idx) st1)).
  set (st3 := set_scrollOffset (_getChapterPosition (Some idx) st2) st2).
  set (st4 := _displayChapterText (Some ch) st3).
  set (st5 := _saveCurrentState st4).
  destruct Q1 as (V1 & _ & _).
  assert (B3 : base st3 = base st) by exact (view_base _ _ V1).
  assert (R3 : preview st3 = preview st) by exact (f_equal snd V1).
  destruct (view_display (Some ch) st3) as [V4 _]. fold st4 in V4.
  destruct (view_saveCurrentState st4) as [V5 O5]. fold st5 in V5, O5.
  rewrite V4 in V5.
  assert (B5 : base st5 = base st)
    by (rewrite <- B3; exact (view_base _ _ V5)).
  assert (C5 : currentChapter st5 = Some idx) by exact (chapter_view _ _ V5).
  assert (R5 : preview st5 = preview st)
    by (rewrite <- R3; exact (f_equal snd V5)).
  assert (L5 : loaded st5 = Some ch).
  { unfold loaded. rewrite (base_chapters _ _ B5), (current_Some _ _ Hf), C5.
    exact Hch. }
  assert (Vis5 : statusBarVisible st5 = true).
  { rewrite <- Hvis. exact (f_equal (fun b => fst (fst (fst b))) B5). }
  assert (O4 : scrollOffset st5
               = clampOffset ch (_getChapterPosition (Some idx) st2)).
  { rewrite O5. subst st4. rewrite offset_display; [reflexivity|].
    rewrite <- Hvis. exact (f_equal (fun b => fst (fst (fst b))) B3). }
  assert (Hpv : previewIsVisible st5 = previewIsVisible st).
  { unfold previewIsVisible. unfold preview in R5. now injection R5 as -> ->. }
  assert (Hpct : lastScrollPercentage st5 = lastScrollPercentage st).
  { unfold preview in R5. now injection R5. }
  rewrite Hpv. destruct (previewIsVisible st) eqn:Epv.
  - assert (Hpanel : webviewPanel st5 = true).
    { unfold previewIsVisible in Epv. apply andb_prop in Epv as [_ Hp].
      unfold preview in R5. injection R5 as -> _ _ _. exact Hp. }
    destruct (committedOffset_total (lastCharOffset st5)
                (lastScrollPercentage st5)
                (Z.of_nat (length (previewText ch)))) as [v Hv].
    { rewrite Hpct. now apply Hfin. }
    destruct (hide_commits st5 ch v Hpanel L5 Hv)
      as (st6 & -> & B6 & C6 & R6 & O6).
    simpl. exists (snd (setTimeout (Redisplay ch) refreshDelay st6)), ch.
    split; [reflexivity|].
    split; [exact (eq_trans B6 B5)|].
    split; [exact (eq_trans C6 C5)|].
    split; [reflexivity|].
    apply (committedOffset_range _ _ _ _) in Hv.
    rewrite length_previewText in Hv.
    split.
    { intros _. change (isFinite (lastScrollPercentage st6) = true).
      unfold preview in R6. injection R6 as _ _ Hz _. now rewrite Hz. }
    split.
    { change (0 <= scrollOffset st6 <= maxScrollOffsetOf ch).
      rewrite O6. exact Hv. }
    discriminate.
  - exists st5, ch. split; [reflexivity|].
    split; [exact B5|]. split; [exact C5|]. split; [reflexivity|].
    split; [now rewrite Hpct|].
    split; [rewrite O4; apply clampOffset_range|].
    intros _. split.
    + rewrite O4. f_equal. rewrite getChapterPosition_positions.
      subst st2. unfold positions, current. simpl.
      fold (current st1). fold (positions st1). rewrite P1.
      destruct (currentChapter st) as [c|]; [|reflexivity].
      destruct (Z.eqb_spec c idx); [reflexivity|].
      now rewrite lookup_insert_ne.
    + subst st5. rewrite positions_saveCurrentState. subst st4.
      rewrite positions_display. exact P1.
Qed.

(** *** The cursor never leaves its chapter *)

Lemma Inv_select (i : option Z) (st : State) :
  Inv st -> exists st', _selectChapter i st = Some st' /\ Inv st'.
Proof.
  intros HI. destruct (current st) as [f|] eqn:Hf.
  2:{ exists st. split; [now apply select_no_document | exact HI]. }
  destruct i as [idx|].
  2:{ exists st. split; [now apply (select_out_of_range None st f) | exact HI]. }
  destruct (Z.le_gt_cases 0 idx) as [H0|H0].
  2:{ exists st. split; [|exact HI].
      apply (select_out_of_range (Some idx) st f Hf). lia. }
  destruct (Z.lt_ge_cases idx (Z.of_nat (length (chapters f)))) as [H1|H1].
  2:{ exists st. split; [|exact HI].
      apply (select_out_of_range (Some idx) st f Hf). lia. }
  destruct HI as (Hvis & Hfin & _).
  destruct (select_in_range st f idx Hf (conj H0 H1) Hvis (fun _ => Hfin))
    as (st' & ch & Hsel & B & C & Hch & Hfin' & Hr & _).
  exists st'. split; [exact Hsel|]. repeat split.
  - rewrite <- Hvis. exact (f_equal (fun b => fst (fst (fst b))) B).
  - exact (Hfin' Hfin).
  - unfold inRange, loaded.
    rewrite (base_chapters _ _ B), (current_Some _ _ Hf), C. simpl.
    rewrite Hch. exact Hr.
Qed.

Lemma Inv_perform (c : Command) (st : State) :
  Inv st -> exists st', perform c st = Some st' /\ Inv st'.
Proof.
  intros HI. destruct c; simpl; try (eexists; split; [reflexivity|]).
  - now apply Inv_stepBack.
  - now apply Inv_stepForward.
  - now apply Inv_stepBack.
  - now apply Inv_stepForward.
  - now apply Inv_select.
Qed.

Lemma Inv_fireTimer (h : nat) (st : State) : Inv st -> Inv (fireTimer h st).
Proof.
  intros HI. unfold fireTimer.
  destruct (List.find _ (timers st)) as [t|]; [|exact HI].
  destruct (due t <=? now st); [|exact HI].
  destruct (callback t) as [|ch']; unfold runCallback.
  - now apply (Inv_view st).
  - destruct HI as (Hvis & Hfin & Hr).
    destruct (view_display (Some ch') (clearTimeout h st)) as [Hv _].
    change (view (clearTimeout h st)) with (view st) in Hv.
    split; [now rewrite (visible_of_view _ _ Hv)|].
    split; [now rewrite (percentage_view _ _ Hv)|].
    + unfold inRange in *. rewrite (view_loaded _ _ Hv), (chapter_view _ _ Hv).
      rewrite offset_display by exact Hvis.
      change (scrollOffset (clearTimeout h st)) with (scrollOffset st).
      destruct (loaded st) as [ch|].
      * unfold clampOffset, maxScrollOffsetOf in *. lia.
      * destruct Hr as [Hr|Hr]; [now left | right].
        now apply (current_view st).
Qed.

Lemma Inv_navigation (es : list Event) :
  Forall (fun e => navigation e = true) es ->
  forall st, Inv st -> exists st', handleAll es st = Some st' /\ Inv st'.
Proof.
  induction 1 as [|e es He _ IH]; intros st HI; simpl.
  - now exists st.
  - assert (H : exists st1, handleEvent e st = Some st1 /\ Inv st1).
    { destruct e; try discriminate; simpl.
      - now apply Inv_perform.
      - eexists; split; [reflexivity | now apply Inv_fireTimer].
      - eexists; split; [reflexivity | now apply (Inv_view st)]. }
    destruct H as (st1 & -> & HI1). simpl. now apply IH.
Qed.

Lemma perform_unloaded (c : Command) (st : State) :
  current st = None \/ (currentChapter st = None /\ delta c <> None) ->
  perform c st = Some st.
Proof.
  intros [H|[H Hd]].
  - destruct c; simpl;
      try (f_equal; apply (step_unloaded _ st); now right).
    now apply select_no_document.
  - destruct c; simpl; try (f_equal; apply (step_unloaded _ st); now left).
    now contradict Hd.
Qed.

Lemma commands_before_loading (cs : list Command) :
  handleAll (map Do cs) initialState = Some initialState.
Proof.
  induction cs as [|c cs IH]; simpl; [reflexivity|].
  rewrite (perform_unloaded c initialState) by now left.
  exact IH.
Qed.

Lemma perform_clamp (c : Command) (d : Z) (st : State) (ch : Chapter) :
  Inv st -> delta c = Some d -> loaded st = Some ch ->
  exists st', perform c st = Some st'
    /\ scrollOffset st' = clamp (scrollOffset st + d) 0 (maxScrollOffsetOf ch).
Proof.
  intros HI Hd Hch.
  destruct c; simpl in Hd; try discriminate; injection Hd as <-; eexists;
    (split; [reflexivity|]).
  - apply stepBack_clamp; [unfold scrollStep; lia | assumption..].
  - apply stepForward_clamp; [unfold scrollStep; lia | assumption..].
  - apply stepBack_clamp; [unfold jumpSize; lia | assumption..].
  - apply stepForward_clamp; [unfold jumpSize; lia | assumption..].
Qed.

(** [C1] From a state in which the cursor is in range, any sequence of
    the stepping commands, of chapter selections and of timer firings
    leaves the offset inside [0, maxScrollOffset] of the chapter under
    the cursor, where maxScrollOffset = max(0, flattened length - 1);
    each stepping command sets the offset to
    clamp(offset + delta, 0, maxScrollOffset); with no document, or for
    a step with no chapter, a command changes nothing, and from the
    initial state the offset stays 0. *)
Theorem cursor_stays_in_range (st : State) (es : list Event) :
  Inv st ->
  Forall (fun e => navigation e = true) es ->
  (exists st', handleAll es st = Some st' /\ Inv st' /\ inRange st')
  /\ (forall c d ch,
        delta c = Some d -> loaded st = Some ch ->
        maxScrollOffsetOf ch = Z.max 0 (Z.of_nat (length (flatten ch)) - 1)
        /\ exists st', perform c st = Some st'
             /\ scrollOffset st'
                = clamp (scrollOffset st + d) 0 (maxScrollOffsetOf ch))
  /\ (forall c,
        current st = None \/ (currentChapter st = None /\ delta c <> None) ->
        perform c st = Some st)
  /\ (forall cs,
        handleAll (map Do cs) initialState = Some initialState
        /\ scrollOffset initialState = 0).
Proof.
  intros HI Hes. split; [|split; [|split]].
  - destruct (Inv_navigation es Hes st HI) as (st' & H & HI').
    exists st'. split; [exact H|]. split; [exact HI' | apply HI'].
  - intros c d ch Hd Hch. split; [reflexivity|]. now apply perform_clamp.
  - intros c. apply perform_unloaded.
  - intros cs. split; [apply commands_before_loading | reflexivity].
Qed.

(** The scenario of the clamped page jump: 500 characters, offset 450,
    a jump of 80 lands on 499. *)
Lemma page_jump_clamps_at_end :
  length (flatten Samples.longChapter) = 500%nat
  /\ scrollOffset (Samples.reading ∅) = 450
  /\ scrollOffset (_nextPage (Samples.reading ∅)) = 499.
Proof. vm_compute. repeat split. Qed.

Lemma cursor_stays_in_range_witness :
  Inv (Samples.reading ∅)
  /\ exists st',
       handleAll [Do NextPage; Do (SelectChapter (Some 1)); Do ScrollLeft;
                  TimerFires 0; Do (SelectChapter (Some 0))]
         (Samples.reading ∅) = Some st'
       /\ inRange st'.
Proof.
  assert (HI : Inv (Samples.reading ∅)).
  { split; [reflexivity|]. split; [reflexivity|].
    unfold inRange. vm_compute. split; discriminate. }
  split; [exact HI|].
  destruct (cursor_stays_in_range (Samples.reading ∅)
              [Do NextPage; Do (SelectChapter (Some 1)); Do ScrollLeft;
               TimerFires 0; Do (SelectChapter (Some 0))] HI)
    as [(st' & H & _ & Hr) _].
  - repeat constructor.
  - exists st'. split; assumption.
Defined.

(** *** Selection and the per-chapter offsets *)

(** [C5], read to the letter: "the offset after a selection is the
    incoming chapter's entry" fails where the entry lies beyond the end
    of the chapter, because the redisplay clamps it. *)
Lemma selection_clamps_stale_entry :
  ~ (forall st f idx st',
       current st = Some f ->
       0 <= idx < Z.of_nat (length (chapters f)) ->
       _selectChapter (Some idx) st = Some st' ->
       scrollOffset st' = default 0 (positions st !! idx)).
Proof.
  intros H.
  destruct (_selectChapter (Some 1) Samples.staleState) as [st'|] eqn:E.
  - assert (Ho : scrollOffset st' = 2)
      by (vm_compute in E; injection E as <-; reflexivity).
    specialize (H Samples.staleState (Samples.story {[ 1 := 100 ]}) 1 st'
                  eq_refl).
    rewrite Ho in H.
    assert (Hcontra : 2 = 100); [|discriminate Hcontra].
    etransitivity; [apply H|].
    + vm_compute. split; [discriminate | reflexivity].
    + exact E.
    + vm_compute. reflexivity.
  - vm_compute in E. discriminate E.
Qed.

(** Committing the preview rewrites the map entry of the chapter under
    the cursor and no other. *)
Lemma sync_view (st st' : State) :
  _syncLastScrollPositionToStatusBar st = Some st' -> view st' = view st.
Proof.
  intros H. destruct (loaded st) as [ch|] eqn:Hl.
  - rewrite (sync_loaded _ _ Hl) in H.
    destruct (previewCommit st ch) as [v|] eqn:Hv; [|discriminate].
    destruct (sync_commits st ch v Hl Hv) as (st2 & H2 & V & _).
    rewrite (sync_loaded _ _ Hl), Hv in H2. congruence.
  - rewrite (sync_nothing_loaded _ Hl) in H. congruence.
Qed.

Lemma positions_sync (st st' : State) (k : Z) :
  _syncLastScrollPositionToStatusBar st = Some st' ->
  currentChapter st <> Some k ->
  positions st' !! k = positions st !! k.
Proof.
  intros H Hk. destruct (loaded st) as [ch|] eqn:Hl.
  2:{ rewrite (sync_nothing_loaded _ Hl) in H. congruence. }
  rewrite (sync_loaded _ _ Hl) in H.
  destruct (previewCommit st ch) as [v|]; [|discriminate].
  apply (inj Some) in H. subst st'.
  rewrite loaded_current in Hl.
  destruct (current st) as [f|] eqn:Hf; [|discriminate].
  destruct (currentChapter st) as [i|] eqn:Hi; [|discriminate].
  set (st2 := _displayChapterText (Some ch) (set_scrollOffset v st)).
  transitivity (positions (_saveCurrentState
                             (_saveChapterPosition (Some i) v st2)) !! k);
    [reflexivity|].
  rewrite positions_saveCurrentState.
  assert (Hf2 : exists f2, current st2 = Some f2).
  { destruct (view_display (Some ch) (set_scrollOffset v st)) as [V _].
    destruct (base_current (set_scrollOffset v st) st2 f (view_base _ _ V) Hf)
      as (f2 & H2 & _).
    now exists f2. }
  destruct Hf2 as [f2 Hf2].
  rewrite (positions_saveChapterPosition i v st2 f2 Hf2).
  rewrite lookup_insert_ne by congruence.
  subst st2. now rewrite positions_display.
Qed.

Lemma positions_hide (st st' : State) (k : Z) :
  hide st = Some st' -> currentChapter st <> Some k ->
  positions st' !! k = positions st !! k.
Proof.
  unfold hide. destruct (webviewPanel st); [|intros [= <-]; reflexivity].
  destruct (_syncLastScrollPositionToStatusBar st) as [st1|] eqn:E1;
    [|discriminate]. simpl.
  unfold _onChapterPreviewDisposed.
  destruct (_syncLastScrollPositionToStatusBar st1) as [st2|] eqn:E2;
    [|discriminate]. simpl.
  intros H Hk. apply (inj Some) in H. subst st'.
  transitivity (positions st2 !! k); [reflexivity|].
  rewrite (positions_sync _ _ k E2), (positions_sync _ _ k E1 Hk);
    [reflexivity|].
  now rewrite (chapter_view _ _ (sync_view _ _ E1)).
Qed.

(** A selection records the outgoing chapter's offset and touches the
    entry of no chapter but the outgoing and the incoming one, whether
    the preview is open or not. *)
Lemma select_records (st st' : State) (f : File) (idx k : Z) :
  current st = Some f ->
  0 <= idx < Z.of_nat (length (chapters f)) ->
  _selectChapter (Some idx) st = Some st' ->
  k <> idx ->
  positions st' !! k
  = if bool_decide (currentChapter st = Some k) then Some (scrollOffset st)
    else positions st !! k.
Proof.
  intros Hf Hidx Hsel Hk. unfold _selectChapter in Hsel. rewrite Hf in Hsel.
  replace ((0 <=? idx) && (idx <? Z.of_nat (length (chapters f)))) with true
    in Hsel
    by (symmetry; apply andb_true_intro; split;
        [apply Z.leb_le | apply Z.ltb_lt]; lia).
  set (st1 := match currentChapter st with
              | Some c =>
                if negb (c =? idx)
                then _saveChapterPosition (currentChapter st) (scrollOffset st) st
                else st
              | None => st
              end) in Hsel.
  assert (P1 : positions st1 !! k
               = if bool_decide (currentChapter st = Some k)
                 then Some (scrollOffset st) else positions st !! k).
  { subst st1. destruct (currentChapter st) as [c|].
    - destruct (Z.eqb_spec c idx) as [Hc|Hc]; simpl.
      + rewrite bool_decide_eq_false_2 by congruence. reflexivity.
      + rewrite (positions_saveChapterPosition c _ st f Hf).
        destruct (decide (c = k)) as [->|Hck].
        * rewrite bool_decide_eq_true_2 by reflexivity.
          apply lookup_insert_eq.
        * rewrite bool_decide_eq_false_2 by congruence.
          now apply lookup_insert_ne.
    - rewrite bool_decide_eq_false_2 by congruence. reflexivity. }
  set (st2 := set_currentPage 0 (set_currentChapter (Some idx) st1)) in Hsel.
  set (st3 := set_scrollOffset (_getChapterPosition (Some idx) st2) st2)
    in Hsel.
  set (st5 := _saveCurrentState (_displayChapterText (chapterAt f idx) st3))
    in Hsel.
  assert (P5 : positions st5 = positions st1).
  { subst st5. rewrite positions_saveCurrentState, positions_display.
    reflexivity. }
  assert (C5 : currentChapter st5 = Some idx).
  { subst st5.
    rewrite (chapter_view _ _ (proj1 (view_saveCurrentState _))).
    rewrite (chapter_view _ _ (proj1 (view_display _ _))). reflexivity. }
  rewrite <- P1, <- P5.
  destruct (previewIsVisible st5); [|apply (inj Some) in Hsel; now subst].
  destruct (hide st5) as [st6|] eqn:E6; [|discriminate]. simpl in Hsel.
  assert (P6 : positions st6 !! k = positions st5 !! k).
  { apply (positions_hide _ _ k E6). rewrite C5. congruence. }
  rewrite <- P6.
  destruct (chapterAt f idx); apply (inj Some) in Hsel; now subst.
Qed.

(** [C5] With a document open: a selection outside [0, chapters.length)
    (or one that is not a number) changes nothing.  A selection inside
    makes that chapter current, records the outgoing chapter's offset in
    the document's map when the chapter changes, touches the entry of no
    third chapter, and leaves the offset inside [0, maxScrollOffset] of
    the incoming chapter, whether the preview is open or closed.  With
    the preview closed the map changes in nothing else, and the offset is
    the incoming chapter's entry of that map (0 without one) clamped into
    [0, maxScrollOffset] of the incoming chapter. *)
Theorem select_chapter_restores_clamped (st : State) (f : File) :
  current st = Some f ->
  (forall i,
     match i with
     | Some idx => ~ (0 <= idx < Z.of_nat (length (chapters f)))
     | None => True
     end ->
     _selectChapter i st = Some st)
  /\ (forall idx,
        0 <= idx < Z.of_nat (length (chapters f)) ->
        statusBarVisible st = true ->
        (previewIsVisible st = true ->
         isFinite (lastScrollPercentage st) = true) ->
        exists st' ch,
          _selectChapter (Some idx) st = Some st'
          /\ currentChapter st' = Some idx
          /\ nthChapter (chapters f) idx = Some ch
          /\ (forall k, k <> idx ->
                positions st' !! k
                = if bool_decide (currentChapter st = Some k)
                  then Some (scrollOffset st)
                  else positions st !! k)
          /\ 0 <= scrollOffset st' <= maxScrollOffsetOf ch
          /\ (previewIsVisible st = false ->
              positions st'
              = match currentChapter st with
                | Some c =>
                  if c =? idx then positions st
                  else <[c := scrollOffset st]> (positions st)
                | None => positions st
                end
              /\ scrollOffset st'
                 = clamp (default 0 (positions st !! idx)) 0
                     (maxScrollOffsetOf ch))).
Proof.
  intros Hf. split.
  - intros i Hi. now apply (select_out_of_range i st f).
  - intros idx Hidx Hvis Hfin.
    destruct (select_in_range st f idx Hf Hidx Hvis Hfin)
      as (st' & ch & Hsel & _ & C & Hch & _ & Hr & Hoff).
    exists st', ch. split; [exact Hsel|]. split; [exact C|].
    split; [exact Hch|]. split.
    { intros k Hk. exact (select_records st st' f idx k Hf Hidx Hsel Hk). }
    split; [exact Hr|].
    intros Hpv. destruct (Hoff Hpv) as [Ho Hp]. split; assumption.
Qed.

Lemma select_chapter_restores_clamped_witness :
  (exists st',
     _selectChapter (Some 1) Samples.staleState = Some st'
     /\ positions st' = <[0 := 450]> {[ 1 := 100 ]}
     /\ scrollOffset st' = 2)
  /\ (exists st',
        _selectChapter (Some 1) Samples.previewingTwo = Some st'
        /\ currentChapter st' = Some 1
        /\ positions st' !! 0 = Some 450
        /\ 0 <= scrollOffset st' <= 999).
Proof.
  split.
  - destruct (select_chapter_restores_clamped Samples.staleState
                (Samples.story {[ 1 := 100 ]}) eq_refl) as [_ H].
    destruct (H 1) as (st' & ch & Hsel & _ & Hch & _ & _ & Hc).
    { vm_compute. split; [discriminate | reflexivity]. }
    { reflexivity. }
    { discriminate. }
    destruct (Hc eq_refl) as [Hp Ho].
    exists st'. split; [exact Hsel|]. split; [exact Hp|].
    injection Hch as <-. exact Ho.
  - destruct (select_chapter_restores_clamped Samples.previewingTwo
                (Samples.twoLong {[ 1 := 7 ]}) eq_refl) as [_ H].
    destruct (H 1) as (st' & ch & Hsel & C & Hch & Hk & Hr & _).
    { vm_compute. split; [discriminate | reflexivity]. }
    { reflexivity. }
    { reflexivity. }
    exists st'. split; [exact Hsel|]. split; [exact C|].
    split; [exact (Hk 0 ltac:(discriminate))|].
    injection Hch as <-. exact Hr.
Defined.

(** With the preview open, the selection closes it afterwards, and
    closing commits the position the panel had cached, for the outgoing
    chapter, as the offset and the map entry of the incoming one: here
    the probed offset 300 replaces the entry 7 of chapter 1. *)
Lemma selection_with_preview_open :
  exists st',
    _selectChapter (Some 1) Samples.previewingTwo = Some st'
    /\ scrollOffset st' = 300
    /\ positions st' !! 1 = Some 300.
Proof.
  destruct (_selectChapter (Some 1) Samples.previewingTwo) as [st'|] eqn:E.
  - exists st'. split; [reflexivity|].
    vm_compute in E. injection E as <-. split; reflexivity.
  - vm_compute in E. discriminate E.
Qed.

(** *** Reconciling the preview *)

(** The handler of the dispose event commits like [hide]. *)
Lemma dispose_commits (st : State) (ch : Chapter) (v : Z) :
  loaded st = Some ch -> previewCommit st ch = Some v ->
  exists st', _onChapterPreviewDisposed st = Some st'
    /\ base st' = base st /\ currentChapter st' = currentChapter st
    /\ preview st' = (false, false, S754_zero false, 0)
    /\ scrollOffset st' = v.
Proof.
  intros Hch Hv. unfold _onChapterPreviewDisposed.
  destruct (sync_commits st ch v Hch Hv) as (st1 & -> & V1 & O1). simpl.
  eexists; split; [reflexivity|].
  pose proof (f_equal (fun v => fst (fst v)) V1) as Hb.
  pose proof (f_equal (fun v => snd (fst v)) V1) as Hc.
  simpl in Hb, Hc.
  repeat split; assumption.
Qed.

(** Either way of closing the panel: [hide], which needs a panel to
    close, and the dispose event. *)
Lemma close_commits (close : State -> option State) (st : State)
    (ch : Chapter) (v : Z) :
  In close [hide; _onChapterPreviewDisposed] ->
  webviewPanel st = true ->
  loaded st = Some ch -> previewCommit st ch = Some v ->
  exists st', close st = Some st'
    /\ preview st' = (false, false, S754_zero false, 0)
    /\ scrollOffset st' = v.
Proof.
  intros [<-|[<-|[]]] Hp Hch Hv.
  - destruct (hide_commits st ch v Hp Hch Hv) as (st' & H & _ & _ & R & O).
    now exists st'.
  - destruct (dispose_commits st ch v Hch Hv) as (st' & H & _ & _ & R & O).
    now exists st'.
Qed.

Lemma close_Some_commit (close : State -> option State) (st st' : State)
    (ch : Chapter) :
  In close [hide; _onChapterPreviewDisposed] ->
  webviewPanel st = true -> loaded st = Some ch -> close st = Some st' ->
  previewCommit st ch = Some (scrollOffset st')
  /\ preview st' = (false, false, S754_zero false, 0).
Proof.
  intros Hin Hp Hch Hh.
  destruct (previewCommit st ch) as [v|] eqn:Hv.
  - destruct (close_commits close st ch v Hin Hp Hch Hv) as (st2 & H2 & R & O).
    assert (st2 = st') by congruence. subst st2. now rewrite O.
  - exfalso. destruct Hin as [<-|[<-|[]]].
    + unfold hide in Hh. rewrite Hp, (sync_loaded _ _ Hch), Hv in Hh.
      discriminate Hh.
    + unfold _onChapterPreviewDisposed in Hh.
      rewrite (sync_loaded _ _ Hch), Hv in Hh. discriminate Hh.
Qed.

(** [C6] The preview panel closes in two ways: through [hide], and
    through the dispose event of the panel.  Either way, closing it over
    the chapter under the cursor commits the cached character offset when
    it is not zero, and otherwise the floor of percentage times text
    length (a percentage that is not positive commits 0, which is what
    that floor clamps to); the committed value is
    max(0, min(value, length - 1)), so it lies in [0, length - 1] of a
    non-empty text, and the panel is left closed with its cache reset.
    With no probed offset and a percentage of 0.62 over 1000 characters
    the committed offset is 620. *)
Theorem preview_close_commits (close : State -> option State) (st : State)
    (ch : Chapter) :
  In close [hide; _onChapterPreviewDisposed] ->
  webviewPanel st = true ->
  loaded st = Some ch ->
  let len := Z.of_nat (length (previewText ch)) in
  let c := lastCharOffset st in
  let p := lastScrollPercentage st in
  (c <> 0 ->
   exists st', close st = Some st' /\ scrollOffset st' = clamp c 0 (len - 1))
  /\ (c = 0 -> isPositive p = true ->
      forall z, Math_floor (mul p (ofZ len)) = Int z ->
      exists st', close st = Some st' /\ scrollOffset st' = clamp z 0 (len - 1))
  /\ (c = 0 -> isPositive p = false ->
      (exists st', close st = Some st' /\ scrollOffset st' = 0)
      /\ (isFinite p = true -> isFinite (ofZ len) = true ->
          forall z, Math_floor (mul p (ofZ len)) = Int z ->
          clamp z 0 (len - 1) = 0))
  /\ (forall st', close st = Some st' ->
      0 <= scrollOffset st' <= Z.max 0 (len - 1)
      /\ preview st' = (false, false, S754_zero false, 0))
  /\ committedOffset 0 pct62 1000 = Some 620.
Proof.
  intros Hin Hp Hch len c p.
  assert (Hgo : forall v, previewCommit st ch = Some v ->
                  exists st', close st = Some st' /\ scrollOffset st' = v).
  { intros v Hv.
    destruct (close_commits close st ch v Hin Hp Hch Hv) as (st' & H & _ & O).
    now exists st'. }
  split; [|split; [|split; [|split]]].
  - intros Hc. apply Hgo. now apply committedOffset_probed.
  - intros Hc Hpos z Hz. apply Hgo. unfold previewCommit. fold c p len.
    rewrite Hc, (committedOffset_percentage _ _ Hpos), Hz. reflexivity.
  - intros Hc Hpos. split.
    + apply Hgo. unfold previewCommit. fold c p len.
      rewrite Hc. now apply committedOffset_zero.
    + intros Hfin Hflen z Hz.
      pose proof (nonpositive_percentage_floor p len Hfin Hpos
                    ltac:(subst len; lia) Hflen) as H0.
      rewrite Hz in H0. simpl in H0. now injection H0.
  - intros st' Hh.
    destruct (close_Some_commit close st st' ch Hin Hp Hch Hh) as [Hv R].
    split; [|exact R].
    exact (committedOffset_range c p len _ Hv).
  - reflexivity.
Qed.

Lemma preview_close_commits_witness :
  (exists st', hide Samples.previewing = Some st' /\ scrollOffset st' = 620)
  /\ (exists st',
        _onChapterPreviewDisposed Samples.previewing = Some st'
        /\ scrollOffset st' = 620).
Proof.
  split.
  - destruct (preview_close_commits hide Samples.previewing Samples.thousand
                (or_introl eq_refl) eq_refl eq_refl) as (_ & H & _).
    exact (H eq_refl eq_refl 620 eq_refl).
  - destruct (preview_close_commits _onChapterPreviewDisposed
                Samples.previewing Samples.thousand
                (or_intror (or_introl eq_refl)) eq_refl eq_refl)
      as (_ & H & _).
    exact (H eq_refl eq_refl 620 eq_refl).
Defined.

(** *** The status-bar window *)

Lemma text_display (st : State) (ch : Chapter) :
  statusBarVisible st = true ->
  let offset := clampOffset ch (scrollOffset st) in
  let total := Z.of_nat (length (flatten ch)) in
  statusBarText (_displayChapterText (Some ch) st)
  = js "reader: " ++ title ch
      ++ scrollIndicator offset (Z.min (offset + displayLength) total) total
      ++ js " - " ++ displayContent ch offset ++ js " "
      ++ (if previewIsVisible st then js "🔍" else js "📖").
Proof. unfold _displayChapterText. now intros ->. Qed.

(** [C9] With the status bar showing, the text displayed for a chapter
    is built around the window of the flattened chapter text that starts
    at the clamped offset and ends at min(offset + 80, length): the
    window has exactly end - offset characters, its k-th character is
    the (offset + k)-th of the text, and the position marker
    [offset-end/length] is present exactly when the text is longer than
    the window width. *)
Theorem visible_window (st : State) (ch : Chapter) :
  statusBarVisible st = true ->
  let st' := _displayChapterText (Some ch) st in
  let full := flatten ch in
  let total := Z.of_nat (length full) in
  let offset := scrollOffset st' in
  let endPos := Z.min (offset + displayLength) total in
  let window := take (Z.to_nat (endPos - offset)) (drop (Z.to_nat offset) full) in
  let marker :=
    js " [" ++ toString offset ++ js "-" ++ toString endPos ++ js "/"
      ++ toString total ++ js "]" in
  offset = clamp (scrollOffset st) 0 (maxScrollOffsetOf ch)
  /\ 0 <= offset <= endPos /\ endPos <= total
  /\ Z.of_nat (length window) = endPos - offset
  /\ (forall k, (k < length window)%nat ->
        window !! k = full !! (Z.to_nat offset + k)%nat)
  /\ statusBarText st'
     = js "reader: " ++ title ch
         ++ (if displayLength <? total then marker else [])
         ++ js " - " ++ window ++ js " "
         ++ (if previewIsVisible st then js "🔍" else js "📖").
Proof.
  intros Hvis st' full total offset endPos window marker.
  assert (Ho : offset = clampOffset ch (scrollOffset st))
    by (subst offset st'; now apply offset_display).
  assert (Hr : 0 <= offset <= endPos /\ endPos <= total).
  { subst endPos. rewrite Ho. unfold clampOffset, maxScrollOffsetOf, displayLength.
    fold full. fold total. lia. }
  split; [exact Ho|]. split; [apply Hr|]. split; [apply Hr|].
  assert (Hlen : Z.of_nat (length window) = endPos - offset).
  { subst window. rewrite length_take, length_drop. fold total in Hr |- *. lia. }
  split; [exact Hlen|]. split.
  - intros k Hk. subst window.
    rewrite lookup_take_lt, lookup_drop; [reflexivity|].
    rewrite length_take in Hk. lia.
  - subst st'. rewrite (text_display _ _ Hvis), <- Ho.
    unfold scrollIndicator, displayContent. fold full. fold total.
    fold endPos. rewrite substring_slice by (fold total; lia).
    reflexivity.
Qed.

Lemma visible_window_witness :
  statusBarText (_displayChapterText (Some Samples.longChapter)
                   (Samples.reading ∅))
  = js "reader: One [450-500/500] - " ++ repeat 0x61%N 50 ++ js " 📖".
Proof.
  refine (eq_trans (proj2 (proj2 (proj2 (proj2 (proj2
            (visible_window (Samples.reading ∅) Samples.longChapter eq_refl))))))
            _).
  vm_compute. reflexivity.
Defined.

(** *** The two flattenings *)

(** [C10] The status bar joins the content lines with a space and the
    preview joins them with a newline; the two texts have the same
    length for every list of lines, the preview helper returns a content
    that already is a string unchanged, and an offset is inside
    [0, max(0, length - 1)] of one text exactly when it is inside that
    range of the other. *)
Theorem flattenings_agree (ch : Chapter) (s : jsstring) (offset : Z) :
  flatten ch = join (js " ") (content ch)
  /\ previewText ch = join (js "
") (content ch)
  /\ length (flatten ch) = length (previewText ch)
  /\ getChapterContentAsString (Some (Text s)) = s
  /\ (0 <= offset <= Z.max 0 (Z.of_nat (length (flatten ch)) - 1)
      <-> 0 <= offset <= Z.max 0 (Z.of_nat (length (previewText ch)) - 1)).
Proof.
  split; [reflexivity|]. split; [reflexivity|].
  split; [symmetry; apply length_previewText|].
  split; [reflexivity|].
  now rewrite length_previewText.
Qed.

(** *** Debounced saving *)

Lemma orderly_refl (st : State) : orderly st st.
Proof. split; [easy|]. intros H. now repeat split. Qed.

Lemma orderly_trans (st1 st2 st3 : State) :
  orderly st1 st2 -> orderly st2 st3 -> orderly st1 st3.
Proof.
  intros [D1 R1] [D2 R2]. split; [auto|].
  intros H. destruct (R1 H) as (H2 & P1 & W1 & S1).
  destruct (R2 H2) as (H3 & P2 & W2 & S2).
  split; [exact H3|]. unfold nothingSaved. now rewrite P2, W2, S2.
Qed.

Lemma orderly_host (st st' : State) :
  host st' = host st -> isRestoring st' = isRestoring st -> orderly st st'.
Proof.
  intros Hh Hr. unfold host in Hh. injection Hh as Ht Hn Hs Hw Hst _.
  split.
  - unfold DebounceInv, pendingSaves. now rewrite Ht, Hn, Hs.
  - intros H. split; [congruence|].
    unfold nothingSaved, pendingSaves. now rewrite Ht, Hw, Hst.
Qed.

Lemma restoring_view (st st' : State) :
  view st' = view st -> isRestoring st' = isRestoring st.
Proof. intros H. exact (f_equal (fun v => snd (fst (fst (fst (fst v))))) H). Qed.

Lemma orderly_quiet (st st' : State) : quiet st st' -> orderly st st'.
Proof.
  intros (Hv & Hh & _). apply orderly_host; [exact Hh|].
  now apply restoring_view.
Qed.

Lemma orderly_display (chapter : option Chapter) (st : State) :
  orderly st (_displayChapterText chapter st).
Proof.
  destruct (view_display chapter st) as [Hv Hh].
  apply orderly_host; [exact Hh | now apply restoring_view].
Qed.

Lemma pendingSaves_app (ts1 ts2 : list Timer) :
  List.filter isSave (ts1 ++ ts2)
  = List.filter isSave ts1 ++ List.filter isSave ts2.
Proof. apply List.filter_app. Qed.

Lemma orderly_setTimeout_redisplay (ch : Chapter) (d : Z) (st : State) :
  orderly st (snd (setTimeout (Redisplay ch) d st)).
Proof.
  split.
  - intros (Hlt & Hnd & Hps). unfold DebounceInv, pendingSaves. simpl.
    split; [|split].
    + apply Forall_app. split.
      * eapply Forall_impl; [exact Hlt|]. simpl. intros t Ht. lia.
      * constructor; [simpl; lia | constructor].
    + rewrite map_app. simpl. apply NoDup_app. split; [exact Hnd|]. split.
      * intros h Hin Hh. apply list_elem_of_In in Hh as [Hh|[]].
        apply list_elem_of_fmap in Hin as (t & Heq & Ht).
        rewrite Forall_forall in Hlt. specialize (Hlt t Ht).
        simpl in Hh. lia.
      * apply NoDup_singleton.
    + rewrite pendingSaves_app. simpl. rewrite app_nil_r. exact Hps.
  - intros H. split; [exact H|]. unfold nothingSaved, pendingSaves. simpl.
    rewrite pendingSaves_app. simpl. now rewrite app_nil_r.
Qed.

Lemma filter_handle_lt (ts : list Timer) (n h : nat) :
  Forall (fun t => (handle t < n)%nat) ts ->
  Forall (fun t => (handle t < n)%nat)
    (List.filter (fun t => negb (handle t =? h)%nat) ts).
Proof.
  induction 1 as [|t ts Ht _ IH]; simpl; [constructor|].
  destruct (negb _); [constructor|]; assumption.
Qed.

Lemma filter_handle_NoDup (p : Timer -> bool) (ts : list Timer) :
  NoDup (map handle ts) -> NoDup (map handle (List.filter p ts)).
Proof.
  induction ts as [|t ts IH]; simpl; [easy|].
  intros Hnd. apply NoDup_cons in Hnd as [Hnotin Hnd].
  destruct (p t); [|auto]. simpl. apply NoDup_cons. split; [|auto].
  intros Hin. apply Hnotin.
  apply list_elem_of_fmap in Hin as (t' & Heq & Ht').
  apply list_elem_of_fmap. exists t'. split; [exact Heq|].
  apply list_elem_of_In. apply list_elem_of_In in Ht'.
  now apply List.filter_In in Ht' as [? _].
Qed.

Lemma filter_handle_saves (ts : list Timer) (h : nat) :
  List.filter isSave (List.filter (fun t => negb (handle t =? h)%nat) ts)
  = List.filter (fun t => negb (handle t =? h)%nat) (List.filter isSave ts).
Proof.
  induction ts as [|t ts IH]; simpl; [reflexivity|].
  destruct (negb (handle t =? h)%nat) eqn:E1, (isSave t) eqn:E2; simpl;
    rewrite ?E1, ?E2, IH; reflexivity.
Qed.

(** Cancelling the timer [_saveDebounceTimer] refers to leaves no write
    pending. *)
Lemma cancel_pending (ts : list Timer) (h : nat) :
  Forall (fun t => Some h = Some (handle t)) (List.filter isSave ts) ->
  List.filter isSave (List.filter (fun t => negb (handle t =? h)%nat) ts) = [].
Proof.
  rewrite filter_handle_saves.
  induction 1 as [|t ts' Ht _ IH]; simpl; [reflexivity|].
  injection Ht as ->. now rewrite Nat.eqb_refl.
Qed.

Lemma DebounceInv_clearTimeout (h : nat) (st : State) :
  DebounceInv st -> DebounceInv (clearTimeout h st).
Proof.
  intros (Hlt & Hnd & Hps). unfold DebounceInv, pendingSaves. simpl.
  split; [now apply filter_handle_lt|].
  split; [now apply filter_handle_NoDup|].
  rewrite filter_handle_saves.
  unfold pendingSaves in Hps. clear -Hps.
  induction Hps as [|t ts Ht _ IH]; simpl; [constructor|].
  destruct (negb _); [constructor|]; assumption.
Qed.

Lemma saveCurrentState_restoring (st : State) :
  isRestoring st = true -> _saveCurrentState st = st.
Proof. unfold _saveCurrentState. now intros ->. Qed.

Lemma find_fresh (ts : list Timer) (t : Timer) :
  Forall (fun t' => (handle t' < handle t)%nat) ts ->
  List.find (fun t' => (handle t' =? handle t)%nat) (ts ++ [t]) = Some t.
Proof.
  induction 1 as [|t' ts Ht _ IH]; simpl.
  - now rewrite Nat.eqb_refl.
  - destruct (Nat.eqb_spec (handle t') (handle t)); [lia | exact IH].
Qed.

(** Outside a restore a save request cancels the pending write and
    schedules a new one; nothing is written yet. *)
Lemma saveCurrentState_schedules (st : State) :
  isRestoring st = false -> DebounceInv st ->
  let st' := _saveCurrentState st in
  let t := mkTimer (nextTimer st) (now st + saveDelay) SaveState in
  pendingSaves st' = [t]
  /\ List.find (fun t' => (handle t' =? nextTimer st)%nat) (timers st') = Some t
  /\ DebounceInv st'
  /\ writeCount st' = writeCount st /\ storage st' = storage st
  /\ now st' = now st /\ isRestoring st' = false.
Proof.
  intros Hr HD. unfold _saveCurrentState. rewrite Hr.
  set (st1 := match current st with
              | Some f => _saveFileReadingPosition (id f) st
              | None => st end).
  assert (Q1 : quiet st st1).
  { subst st1. destruct (current st);
      [apply quiet_saveFileReadingPosition | apply quiet_refl]. }
  destruct Q1 as (V1 & H1 & _).
  pose proof (restoring_view _ _ V1) as R1. rewrite Hr in R1.
  assert (D1 : DebounceInv st1)
    by (apply (orderly_host st st1 H1); [congruence | exact HD]).
  unfold host in H1. injection H1 as _ Hn1 _ Hw1 Hs1 Hnow1.
  rewrite <- Hn1, <- Hw1, <- Hs1, <- Hnow1. clear Hn1 Hw1 Hs1 Hnow1 V1 HD Hr.
  set (st2 := match saveDebounceTimer st1 with
              | Some h => clearTimeout h st1
              | None => st1 end).
  assert (D2 : DebounceInv st2 /\ pendingSaves st2 = []
               /\ nextTimer st2 = nextTimer st1).
  { subst st2. destruct (saveDebounceTimer st1) as [h|] eqn:Hh.
    - split; [now apply DebounceInv_clearTimeout|]. split; [|reflexivity].
      destruct D1 as (_ & _ & Hps). rewrite Hh in Hps.
      now apply cancel_pending.
    - split; [exact D1|]. split; [|reflexivity].
      destruct D1 as (_ & _ & Hps). rewrite Hh in Hps.
      destruct (pendingSaves st1); [reflexivity|].
      inversion Hps; discriminate. }
  destruct D2 as ((Hlt & Hnd & _) & Hp2 & Hn2).
  change (isRestoring st2) with (isRestoring st1) in *.
  assert (Hsame : writeCount st2 = writeCount st1 /\ storage st2 = storage st1
                  /\ now st2 = now st1 /\ isRestoring st2 = isRestoring st1)
    by (subst st2; destruct (saveDebounceTimer st1); easy).
  destruct Hsame as (Hw2 & Hs2 & Hnow2 & Hr2).
  rewrite <- Hn2, <- Hw2, <- Hs2, <- Hnow2.
  unfold pendingSaves, DebounceInv, pendingSaves. simpl.
  rewrite pendingSaves_app. fold (pendingSaves st2). rewrite Hp2. simpl.
  split; [reflexivity|]. split.
  { apply (find_fresh (timers st2)
             (mkTimer (nextTimer st2) (now st2 + saveDelay) SaveState)).
    exact Hlt. }
  split; [|repeat split; congruence].
  split; [|split].
  - apply Forall_app. split.
    + eapply Forall_impl; [exact Hlt|]. simpl. intros t Ht. lia.
    + constructor; [simpl; lia | constructor].
  - rewrite map_app. simpl. apply NoDup_app. split; [exact Hnd|]. split.
    + intros h Hin Hh. apply list_elem_of_In in Hh as [Hh|[]].
      apply list_elem_of_fmap in Hin as (t & Heq & Ht).
      rewrite Forall_forall in Hlt. specialize (Hlt t Ht). lia.
    + apply NoDup_singleton.
  - repeat constructor.
Qed.

Lemma orderly_saveCurrentState (st : State) : orderly st (_saveCurrentState st).
Proof.
  destruct (isRestoring st) eqn:Hr.
  - rewrite (saveCurrentState_restoring _ Hr). apply orderly_refl.
  - split; [|congruence]. intros HD.
    apply (saveCurrentState_schedules st Hr HD).
Qed.

Lemma orderly_afterStep (chapter : option Chapter) (st : State) :
  orderly st (afterStep chapter st).
Proof.
  unfold afterStep.
  eapply orderly_trans; [apply orderly_display|].
  eapply orderly_trans; [apply orderly_quiet, quiet_saveChapterPosition|].
  apply orderly_saveCurrentState.
Qed.

Lemma orderly_stepBack (size : Z) (st : State) : orderly st (stepBack size st).
Proof.
  unfold stepBack.
  destruct (currentChapter st), (current st); try apply orderly_refl.
  destruct (0 <? scrollOffset st); [|apply orderly_refl].
  eapply orderly_trans; [|apply orderly_afterStep].
  now apply orderly_host.
Qed.

Lemma orderly_stepForward (size : Z) (st : State) :
  orderly st (stepForward size st).
Proof.
  unfold stepForward.
  destruct (currentChapter st) as [i|], (current st) as [f|];
    try apply orderly_refl.
  destruct (chapterAt f i) as [ch|]; [|apply orderly_refl].
  destruct (scrollOffset st <? maxScrollOffsetOf ch); [|apply orderly_refl].
  eapply orderly_trans; [|apply orderly_afterStep].
  now apply orderly_host.
Qed.

Lemma orderly_sync (st st' : State) :
  _syncLastScrollPositionToStatusBar st = Some st' -> orderly st st'.
Proof.
  unfold _syncLastScrollPositionToStatusBar.
  destruct (current st) as [f|]; [|intros H; apply (inj Some) in H; subst; apply orderly_refl].
  destruct (currentChapter st) as [i|]; [|intros H; apply (inj Some) in H; subst; apply orderly_refl].
  destruct (chapterAt f i) as [ch|]; [|intros H; apply (inj Some) in H; subst; apply orderly_refl].
  destruct (committedOffset _ _ _) as [v|]; [|discriminate].
  intros H; apply (inj Some) in H; subst st'.
  eapply orderly_trans; [|apply orderly_setTimeout_redisplay].
  eapply orderly_trans; [|apply orderly_saveCurrentState].
  eapply orderly_trans;
    [|apply orderly_quiet, quiet_saveChapterPosition].
  eapply orderly_trans; [|apply orderly_display].
  now apply orderly_host.
Qed.

Lemma orderly_hide (st st' : State) : hide st = Some st' -> orderly st st'.
Proof.
  unfold hide. destruct (webviewPanel st); [|intros H; apply (inj Some) in H; subst; apply orderly_refl].
  destruct (_syncLastScrollPositionToStatusBar st) as [st1|] eqn:E1;
    [|discriminate]. simpl.
  unfold _onChapterPreviewDisposed.
  destruct (_syncLastScrollPositionToStatusBar st1) as [st2|] eqn:E2;
    [|discriminate]. simpl.
  intros H; apply (inj Some) in H; subst st'.
  eapply orderly_trans; [exact (orderly_sync _ _ E1)|].
  eapply orderly_trans; [exact (orderly_sync _ _ E2)|].
  now apply orderly_host.
Qed.

Lemma orderly_select (i : option Z) (st st' : State) :
  _selectChapter i st = Some st' -> orderly st st'.
Proof.
  unfold _selectChapter.
  destruct (current st) as [f|]; [|intros H; apply (inj Some) in H; subst; apply orderly_refl].
  destruct i as [idx|]; [|intros H; apply (inj Some) in H; subst; apply orderly_refl].
  destruct ((0 <=? idx) && (idx <? Z.of_nat (length (chapters f))));
    [|intros H; apply (inj Some) in H; subst; apply orderly_refl].
  set (st1 := match currentChapter st with
              | Some c =>
                if negb (c =? idx)
                then _saveChapterPosition (currentChapter st) (scrollOffset st) st
                else st
              | None => st
              end).
  assert (O1 : orderly st st1).
  { subst st1. destruct (currentChapter st) as [c|]; [|apply orderly_refl].
    destruct (negb (c =? idx)); [|apply orderly_refl].
    apply orderly_quiet, quiet_saveChapterPosition. }
  set (st2 := set_currentPage 0 (set_currentChapter (Some idx) st1)).
  set (st3 := set_scrollOffset (_getChapterPosition (Some idx) st2) st2).
  assert (O3 : orderly st st3).
  { eapply orderly_trans; [exact O1|]. now apply orderly_host. }
  set (st5 := _saveCurrentState (_displayChapterText (chapterAt f idx) st3)).
  assert (O5 : orderly st st5).
  { eapply orderly_trans; [exact O3|].
    eapply orderly_trans; [apply orderly_display|].
    apply orderly_saveCurrentState. }
  destruct (previewIsVisible st5); [|intros H; apply (inj Some) in H; subst st'; exact O5].
  destruct (hide st5) as [st6|] eqn:E6; [|discriminate]. simpl.
  pose proof (orderly_trans _ _ _ O5 (orderly_hide _ _ E6)) as O6.
  destruct (chapterAt f idx) as [ch|]; intros H; apply (inj Some) in H;
    subst st'; [|exact O6].
  eapply orderly_trans; [exact O6|]. apply orderly_setTimeout_redisplay.
Qed.

Lemma orderly_perform (c : Command) (st st' : State) :
  perform c st = Some st' -> orderly st st'.
Proof.
  destruct c; simpl; try (intros [= <-]).
  - apply orderly_stepBack.
  - apply orderly_stepForward.
  - apply orderly_stepBack.
  - apply orderly_stepForward.
  - apply orderly_select.
Qed.

Lemma DebounceInv_timers (st st' : State) :
  timers st' = timers st -> nextTimer st' = nextTimer st ->
  saveDebounceTimer st' = saveDebounceTimer st ->
  DebounceInv st -> DebounceInv st'.
Proof.
  intros Ht Hn Hs. unfold DebounceInv, pendingSaves. now rewrite Ht, Hn, Hs.
Qed.

Lemma DebounceInv_host (st st' : State) :
  host st' = host st -> DebounceInv st -> DebounceInv st'.
Proof.
  intros Hh. unfold host in Hh. injection Hh as Ht Hn Hs _ _ _.
  now apply DebounceInv_timers.
Qed.

Lemma DebounceInv_fireTimer (h : nat) (st : State) :
  DebounceInv st -> DebounceInv (fireTimer h st).
Proof.
  intros HD. unfold fireTimer.
  destruct (List.find _ (timers st)) as [t|]; [|exact HD].
  destruct (due t <=? now st); [|exact HD].
  apply (DebounceInv_clearTimeout h) in HD.
  destruct (callback t) as [|ch]; unfold runCallback.
  - revert HD. now apply DebounceInv_timers.
  - now apply orderly_display.
Qed.

Lemma DebounceInv_hide_if (st st' : State) :
  (if previewIsVisible st then hide st else Some st) = Some st' ->
  DebounceInv st -> DebounceInv st'.
Proof.
  destruct (previewIsVisible st).
  - intros H. now apply orderly_hide.
  - intros H. apply (inj Some) in H. now subst.
Qed.

Lemma host_restoreFileReadingPosition (file : File) (st : State) :
  host (_restoreFileReadingPosition file st) = host st.
Proof.
  unfold _restoreFileReadingPosition.
  destruct (lastChapter file) as [lc|]; [|reflexivity].
  now destruct (Z.of_nat (length (chapters file)) <=? lc).
Qed.

Lemma DebounceInv_restoreReadingState (st st' : State) :
  _restoreReadingState st = Some st' -> DebounceInv st -> DebounceInv st'.
Proof.
  unfold _restoreReadingState.
  assert (Hready : Some (set_statusBarText ready st) = Some st' ->
                   DebounceInv st -> DebounceInv st').
  { intros H. apply (inj Some) in H. subst st'. now apply DebounceInv_host. }
  destruct (storedCurrentFileId (storage st)) as [[|c cs]|]; try exact Hready.
  destruct (findIndex _ (files st)) as [r|]; [|exact Hready].
  destruct (files st !! r) as [file|]; [|exact Hready].
  destruct (status file); try exact Hready.
  intros H HD. apply (DebounceInv_hide_if _ _ H). clear H Hready.
  assert (H1 : DebounceInv
                 (_restoreFileReadingPosition file (set_currentFile (Some r) st))).
  { revert HD. apply DebounceInv_host.
    now rewrite host_restoreFileReadingPosition. }
  destruct (currentChapter _) as [i|], (chapters file) as [|ch0 chs];
    try (revert H1; now apply DebounceInv_host).
  now apply orderly_display.
Qed.

Lemma DebounceInv_finishRestore (disk : jsstring -> DiskEntry)
    (basename : jsstring -> jsstring) (st st' : State) :
  finishRestore disk basename st = Some st' ->
  DebounceInv st -> DebounceInv st'.
Proof.
  unfold finishRestore. intros H HD.
  destruct (default [] (storedFiles (storage st))) as [|sv svs].
  - destruct (if previewIsVisible (set_statusBarText ready st) then _ else _)
      as [st2|] eqn:E2; [|discriminate]. simpl in H.
    apply (inj Some) in H. subst st'.
    apply (DebounceInv_host st2); [reflexivity|].
    apply (DebounceInv_hide_if _ _ E2). revert HD. now apply DebounceInv_host.
  - destruct (_restoreReadingState _) as [st2|] eqn:E2; [|discriminate].
    simpl in H.
    destruct (if previewIsVisible st2 then _ else _) as [st3|] eqn:E3;
      [|discriminate]. simpl in H.
    apply (inj Some) in H. subst st'.
    apply (DebounceInv_host st3); [reflexivity|].
    apply (DebounceInv_hide_if _ _ E3).
    apply (DebounceInv_restoreReadingState _ _ E2).
    revert HD. now apply DebounceInv_host.
Qed.

Lemma DebounceInv_event (e : Event) (st st' : State) :
  handleEvent e st = Some st' -> DebounceInv st -> DebounceInv st'.
Proof.
  destruct e; simpl; intros H.
  - apply orderly_perform in H. apply H.
  - apply (inj Some) in H. subst st'. apply DebounceInv_fireTimer.
  - apply (inj Some) in H. subst st'. now apply DebounceInv_timers.
  - apply (inj Some) in H. subst st'. now apply DebounceInv_timers.
  - apply orderly_hide in H. apply H.
  - unfold _onChapterPreviewDisposed in H.
    destruct (_syncLastScrollPositionToStatusBar st) as [st1|] eqn:E;
      [|discriminate]. simpl in H.
    apply (inj Some) in H. subst st'. intros HD.
    apply (DebounceInv_timers st1); try reflexivity.
    now apply (orderly_sync st st1).
  - apply (inj Some) in H. subst st'. now apply DebounceInv_timers.
  - now apply DebounceInv_finishRestore with disk basename.
Qed.

Lemma DebounceInv_events (es : list Event) :
  forall st st', handleAll es st = Some st' -> DebounceInv st -> DebounceInv st'.
Proof.
  induction es as [|e es IH]; simpl; intros st st' H HD.
  - apply (inj Some) in H. now subst.
  - destruct (handleEvent e st) as [st1|] eqn:E; [|discriminate]. simpl in H.
    apply (IH _ _ H). now apply (DebounceInv_event e st).
Qed.


(** *** Startup restore *)


(** The branch for pasted documents copies the stored position. *)
Lemma restore_pasted_copies (disk : jsstring -> DiskEntry)
    (basename : jsstring -> jsstring) (clock : Z) (savedFile : SavedFile) :
  sv_type savedFile = Pasted ->
  let file := restoreFile disk basename clock savedFile in
  status file = Active
  /\ chapters file = _extractChaptersWithFallback (sv_fullText savedFile)
  /\ lastChapter file = sv_lastChapter savedFile
  /\ lastScrollOffset file = default 0 (sv_lastScrollOffset savedFile).
Proof. intros Hty. unfold restoreFile. rewrite Hty. now repeat split. Qed.

(** When a document becomes the current one, an index beyond its
    chapters puts the cursor at the start of the first chapter. *)
Lemma restore_position_resets (file : File) (st : State) (lc : Z) :
  lastChapter file = Some lc ->
  Z.of_nat (length (chapters file)) <= lc ->
  chapters file <> [] ->
  let st' := _restoreFileReadingPosition file st in
  currentChapter st' = Some 0 /\ scrollOffset st' = 0.
Proof.
  intros Hlc Hge Hne. unfold _restoreFileReadingPosition. rewrite Hlc.
  destruct (Z.leb_spec (Z.of_nat (length (chapters file))) lc); [|lia].
  destruct (chapters file); [congruence|]. now split.
Qed.

End ReaderFacts.

(** ** The outline of a segmented text *)

Module OutlineFacts.

Import JsStringFacts SegmenterFacts Outline.

Lemma scanLines_outline (lines : list jsstring) :
  forall i cur chs,
    map key (scanLines i lines cur chs)
    = map key chs ++ map key (opened cur) ++ headings i lines.
Proof.
  induction lines as [|raw rest IH]; intros i cur chs; simpl.
  - destruct cur; simpl; rewrite ?map_app, ?app_nil_r; reflexivity.
  - destruct (trim raw) as [|c line] eqn:E.
    + rewrite IH. reflexivity.
    + destruct (boundaryTitle (c :: line)) as [t|].
      * rewrite IH. destruct cur; simpl; rewrite ?map_app; simpl;
          rewrite <- ?app_assoc; reflexivity.
      * destruct cur as [ch|]; [|apply IH].
        destruct (5 <? length (c :: line))%nat; rewrite IH; reflexivity.
Qed.

Lemma headings_spec (lines : list jsstring) :
  forall i k t, (k, t) ∈ headings i lines ->
    (i <= k)%nat
    /\ exists raw, lines !! (k - i)%nat = Some raw
         /\ boundaryTitle (trim raw) = Some t.
Proof.
  induction lines as [|raw rest IH]; intros i k t H; simpl in H.
  - inversion H.
  - assert (Hrest : (k, t) ∈ headings (S i) rest ->
              (i <= k)%nat /\ exists raw0, (raw :: rest) !! (k - i)%nat = Some raw0
                /\ boundaryTitle (trim raw0) = Some t).
    { intros Hin. destruct (IH _ _ _ Hin) as [Hle (r & Hr & Hb)].
      split; [lia|]. exists r. split; [|exact Hb].
      replace (k - i)%nat with (S (k - S i)) by lia. exact Hr. }
    destruct (boundaryTitle (trim raw)) as [t0|] eqn:E; [|auto].
    apply elem_of_cons in H as [H|H]; [|auto].
    inversion H; subst. split; [lia|]. exists raw.
    rewrite Nat.sub_diag. auto.
Qed.

Lemma headings_increasing (lines : list jsstring) :
  forall i j k a b,
    headings i lines !! j = Some a -> headings i lines !! k = Some b ->
    (j < k)%nat -> (fst a < fst b)%nat.
Proof.
  induction lines as [|raw rest IH]; intros i j k a b Hj Hk Hlt; simpl in *.
  - discriminate.
  - destruct (boundaryTitle (trim raw)) as [t0|]; [|eauto].
    destruct k as [|k]; [lia|]. simpl in Hk.
    destruct j as [|j]; simpl in Hj.
    + inversion Hj; subst. destruct b as [kb tb].
      apply list_elem_of_lookup_2, headings_spec in Hk as [Hle _].
      simpl. lia.
    + apply (IH (S i) j k); [exact Hj|exact Hk|lia].
Qed.

Lemma headings_length (lines : list jsstring) :
  forall i, length (headings i lines) = length (List.filter heading lines).
Proof.
  induction lines as [|raw rest IH]; intros i; simpl; [reflexivity|].
  unfold heading at 1.
  destruct (boundaryTitle (trim raw)); simpl; rewrite IH; reflexivity.
Qed.

Lemma extract_outline (text : jsstring) :
  map key (_extractChapters text) = headings 0 (splitOn NL text).
Proof. unfold _extractChapters. rewrite scanLines_outline. reflexivity. Qed.

Lemma heading_not_blank (raw : jsstring) (t : jsstring) :
  boundaryTitle (trim raw) = Some t -> trim raw <> [].
Proof. intros H E. rewrite E in H. discriminate. Qed.

(** [X1] The segmenter opens exactly one chapter per heading: there are
    as many chapters as lines on which a boundary rule fires; every
    chapter starts at such a line, which is not blank, and carries the
    title that rule gives; and the chapters come in the order of their
    lines. *)
Theorem chapters_follow_headings (text : jsstring) :
  let lines := splitOn NL text in
  let chapters := _extractChapters text in
  length chapters = length (List.filter heading lines)
  /\ Forall (fun c => exists raw,
               lines !! startLine c = Some raw
               /\ trim raw <> []
               /\ boundaryTitle (trim raw) = Some (title c)) chapters
  /\ (forall j k c d,
        chapters !! j = Some c -> chapters !! k = Some d ->
        (j < k)%nat -> (startLine c < startLine d)%nat).
Proof.
  intros lines chapters.
  pose proof (extract_outline text) as Ho. fold lines chapters in Ho.
  split; [|split].
  - rewrite <- (length_map key), Ho. apply headings_length.
  - apply Forall_forall. intros c Hc.
    assert (Hk : key c ∈ headings 0 lines).
    { rewrite <- Ho. apply list_elem_of_fmap. eauto. }
    apply headings_spec in Hk as [_ (raw & Hr & Hb)].
    rewrite Nat.sub_0_r in Hr. exists raw.
    split; [exact Hr|]. split; [eapply heading_not_blank|]; exact Hb.
  - intros j k c d Hj Hk Hlt.
    apply (headings_increasing lines 0 j k (key c) (key d)); [| |exact Hlt];
      rewrite <- Ho, list_lookup_fmap; [rewrite Hj|rewrite Hk]; reflexivity.
Qed.

Lemma dropWhile_idem (p : char -> bool) (s : jsstring) :
  dropWhile p (dropWhile p s) = dropWhile p s.
Proof.
  induction s as [|c s IH]; simpl; [reflexivity|].
  destruct (p c) eqn:E; [exact IH|]. simpl. rewrite E. reflexivity.
Qed.

Lemma dropWhile_snoc (p : char -> bool) (s : jsstring) (c : char) :
  p c = false -> dropWhile p (s ++ [c]) = dropWhile p s ++ [c].
Proof.
  intros Hc. induction s as [|a s IH]; simpl; [rewrite Hc; reflexivity|].
  destruct (p a); [exact IH|reflexivity].
Qed.

Lemma trimStart_head (s : jsstring) :
  trimStart s = [] \/ exists c s', trimStart s = c :: s' /\ isWhiteSpace c = false.
Proof.
  unfold trimStart. induction s as [|c s IH]; simpl; [left; reflexivity|].
  destruct (isWhiteSpace c) eqn:E; [exact IH|]. right. eauto.
Qed.

Lemma trim_idem (s : jsstring) : trim (trim s) = trim s.
Proof.
  unfold trim.
  assert (Hstart : trimStart (trimEnd (trimStart s)) = trimEnd (trimStart s)).
  { destruct (trimStart_head s) as [->|(c & s' & -> & Hc)]; [reflexivity|].
    unfold trimEnd. simpl rev. rewrite (dropWhile_snoc _ _ _ Hc).
    rewrite rev_app_distr. simpl. unfold trimStart. simpl.
    rewrite Hc. reflexivity. }
  rewrite Hstart. unfold trimEnd. rewrite rev_involutive, dropWhile_idem.
  reflexivity.
Qed.

Lemma section_blank (raw : jsstring) (rest : list jsstring) :
  trim raw = [] -> body (raw :: rest) = body rest.
Proof.
  intros E. unfold body. simpl. unfold heading. rewrite E. simpl.
  rewrite E. reflexivity.
Qed.

Lemma scanLines_body (all : list jsstring) (lines : list jsstring) :
  let good c := content c = body (drop (S (startLine c)) all) in
  forall pre cur chs,
    all = pre ++ lines ->
    Forall good chs ->
    (forall ch, cur = Some ch ->
       content ch ++ body lines = body (drop (S (startLine ch)) all)) ->
    Forall good (scanLines (length pre) lines cur chs).
Proof.
  intros good. induction lines as [|raw rest IH]; intros pre cur chs Hall Hchs Hcur.
  - simpl. destruct cur as [ch|]; [|exact Hchs].
    apply Forall_app. split; [exact Hchs|]. constructor; [|constructor].
    unfold good. rewrite <- (Hcur ch eq_refl). unfold body. simpl.
    rewrite app_nil_r. reflexivity.
  - assert (Hall' : all = (pre ++ [raw]) ++ rest)
      by (rewrite <- app_assoc; exact Hall).
    assert (Hlen : length (pre ++ [raw]) = S (length pre))
      by (rewrite length_app; simpl; lia).
    specialize (IH (pre ++ [raw])). rewrite Hlen in IH.
    simpl. destruct (trim raw) as [|c line] eqn:E.
    + apply IH; [exact Hall'|exact Hchs|].
      intros ch Hch. rewrite <- (Hcur ch Hch), (section_blank _ _ E).
      reflexivity.
    + destruct (boundaryTitle (c :: line)) as [t|] eqn:B.
      * assert (Hhead : body (raw :: rest) = []).
        { unfold body. simpl. unfold heading. rewrite E, B. reflexivity. }
        apply IH; [exact Hall'| |].
        -- destruct cur as [ch|]; [|exact Hchs].
           apply Forall_app. split; [exact Hchs|]. constructor; [|constructor].
           unfold good. rewrite <- (Hcur ch eq_refl), Hhead, app_nil_r.
           reflexivity.
        -- intros ch [= <-]. simpl. rewrite Hall.
           replace (drop (S (length pre)) (pre ++ raw :: rest)) with rest;
             [reflexivity|].
           change (S (length pre)) with (1 + length pre)%nat.
           rewrite Nat.add_comm, <- drop_drop, drop_app_length. reflexivity.
      * assert (Hbody : body (raw :: rest)
                        = (if long (c :: line) then [c :: line] else [])
                            ++ body rest).
        { unfold body. simpl. unfold heading. rewrite E, B. simpl.
          rewrite E. destruct (long (c :: line)); reflexivity. }
        destruct cur as [ch|].
        -- unfold long in Hbody.
           destruct (5 <? length (c :: line))%nat eqn:L.
           ++ apply IH; [exact Hall'|exact Hchs|].
              intros ch' [= <-]. simpl.
              rewrite <- (Hcur ch eq_refl), Hbody, <- app_assoc. reflexivity.
           ++ apply IH; [exact Hall'|exact Hchs|].
              intros ch' [= <-]. rewrite <- (Hcur ch eq_refl), Hbody.
              reflexivity.
        -- apply IH; [exact Hall'|exact Hchs|]. intros ch' [=].
Qed.

(** [X2] The content of a chapter is what lies below its heading up to
    the next heading: those lines trimmed, the ones longer than five
    code units. *)
Theorem content_is_section_below_heading (text : jsstring) :
  let lines := splitOn NL text in
  Forall (fun c =>
            content c
            = List.filter long
                (map trim (section (drop (S (startLine c)) lines))))
    (_extractChapters text).
Proof.
  intros lines.
  apply (scanLines_body lines lines [] None []); [reflexivity|constructor|].
  intros ch [=].
Qed.

Lemma boundaryTitle_trimmed (line t : jsstring) :
  trim line = line -> boundaryTitle line = Some t -> trim t = t.
Proof.
  intros Hl. unfold boundaryTitle.
  destruct (firstPattern chapterPatterns line) as [t0|] eqn:F.
  - intros [= <-]. revert F. generalize chapterPatterns.
    induction l as [|p ps IH]; simpl; [discriminate|].
    destruct (matchAt p line) as [m|]; [|exact IH].
    intros [= <-]. unfold titleOfMatch. destruct m as [whole caps].
    apply trim_idem.
  - destruct (_ && _); [|discriminate].
    destruct (test capsLine line); [intros [= <-]; exact Hl|].
    destruct (test keywordLine _); [intros [= <-]; exact Hl|discriminate].
Qed.

(** [X3] A chapter title carries no white space at either end. *)
Theorem heading_titles_are_trimmed (text : jsstring) :
  Forall (fun c => trim (title c) = title c) (_extractChapters text).
Proof.
  apply Forall_forall. intros c Hc.
  assert (Hk : key c ∈ headings 0 (splitOn NL text)).
  { rewrite <- extract_outline. apply list_elem_of_fmap. eauto. }
  apply headings_spec in Hk as [_ (raw & _ & Hb)].
  exact (boundaryTitle_trimmed _ _ (trim_idem raw) Hb).
Qed.

(** ** The fallback *)

Lemma splitOn_blank_pieces (sep : char) (s : jsstring) :
  isWhiteSpace sep = true ->
  Forall (Forall (fun c => isWhiteSpace c = true)) (splitOn sep s) ->
  Forall (fun c => isWhiteSpace c = true) s.
Proof.
  intros Hsep. induction s as [|c s IH]; simpl; [constructor|].
  destruct (c =? sep)%N eqn:E.
  - apply N.eqb_eq in E. subst c. intros H. inversion H; subst.
    constructor; auto.
  - destruct (splitOn sep s) as [|l ls] eqn:S.
    + exfalso. exact (splitOn_not_nil _ _ S).
    + intros H. inversion H as [|? ? Hcl Hls]; subst.
      inversion Hcl; subst. constructor; [assumption|].
      apply IH. constructor; assumption.
Qed.

Lemma nonBlank_false (s : jsstring) :
  nonBlank s = false -> Forall (fun c => isWhiteSpace c = true) s.
Proof.
  unfold nonBlank. intros H. apply trim_nil_blank.
  destruct (trim s); [reflexivity|discriminate].
Qed.

Lemma nonBlank_true (s : jsstring) : nonBlank s = true <-> trim s <> [].
Proof.
  unfold nonBlank. destruct (trim s) as [|c l]; split; intros H.
  - discriminate H.
  - contradiction.
  - discriminate.
  - reflexivity.
Qed.

Lemma filter_nonBlank_nil (ls : list jsstring) :
  List.filter nonBlank ls = [] ->
  Forall (Forall (fun c => isWhiteSpace c = true)) ls.
Proof.
  induction ls as [|l ls IH]; simpl; [constructor|].
  destruct (nonBlank l) eqn:E; [discriminate|].
  intros H. constructor; [apply nonBlank_false, E|auto].
Qed.

Lemma nonBlank_lines (s : jsstring) :
  trim s <> [] -> List.filter nonBlank (splitOn NL s) <> [].
Proof.
  intros Hs E. apply Hs, trim_blank.
  apply (splitOn_blank_pieces NL); [reflexivity|].
  apply filter_nonBlank_nil, E.
Qed.

Lemma filter_nonBlank_all (ls : list jsstring) :
  Forall (fun l => trim l <> []) (List.filter nonBlank ls).
Proof.
  apply Forall_forall. intros l Hl.
  apply list_elem_of_In, filter_In in Hl as [_ Hl].
  apply nonBlank_true, Hl.
Qed.

Lemma length_substring_le (s : jsstring) (n : Z) :
  (0 <= n)%Z -> (Z.of_nat (length (substring s 0 n)) <= n)%Z.
Proof.
  intros Hn. unfold substring. rewrite length_take. lia.
Qed.

Lemma length_shortTitle (t : jsstring) : (length (shortTitle t) <= 13)%nat.
Proof.
  unfold shortTitle. rewrite length_app.
  pose proof (length_substring_le t 10 ltac:(lia)).
  destruct (10 <? length t)%nat; simpl; lia.
Qed.

Lemma length_orElse (x d : jsstring) (n : nat) :
  (length x <= n)%nat -> (length d <= n)%nat -> (length (orElse x d) <= n)%nat.
Proof. destruct x; simpl; auto. Qed.

Lemma fallbackShaped_short (t : jsstring) (ls : list jsstring) :
  fallbackShaped (mkChapter (orElse (shortTitle t) noTitle) 0 ls).
Proof.
  split; [reflexivity|]. split; simpl.
  - apply orElse_not_empty. discriminate.
  - apply length_orElse; [apply length_shortTitle|vm_compute; lia].
Qed.

Lemma fallbackShaped_sentinel : fallbackShaped (mkChapter emptyTitle 0 []).
Proof. split; [reflexivity|]. split; [discriminate|vm_compute; lia]. Qed.

(** [X4] Every chapter the fallback makes starts at line 0 and has a
    title that is not empty and at most 13 code units long. *)
Theorem fallback_chapters_shape (text : jsstring) :
  Forall (fun c => startLine c = 0%nat /\ title c <> []
                   /\ (length (title c) <= 13)%nat)
    (_createFallbackChapters text).
Proof.
  change (Forall fallbackShaped (_createFallbackChapters text)).
  unfold _createFallbackChapters.
  set (paragraphs := List.filter nonBlank (split blankLineGap text)).
  set (chapters := match paragraphs with [] => _ | _ :: _ => _ end).
  assert (H : Forall fallbackShaped chapters).
  { subst chapters. destruct paragraphs as [|p ps].
    - destruct (List.filter nonBlank (splitOn NL text)) as [|l ls].
      + destruct (collapseSpaces (trim text)) as [|c s] eqn:E.
        * constructor; [apply fallbackShaped_sentinel|constructor].
        * constructor; [|constructor]. split; [reflexivity|]. split; simpl.
          -- apply orElse_not_empty. discriminate.
          -- apply length_orElse; [|vm_compute; lia].
             pose proof (length_substring_le (c :: s) 10 ltac:(lia)). lia.
      + apply Forall_map, Forall_forall. intros x _.
        apply fallbackShaped_short.
    - apply Forall_concat, Forall_map, Forall_forall. intros x _.
      unfold paragraphChapter.
      destruct (List.filter nonBlank (splitOn NL x)); constructor;
        [apply fallbackShaped_short|constructor]. }
  destruct chapters; [|exact H].
  constructor; [apply fallbackShaped_sentinel|constructor].
Qed.

Lemma paragraphChapter_text (p : jsstring) :
  Forall hasText (paragraphChapter p).
Proof.
  unfold paragraphChapter.
  pose proof (filter_nonBlank_all (splitOn NL p)) as H.
  destruct (List.filter nonBlank (splitOn NL p)) as [|l ls]; constructor;
    [|constructor].
  split; [discriminate|exact H].
Qed.

Lemma paragraphChapter_not_nil (p : jsstring) :
  trim p <> [] -> paragraphChapter p <> [].
Proof.
  intros Hp. unfold paragraphChapter.
  pose proof (nonBlank_lines p Hp).
  destruct (List.filter nonBlank (splitOn NL p)); [contradiction|discriminate].
Qed.

(** [X5] Over a text that is not blank, every chapter the fallback makes
    has content, and no line of it is blank. *)
Theorem fallback_chapters_have_text (text : jsstring) :
  trim text <> [] ->
  Forall (fun c => content c <> [] /\ Forall (fun l => trim l <> []) (content c))
    (_createFallbackChapters text).
Proof.
  intros Ht. change (Forall hasText (_createFallbackChapters text)).
  unfold _createFallbackChapters.
  pose proof (filter_nonBlank_all (split blankLineGap text)) as Hps.
  destruct (List.filter nonBlank (split blankLineGap text)) as [|p ps].
  - pose proof (nonBlank_lines text Ht) as Hne.
    pose proof (filter_nonBlank_all (splitOn NL text)) as Hls.
    destruct (List.filter nonBlank (splitOn NL text)) as [|l ls];
      [contradiction|].
    simpl. inversion Hls; subst.
    constructor.
    + split; [discriminate|]. simpl. constructor; [|constructor].
      rewrite trim_idem. assumption.
    + apply Forall_map. eapply Forall_impl; [eassumption|].
      intros x Hx. split; [discriminate|]. simpl.
      constructor; [|constructor]. rewrite trim_idem. exact Hx.
  - inversion Hps; subst.
    assert (H : Forall hasText (concat (map paragraphChapter (p :: ps)))).
    { apply Forall_concat, Forall_map, Forall_forall. intros x _.
      apply paragraphChapter_text. }
    assert (Hne : concat (map paragraphChapter (p :: ps)) <> []).
    { simpl. pose proof (paragraphChapter_not_nil p ltac:(assumption)).
      destruct (paragraphChapter p); [contradiction|discriminate]. }
    destruct (concat (map paragraphChapter (p :: ps))); [contradiction|exact H].
Qed.

Lemma fallback_chapters_have_text_witness :
  Forall (fun c => content c <> [] /\ Forall (fun l => trim l <> []) (content c))
    (_createFallbackChapters (js "one

two")).
Proof.
  apply fallback_chapters_have_text. vm_compute. discriminate.
Defined.

Lemma earlier_open (lines : list jsstring) :
  forall i ch chs,
    Earlier.scanLines i lines (Some ch) chs = scanLines i lines (Some ch) chs.
Proof.
  induction lines as [|raw rest IH]; intros i ch chs; simpl; [reflexivity|].
  destruct (trim raw) as [|c line]; [apply IH|].
  destruct (boundaryTitle (c :: line)); [apply IH|].
  destruct (5 <? length (c :: line))%nat; apply IH.
Qed.

Lemma scan_inert (pre : list jsstring) :
  Forall (fun raw => inertLine raw = true) pre ->
  forall rest i,
    Earlier.scanLines i (pre ++ rest) None []
    = Earlier.scanLines (i + length pre) rest None []
    /\ scanLines i (pre ++ rest) None []
       = scanLines (i + length pre) rest None [].
Proof.
  induction 1 as [|raw pre Hraw _ IH]; intros rest i.
  - simpl. rewrite Nat.add_0_r. auto.
  - simpl app. cbn [Earlier.scanLines scanLines length].
    replace (i + S (length pre))%nat with (S i + length pre)%nat by lia.
    unfold inertLine, heading, long in Hraw.
    destruct (trim raw) as [|c line]; [apply IH|].
    destruct (boundaryTitle (c :: line)); [discriminate Hraw|].
    destruct (5 <? length (c :: line))%nat; [discriminate Hraw|].
    apply IH.
Qed.

(** [X6] When the first heading of a text is preceded only by lines that
    are no headings and, trimmed, at most five code units long, the
    earlier segmenter, the later one, and the later one with its
    fallback return the same chapters. *)
Theorem evolutions_agree_below_first_heading (text : jsstring)
    (pre : list jsstring) (first : jsstring) (rest : list jsstring) :
  splitOn NL text = pre ++ first :: rest ->
  Forall (fun raw => inertLine raw = true) pre ->
  heading first = true ->
  Earlier._extractChapters text = _extractChapters text
  /\ _extractChaptersWithFallback text = _extractChapters text.
Proof.
  intros Hsplit Hpre Hfirst.
  assert (Hscan : Earlier.scanLines 0 (splitOn NL text) None []
                  = scanLines 0 (splitOn NL text) None []).
  { rewrite Hsplit. destruct (scan_inert pre Hpre (first :: rest) 0) as [-> ->].
    unfold heading in Hfirst. simpl.
    destruct (trim first) as [|c line] eqn:E; [discriminate|].
    destruct (boundaryTitle (c :: line)); [|discriminate].
    apply earlier_open. }
  assert (Hne : _extractChapters text <> []).
  { pose proof (f_equal length (extract_outline text)) as Hlen.
    rewrite length_map, headings_length in Hlen.
    rewrite Hsplit, List.filter_app in Hlen. simpl in Hlen. rewrite Hfirst in Hlen.
    rewrite length_app in Hlen. simpl in Hlen.
    destruct (_extractChapters text); [simpl in Hlen; lia|discriminate]. }
  split.
  - unfold Earlier._extractChapters. rewrite Hscan.
    fold (_extractChapters text).
    destruct (_extractChapters text); [contradiction|reflexivity].
  - unfold _extractChaptersWithFallback.
    destruct (_extractChapters text); [contradiction|reflexivity].
Qed.

Lemma evolutions_agree_below_first_heading_witness :
  let text := js "intro
Chapter 1 The Start
the first lines of the story" in
  Earlier._extractChapters text = _extractChapters text
  /\ _extractChaptersWithFallback text = _extractChapters text.
Proof.
  apply (evolutions_agree_below_first_heading _ [js "intro"]
           (js "Chapter 1 The Start") [js "the first lines of the story"]).
  - reflexivity.
  - repeat constructor.
  - reflexivity.
Defined.

Lemma numbered_not_nil (ps : list jsstring) (p : jsstring) (i : nat) :
  trim p <> [] -> Earlier.numbered i (p :: ps) <> [].
Proof.
  intros Hp. simpl. pose proof (nonBlank_lines p Hp).
  destruct (List.filter nonBlank (splitOn NL p)); [contradiction|discriminate].
Qed.

(** [X7] The earlier segmenter never returns an empty list of chapters. *)
Theorem earlier_never_empty (text : jsstring) :
  Earlier._extractChapters text <> [].
Proof.
  unfold Earlier._extractChapters.
  destruct (Earlier.scanLines 0 (splitOn NL text) None []); [|discriminate].
  pose proof (filter_nonBlank_all (Regex.split blankLineGap text)) as H.
  destruct (List.filter nonBlank (Regex.split blankLineGap text))
    as [|p [|q ps]]; [discriminate|discriminate|].
  apply Forall_cons in H as [Hp _]. apply numbered_not_nil, Hp.
Qed.

End OutlineFacts.

(** ** Cursor commands composed *)

Module CursorFacts.

Import Reader JsStringFacts SegmenterFacts ReaderFacts.
Local Open Scope Z_scope.

Lemma inRange_unloaded (st : State) :
  inRange st -> loaded st = None ->
  currentChapter st = None \/ current st = None.
Proof. unfold inRange. intros H E. rewrite E in H. exact H. Qed.

Lemma inRange_loaded (st : State) (ch : Chapter) :
  inRange st -> loaded st = Some ch ->
  0 <= scrollOffset st <= maxScrollOffsetOf ch.
Proof. unfold inRange. intros H E. rewrite E in H. exact H. Qed.

Lemma iter_unloaded (f : State -> State) (st : State) (n : nat) :
  f st = st -> Nat.iter n f st = st.
Proof. intros H. induction n; simpl; [reflexivity|]. rewrite IHn. exact H. Qed.

Lemma iter_stepForward (size : Z) (ch : Chapter) (n : nat) :
  0 <= size ->
  forall st, Inv st -> loaded st = Some ch ->
    let st' := Nat.iter n (stepForward size) st in
    Inv st' /\ view st' = view st
    /\ scrollOffset st'
       = clamp (scrollOffset st + Z.of_nat n * size) 0 (maxScrollOffsetOf ch).
Proof.
  intros Hs st HI Hl. induction n as [|n IH].
  - simpl. split; [exact HI|]. split; [reflexivity|].
    destruct HI as (_ & _ & Hr). apply (inRange_loaded _ ch) in Hr; [|exact Hl].
    unfold clamp. lia.
  - cbv zeta in IH |- *. rewrite Nat.iter_succ. destruct IH as (HI' & Hv & Ho).
    set (st1 := Nat.iter n (stepForward size) st) in *.
    assert (Hl1 : loaded st1 = Some ch) by (rewrite (view_loaded _ _ Hv); exact Hl).
    destruct HI' as (Hvis & Hfin & Hr).
    destruct (stepForward_spec size st1 ch Hvis Hl1) as [Hv2 _].
    split; [apply Inv_stepForward; repeat split; assumption|].
    split; [rewrite Hv2; exact Hv|].
    rewrite (stepForward_clamp size st1 ch Hs); [|repeat split; assumption|exact Hl1].
    assert (Hn : 0 <= Z.of_nat n * size) by (apply Z.mul_nonneg_nonneg; lia).
    destruct HI as (_ & _ & Hr0).
    apply (inRange_loaded _ ch) in Hr0; [|exact Hl].
    rewrite Ho, Nat2Z.inj_succ, Z.mul_succ_l. unfold clamp. lia.
Qed.

Lemma iter_stepBack (size : Z) (ch : Chapter) (n : nat) :
  0 <= size ->
  forall st, Inv st -> loaded st = Some ch ->
    let st' := Nat.iter n (stepBack size) st in
    Inv st' /\ view st' = view st
    /\ scrollOffset st'
       = clamp (scrollOffset st - Z.of_nat n * size) 0 (maxScrollOffsetOf ch).
Proof.
  intros Hs st HI Hl. induction n as [|n IH].
  - simpl. split; [exact HI|]. split; [reflexivity|].
    destruct HI as (_ & _ & Hr). apply (inRange_loaded _ ch) in Hr; [|exact Hl].
    unfold clamp. lia.
  - cbv zeta in IH |- *. rewrite Nat.iter_succ. destruct IH as (HI' & Hv & Ho).
    set (st1 := Nat.iter n (stepBack size) st) in *.
    assert (Hl1 : loaded st1 = Some ch) by (rewrite (view_loaded _ _ Hv); exact Hl).
    destruct HI' as (Hvis & Hfin & Hr).
    destruct (stepBack_spec size st1 ch Hvis Hl1) as [Hv2 _].
    split; [apply Inv_stepBack; repeat split; assumption|].
    split; [rewrite Hv2; exact Hv|].
    rewrite (stepBack_clamp size st1 ch Hs); [|repeat split; assumption|exact Hl1].
    assert (Hn : 0 <= Z.of_nat n * size) by (apply Z.mul_nonneg_nonneg; lia).
    destruct HI as (_ & _ & Hr0).
    apply (inRange_loaded _ ch) in Hr0; [|exact Hl].
    rewrite Ho, Nat2Z.inj_succ, Z.mul_succ_l. unfold clamp. lia.
Qed.

(** [X8] Eight fine steps to the right leave the cursor where one page
    jump forward does, and eight to the left where one page jump back
    does. *)
Theorem eight_steps_make_a_page (st : State) :
  Inv st ->
  scrollOffset (Nat.iter 8 _scrollRight st) = scrollOffset (_nextPage st)
  /\ scrollOffset (Nat.iter 8 _scrollLeft st) = scrollOffset (_previousPage st).
Proof.
  intros HI. destruct (loaded st) as [ch|] eqn:Hl.
  - unfold _scrollRight, _scrollLeft, _nextPage, _previousPage.
    destruct (iter_stepForward scrollStep ch 8 ltac:(unfold scrollStep; lia) st HI Hl)
      as (_ & _ & ->).
    destruct (iter_stepBack scrollStep ch 8 ltac:(unfold scrollStep; lia) st HI Hl)
      as (_ & _ & ->).
    rewrite (stepForward_clamp jumpSize st ch), (stepBack_clamp jumpSize st ch);
      try assumption; try (unfold jumpSize; lia).
    split; reflexivity.
  - destruct HI as (_ & _ & Hr). apply inRange_unloaded in Hr; [|exact Hl].
    unfold _scrollRight, _scrollLeft, _nextPage, _previousPage.
    destruct (step_unloaded scrollStep st Hr) as [Hf Hb].
    destruct (step_unloaded jumpSize st Hr) as [Hf' Hb'].
    rewrite (iter_unloaded _ _ _ Hf), (iter_unloaded _ _ _ Hb), Hf', Hb'.
    split; reflexivity.
Qed.

Lemma eight_steps_make_a_page_witness :
  scrollOffset (Nat.iter 8 _scrollRight (Samples.reading ∅))
  = scrollOffset (_nextPage (Samples.reading ∅))
  /\ scrollOffset (Nat.iter 8 _scrollLeft (Samples.reading ∅))
     = scrollOffset (_previousPage (Samples.reading ∅)).
Proof.
  apply eight_steps_make_a_page.
  split; [reflexivity|]. split; [reflexivity|].
  unfold inRange. vm_compute. split; discriminate.
Defined.

(** [X9] A step forward that stays inside the chapter, followed by the
    same step back, returns the cursor to where it was; so does a step
    back that stays inside the chapter followed by the same step
    forward. *)
Theorem forward_then_back_returns (st : State) (ch : Chapter) (size : Z) :
  Inv st -> loaded st = Some ch -> 0 <= size ->
  (scrollOffset st + size <= maxScrollOffsetOf ch ->
   scrollOffset (stepBack size (stepForward size st)) = scrollOffset st)
  /\ (size <= scrollOffset st ->
      scrollOffset (stepForward size (stepBack size st)) = scrollOffset st).
Proof.
  intros HI Hl Hs.
  pose proof HI as (Hvis & _ & Hr).
  apply (inRange_loaded _ ch) in Hr; [|exact Hl].
  destruct (stepForward_spec size st ch Hvis Hl) as [Hv1 _].
  destruct (stepBack_spec size st ch Hvis Hl) as [Hv2 _].
  split; intros Hroom.
  - rewrite (stepBack_clamp size _ ch Hs);
      [|apply Inv_stepForward, HI|rewrite (view_loaded _ _ Hv1); exact Hl].
    rewrite (stepForward_clamp size st ch Hs HI Hl). unfold clamp. lia.
  - rewrite (stepForward_clamp size _ ch Hs);
      [|apply Inv_stepBack, HI|rewrite (view_loaded _ _ Hv2); exact Hl].
    rewrite (stepBack_clamp size st ch Hs HI Hl). unfold clamp. lia.
Qed.

Lemma forward_then_back_returns_witness :
  scrollOffset (_scrollLeft (_scrollRight (Samples.reading ∅))) = 450
  /\ scrollOffset (_scrollRight (_scrollLeft (Samples.reading ∅))) = 450.
Proof.
  assert (HI : Inv (Samples.reading ∅)).
  { split; [reflexivity|]. split; [reflexivity|].
    unfold inRange. vm_compute. split; discriminate. }
  destruct (forward_then_back_returns (Samples.reading ∅) Samples.longChapter
              scrollStep HI eq_refl) as [H1 H2].
  - vm_compute. discriminate.
  - split; [apply H1|apply H2]; vm_compute; discriminate.
Defined.

Lemma current_of_loaded (st : State) (ch : Chapter) :
  loaded st = Some ch ->
  exists f i, current st = Some f /\ currentChapter st = Some i
    /\ chapterAt f i = Some ch.
Proof.
  rewrite loaded_current.
  destruct (current st) as [f|]; [|discriminate].
  destruct (currentChapter st) as [i|]; [|discriminate]. eauto.
Qed.

Lemma positions_afterStep (ch : Chapter) (st : State) (f : File) (i : Z) :
  current st = Some f -> currentChapter st = Some i ->
  positions (afterStep (Some ch) st)
  = <[i := scrollOffset (afterStep (Some ch) st)]> (positions st).
Proof.
  intros Hf Hi. destruct (afterStep_spec (Some ch) st) as [_ Ho]. rewrite Ho.
  unfold afterStep. rewrite positions_saveCurrentState.
  destruct (view_display (Some ch) st) as [Hv _].
  rewrite (chapter_view _ _ Hv), Hi.
  destruct (base_current st (_displayChapterText (Some ch) st) f
              (view_base _ _ Hv) Hf) as (f' & Hf' & _).
  rewrite (positions_saveChapterPosition _ _ _ f' Hf'), positions_display.
  reflexivity.
Qed.

(** [X10] A stepping command over the chapter under the cursor either
    changes nothing, or records the offset it arrives at as that
    chapter's entry of the document's map and leaves the other entries
    alone. *)
Theorem step_records_position (c : Command) (d : Z) (st st' : State)
    (ch : Chapter) (i : Z) :
  loaded st = Some ch -> currentChapter st = Some i ->
  delta c = Some d -> perform c st = Some st' ->
  st' = st
  \/ positions st' = <[i := scrollOffset st']> (positions st).
Proof.
  intros Hl Hi Hd Hp.
  destruct (current_of_loaded st ch Hl) as (f & i' & Hf & Hi' & Hch).
  assert (i' = i) by congruence. subst i'.
  assert (Hback : forall size,
            stepBack size st = st
            \/ positions (stepBack size st)
               = <[i := scrollOffset (stepBack size st)]> (positions st)).
  { intros size. unfold stepBack. rewrite Hi, Hf, Hch.
    destruct (0 <? scrollOffset st); [right|left; reflexivity].
    rewrite (positions_afterStep ch _ f i); [reflexivity|exact Hf|exact Hi]. }
  assert (Hfwd : forall size,
            stepForward size st = st
            \/ positions (stepForward size st)
               = <[i := scrollOffset (stepForward size st)]> (positions st)).
  { intros size. unfold stepForward. rewrite Hi, Hf, Hch.
    destruct (scrollOffset st <? maxScrollOffsetOf ch); [right|left; reflexivity].
    rewrite (positions_afterStep ch _ f i); [reflexivity|exact Hf|exact Hi]. }
  destruct c; simpl in Hd, Hp; try discriminate;
    apply (inj Some) in Hp; subst st'.
  - apply Hback.
  - apply Hfwd.
  - apply Hback.
  - apply Hfwd.
Qed.

Lemma step_records_position_witness :
  _nextPage (Samples.reading ∅) = Samples.reading ∅
  \/ positions (_nextPage (Samples.reading ∅))
     = <[0 := scrollOffset (_nextPage (Samples.reading ∅))]>
         (positions (Samples.reading ∅)).
Proof.
  apply (step_records_position NextPage jumpSize _ _ Samples.longChapter 0);
    reflexivity.
Defined.

Lemma preview_view (st st' : State) :
  view st' = view st -> preview st' = preview st.
Proof. intros H. exact (f_equal snd H). Qed.

Lemma previewIsVisible_preview (st st' : State) :
  preview st' = preview st -> previewIsVisible st' = previewIsVisible st.
Proof.
  unfold preview, previewIsVisible. intros H.
  pose proof (f_equal (fun v => fst (fst (fst v))) H) as H1.
  pose proof (f_equal (fun v => snd (fst (fst v))) H) as H2.
  simpl in H1, H2. rewrite H1, H2. reflexivity.
Qed.

Lemma select_closed_preview (i : option Z) (st st' : State) :
  previewIsVisible st = false -> _selectChapter i st = Some st' ->
  preview st' = preview st.
Proof.
  intros Hc. unfold _selectChapter.
  destruct (current st) as [f|]; [|intros [= <-]; reflexivity].
  destruct i as [idx|]; [|intros [= <-]; reflexivity].
  destruct (_ && _); [|intros [= <-]; reflexivity].
  set (st1 := match currentChapter st with Some c => _ | None => st end).
  assert (H1 : preview st1 = preview st).
  { subst st1. destruct (currentChapter st) as [c|]; [|reflexivity].
    destruct (negb (c =? idx)); [|reflexivity].
    apply preview_view. apply quiet_saveChapterPosition. }
  set (st3 := set_scrollOffset _ _).
  assert (H3 : preview st3 = preview st) by (rewrite <- H1; reflexivity).
  set (st4 := _displayChapterText _ st3).
  assert (H4 : preview st4 = preview st).
  { rewrite <- H3. apply preview_view. apply view_display. }
  set (st5 := _saveCurrentState st4).
  assert (H5 : preview st5 = preview st).
  { rewrite <- H4. apply preview_view. apply view_saveCurrentState. }
  rewrite (previewIsVisible_preview _ _ H5), Hc. intros [= <-]. exact H5.
Qed.

(** [X11] With the preview closed, selecting another chapter and then
    the first one again brings the cursor back to the chapter and the
    offset it had. *)
Theorem chapter_switch_round_trip (st : State) (f : File) (ch : Chapter)
    (i j : Z) :
  Inv st -> previewIsVisible st = false ->
  current st = Some f -> currentChapter st = Some i -> loaded st = Some ch ->
  0 <= j < Z.of_nat (length (chapters f)) -> j <> i ->
  exists st1 st2,
    _selectChapter (Some j) st = Some st1
    /\ currentChapter st1 = Some j
    /\ _selectChapter (Some i) st1 = Some st2
    /\ currentChapter st2 = Some i
    /\ loaded st2 = Some ch
    /\ scrollOffset st2 = scrollOffset st.
Proof.
  intros HI Hc Hf Hi Hl Hj Hji.
  pose proof HI as (Hvis & Hfin & Hr).
  apply (inRange_loaded _ ch) in Hr; [|exact Hl].
  assert (Hch : chapterAt f i = Some ch).
  { rewrite loaded_current, Hf, Hi in Hl. exact Hl. }
  assert (Hirange : 0 <= i < Z.of_nat (length (chapters f))).
  { unfold chapterAt in Hch. destruct (0 <=? i) eqn:E; [|discriminate].
    apply lookup_lt_Some in Hch. lia. }
  destruct (select_in_range st f j Hf Hj Hvis) as
    (st1 & chj & Hs1 & Hb1 & Hc1 & _ & _ & _ & Hpos1).
  { rewrite Hc. discriminate. }
  destruct (Hpos1 Hc) as [_ Hp1]. rewrite Hi in Hp1.
  assert (E : (i =? j) = false) by (apply Z.eqb_neq; congruence).
  rewrite E in Hp1.
  pose proof (select_closed_preview _ _ _ Hc Hs1) as Hpv1.
  assert (Hc1' : previewIsVisible st1 = false)
    by (rewrite (previewIsVisible_preview _ _ Hpv1); exact Hc).
  destruct (base_current st st1 f Hb1 Hf) as (f1 & Hf1 & Hchs1).
  assert (Hvis1 : statusBarVisible st1 = true).
  { pose proof (f_equal (fun v => fst (fst (fst v))) Hb1) as H. simpl in H.
    rewrite H. exact Hvis. }
  destruct (select_in_range st1 f1 i Hf1) as
    (st2 & chi & Hs2 & Hb2 & Hc2 & Hn2 & _ & _ & Hpos2);
    [rewrite Hchs1; exact Hirange|exact Hvis1|rewrite Hc1'; discriminate|].
  destruct (Hpos2 Hc1') as [Ho2 _].
  rewrite Hp1, lookup_insert_eq in Ho2. simpl in Ho2.
  assert (chi = ch).
  { rewrite Hchs1 in Hn2. unfold nthChapter in Hn2. unfold chapterAt in Hch.
    congruence. }
  subst chi.
  exists st1, st2. split; [exact Hs1|]. split; [exact Hc1|].
  split; [exact Hs2|]. split; [exact Hc2|]. split.
  - destruct (base_current st1 st2 f1 Hb2 Hf1) as (f2 & Hf2 & Hchs2).
    rewrite loaded_current, Hf2, Hc2. unfold chapterAt in *.
    rewrite Hchs2, Hchs1. exact Hch.
  - rewrite Ho2. apply clampOffset_id. exact Hr.
Qed.

Lemma chapter_switch_round_trip_witness :
  exists st1 st2,
    _selectChapter (Some 1) (Samples.reading ∅) = Some st1
    /\ currentChapter st1 = Some 1
    /\ _selectChapter (Some 0) st1 = Some st2
    /\ currentChapter st2 = Some 0
    /\ loaded st2 = Some Samples.longChapter
    /\ scrollOffset st2 = 450.
Proof.
  apply (chapter_switch_round_trip (Samples.reading ∅) (Samples.story ∅)
           Samples.longChapter 0 1); try reflexivity.
  - split; [reflexivity|]. split; [reflexivity|].
    unfold inRange. vm_compute. split; discriminate.
  - vm_compute. split; [discriminate|reflexivity].
  - discriminate.
Defined.

End CursorFacts.

(** ** The library *)

Module LibraryFacts.

Import Reader JsStringFacts SegmenterFacts ReaderFacts CursorFacts Library.
Local Open Scope Z_scope.

Lemma findIndex_Some (p : File -> bool) (fs : list File) (r : nat) :
  findIndex p fs = Some r ->
  exists f, fs !! r = Some f /\ p f = true
    /\ forall k g, (k < r)%nat -> fs !! k = Some g -> p g = false.
Proof.
  revert r. induction fs as [|f fs IH]; intros r; simpl; [discriminate|].
  destruct (p f) eqn:E.
  - intros [= <-]. exists f. split; [reflexivity|]. split; [exact E|].
    intros k g Hk. lia.
  - destruct (findIndex p fs) as [r'|]; [|discriminate].
    intros [= <-]. destruct (IH r' eq_refl) as (g & Hg & Hp & Hfirst).
    exists g. split; [exact Hg|]. split; [exact Hp|].
    intros k h Hk Hh. destruct k as [|k]; simpl in Hh.
    + congruence.
    + apply (Hfirst k); [lia|exact Hh].
Qed.

Lemma findIndex_map (p : File -> bool) (fs fs' : list File) :
  map p fs' = map p fs -> findIndex p fs' = findIndex p fs.
Proof.
  revert fs'. induction fs as [|f fs IH]; intros [|f' fs']; simpl;
    try discriminate; [reflexivity|].
  intros [= -> H]. rewrite (IH _ H). reflexivity.
Qed.

Lemma updateFirst_at (p : File -> bool) (g : File -> File) (fs : list File)
    (r : nat) (f : File) :
  findIndex p fs = Some r -> fs !! r = Some f ->
  updateFirst p g fs = <[r := g f]> fs.
Proof.
  revert r. induction fs as [|h fs IH]; intros r; simpl; [discriminate|].
  destruct (p h).
  - intros [= <-] [= <-]. reflexivity.
  - destruct (findIndex p fs) as [r'|]; [|discriminate].
    intros [= <-] Hf. simpl in Hf. simpl. rewrite (IH r' eq_refl Hf).
    reflexivity.
Qed.

Lemma Forall_updateFirst (P : File -> Prop) (p : File -> bool)
    (g : File -> File) (fs : list File) :
  (forall f, P f -> P (g f)) -> Forall P fs -> Forall P (updateFirst p g fs).
Proof.
  intros Hg. induction 1 as [|f fs Hf Hfs IH]; simpl; [constructor|].
  destruct (p f); constructor; auto.
Qed.

Lemma sameId_true (a b : jsstring) : sameId a b = true <-> a = b.
Proof. unfold sameId. apply bool_decide_eq_true. Qed.

Lemma sameId_false (a b : jsstring) : sameId a b = false <-> a <> b.
Proof. unfold sameId. apply bool_decide_eq_false. Qed.

(** *** The files through the helpers *)

Lemma files_display (chapter : option Chapter) (st : State) :
  files (_displayChapterText chapter st) = files st.
Proof.
  unfold _displayChapterText. destruct chapter; [|reflexivity].
  destruct (statusBarVisible st); reflexivity.
Qed.

Lemma files_saveCurrentState (st : State) :
  files (_saveCurrentState st)
  = if isRestoring st then files st
    else match current st with
         | Some f => files (_saveFileReadingPosition (id f) st)
         | None => files st
         end.
Proof.
  unfold _saveCurrentState. destruct (isRestoring st); [reflexivity|].
  destruct (current st) as [f|];
    match goal with
    | |- context [saveDebounceTimer ?s] => destruct (saveDebounceTimer s)
    end; reflexivity.
Qed.

Lemma library_saveFileReadingPosition (fileId : jsstring) (st : State) :
  library (_saveFileReadingPosition fileId st) = library st.
Proof.
  unfold _saveFileReadingPosition, library. destruct fileId; [reflexivity|].
  simpl. apply map_updateFirst. reflexivity.
Qed.

Lemma map_insert_same {B} (proj : File -> B) (fs : list File) (r : nat)
    (f f' : File) :
  fs !! r = Some f -> proj f' = proj f ->
  map proj (<[r := f']> fs) = map proj fs.
Proof.
  intros Hf Hp. rewrite list_fmap_insert, Hp.
  apply list_insert_id. rewrite list_lookup_fmap, Hf. reflexivity.
Qed.

Lemma library_saveChapterPosition (i : option Z) (off : Z) (st : State) :
  library (_saveChapterPosition i off st) = library st
  /\ map lastChapter (files (_saveChapterPosition i off st))
     = map lastChapter (files st).
Proof.
  unfold _saveChapterPosition, current, library.
  destruct (currentFile st) as [r|] eqn:Hr; [|auto].
  destruct (files st !! r) as [f|] eqn:Hf; [|auto].
  destruct i as [i|]; [|auto]. simpl.
  split; apply (map_insert_same _ _ _ f); auto.
Qed.

Lemma library_saveCurrentState (st : State) :
  library (_saveCurrentState st) = library st.
Proof.
  unfold library. rewrite files_saveCurrentState.
  destruct (isRestoring st); [reflexivity|].
  destruct (current st); [apply library_saveFileReadingPosition|reflexivity].
Qed.

Lemma lookup_updateFirst_ne (p : File -> bool) (g : File -> File)
    (fs : list File) (r : nat) (f : File) :
  fs !! r = Some f -> p f = false -> updateFirst p g fs !! r = Some f.
Proof.
  revert r. induction fs as [|h fs IH]; intros r Hr Hp; [discriminate|].
  simpl. destruct r as [|r]; simpl in Hr.
  - inversion Hr; subst. rewrite Hp. reflexivity.
  - destruct (p h); simpl; [exact Hr|]. apply IH; assumption.
Qed.

Lemma findIndex_library (st st' : State) (x : jsstring) :
  library st' = library st ->
  findIndex (fun f => sameId (id f) x) (files st')
  = findIndex (fun f => sameId (id f) x) (files st).
Proof.
  intros H. apply findIndex_map.
  pose proof (f_equal (map (fun t => sameId (fst (fst (fst (fst (fst (fst (fst t))))))) x)) H)
    as H'.
  unfold library in H'. rewrite <- !list_fmap_compose in H'. exact H'.
Qed.

Lemma library_lookup (st st' : State) (r : nat) (f : File) :
  library st' = library st -> files st !! r = Some f ->
  exists f', files st' !! r = Some f' /\ fixedPart f' = fixedPart f.
Proof.
  intros H Hf. pose proof (f_equal (fun l => l !! r) H) as Hr.
  unfold library in Hr. simpl in Hr. rewrite !list_lookup_fmap, Hf in Hr.
  destruct (files st' !! r) as [f'|]; [|discriminate].
  exists f'. split; [reflexivity|].
  exact (f_equal (default (fixedPart f)) Hr).
Qed.

Lemma leave_quiet (fileId : jsstring) (st : State) : quiet st (leave fileId st).
Proof.
  unfold leave. destruct (current st) as [cf|]; [|apply quiet_refl].
  destruct (negb _); [apply quiet_saveFileReadingPosition|apply quiet_refl].
Qed.

Lemma leave_library (fileId : jsstring) (st : State) :
  library (leave fileId st) = library st.
Proof.
  unfold leave. destruct (current st) as [cf|]; [|reflexivity].
  destruct (negb _); [apply library_saveFileReadingPosition|reflexivity].
Qed.

Lemma leave_lookup (fileId : jsstring) (st : State) (r : nat) (f : File) :
  files st !! r = Some f -> id f = fileId ->
  files (leave fileId st) !! r = Some f.
Proof.
  intros Hf Hid. unfold leave. destruct (current st) as [cf|]; [|exact Hf].
  destruct (sameId (id cf) fileId) eqn:E; simpl; [exact Hf|].
  unfold _saveFileReadingPosition. destruct (id cf) eqn:Ec; [exact Hf|].
  simpl. apply lookup_updateFirst_ne; [exact Hf|].
  apply sameId_false. apply sameId_false in E. congruence.
Qed.

Lemma select_found (fileId : jsstring) (st : State) (r : nat) (f : File) :
  findIndex (fun f => sameId (id f) fileId) (files st) = Some r ->
  files st !! r = Some f ->
  _selectFileFromList fileId st
  = match status f with
    | Active => enter r f (leave fileId st)
    | Missing | Error => Some st
    end.
Proof.
  intros Hr Hf. unfold _selectFileFromList. rewrite Hr, Hf.
  destruct (status f); try reflexivity.
  fold (leave fileId st).
  destruct (findIndex_Some _ _ _ Hr) as (f' & Hf' & Hid & _).
  assert (f' = f) by congruence. subst f'. apply sameId_true in Hid.
  unfold current at 1. cbn [currentFile set_currentFile files].
  rewrite (leave_lookup fileId st r f Hf Hid). reflexivity.
Qed.

Lemma select_absent (fileId : jsstring) (st : State) :
  findIndex (fun f => sameId (id f) fileId) (files st) = None ->
  _selectFileFromList fileId st = Some st.
Proof. intros H. unfold _selectFileFromList. rewrite H. reflexivity. Qed.

Lemma lookup_saveCurrentState_other (st : State) (f A : File) (a : nat) :
  current st = Some f -> files st !! a = Some A -> id A <> id f ->
  files (_saveCurrentState st) !! a = Some A.
Proof.
  intros Hf HA Hid. rewrite files_saveCurrentState, Hf.
  destruct (isRestoring st); [exact HA|].
  unfold _saveFileReadingPosition. destruct (id f) eqn:E; [exact HA|].
  simpl. apply lookup_updateFirst_ne; [exact HA|].
  apply sameId_false. exact Hid.
Qed.

Lemma restore_landing (file : File) (st : State) :
  let st' := _restoreFileReadingPosition file st in
  currentChapter st' = fst (landing file)
  /\ scrollOffset st' = snd (landing file)
  /\ files st' = files st /\ currentFile st' = currentFile st
  /\ preview st' = preview st /\ host st' = host st
  /\ statusBarVisible st' = statusBarVisible st
  /\ isRestoring st' = isRestoring st.
Proof.
  unfold _restoreFileReadingPosition, landing.
  destruct (lastChapter file) as [lc|]; [destruct (_ <=? lc)|];
    repeat split; reflexivity.
Qed.

Lemma landing_chapter (file : File) (c : Z) :
  fst (landing file) = Some c -> notNegative (lastChapter file) ->
  0 <= c < Z.of_nat (length (chapters file)).
Proof.
  unfold landing. intros H Hn.
  destruct (lastChapter file) as [lc|]; simpl in Hn.
  - destruct (Z.of_nat (length (chapters file)) <=? lc) eqn:E.
    + destruct (0 <? Z.of_nat (length (chapters file))) eqn:E0;
        [|discriminate]. inversion H. lia.
    + inversion H. lia.
  - destruct (0 <? Z.of_nat (length (chapters file))) eqn:E0; [|discriminate].
    inversion H. lia.
Qed.

Lemma chapterAt_in_range (f : File) (i : Z) :
  0 <= i < Z.of_nat (length (chapters f)) -> is_Some (chapterAt f i).
Proof.
  intros H. unfold chapterAt. destruct (0 <=? i) eqn:E; [|lia].
  apply lookup_lt_is_Some. lia.
Qed.

Lemma chapterAt_range (f : File) (i : Z) (ch : Chapter) :
  chapterAt f i = Some ch -> 0 <= i < Z.of_nat (length (chapters f)).
Proof.
  unfold chapterAt. destruct (0 <=? i) eqn:E; [|discriminate].
  intros H. apply lookup_lt_Some in H. lia.
Qed.

Lemma previewIsVisible_display (chapter : option Chapter) (st : State) :
  previewIsVisible (_displayChapterText chapter st) = previewIsVisible st.
Proof.
  apply previewIsVisible_preview, preview_view, view_display.
Qed.

Lemma currentFile_view (st st' : State) :
  view st' = view st -> currentFile st' = currentFile st.
Proof. intros H. exact (f_equal (fun v => snd (fst (fst (fst v)))) H). Qed.

(** Entering a document with the preview closed. *)
Lemma enter_closed (r : nat) (file : File) (st1 : State) :
  previewIsVisible st1 = false -> statusBarVisible st1 = true ->
  files st1 !! r = Some file ->
  exists st',
    enter r file st1 = Some st'
    /\ currentFile st' = Some r
    /\ library st' = library st1
    /\ preview st' = preview st1
    /\ statusBarVisible st' = true
    /\ isRestoring st' = isRestoring st1
    /\ currentChapter st' = fst (landing file)
    /\ scrollOffset st'
       = match fst (landing file) with
         | Some i =>
           match chapterAt file i with
           | Some ch => clampOffset ch (snd (landing file))
           | None => snd (landing file)
           end
         | None => snd (landing file)
         end
    /\ (forall a A, files st1 !! a = Some A -> id A <> id file ->
          files st' !! a = Some A).
Proof.
  intros Hc Hvis Hfile. unfold enter. cbv zeta.
  set (st2 := set_currentFile (Some r) st1).
  destruct (restore_landing file st2) as (Hch & Hoff & Hfs & Hcf & Hpv & _ & Hv & Hre).
  set (st3 := _restoreFileReadingPosition file st2) in *.
  assert (Hc3 : previewIsVisible st3 = false).
  { rewrite (previewIsVisible_preview st2 st3 Hpv). exact Hc. }
  assert (Hcur3 : current st3 = Some file).
  { unfold current. rewrite Hcf, Hfs. exact Hfile. }
  set (st5 := match currentChapter st3, chapters file with
              | Some i, _ :: _ => _displayChapterText (chapterAt file i) st3
              | _, _ =>
                set_statusBarText
                  (js "reader: 已选择 " ++ name file ++ js " ["
                     ++ typeName (type file) ++ js "]") st3
              end).
  assert (Hmid : match currentChapter st3, chapters file with
                 | Some i, _ :: _ =>
                   closePreviewAndRefresh (chapterAt file i)
                     (_displayChapterText (chapterAt file i) st3)
                 | _, _ =>
                   if previewIsVisible
                        (set_statusBarText
                           (js "reader: 已选择 " ++ name file ++ js " ["
                              ++ typeName (type file) ++ js "]") st3)
                   then hide
                          (set_statusBarText
                             (js "reader: 已选择 " ++ name file ++ js " ["
                                ++ typeName (type file) ++ js "]") st3)
                   else Some
                          (set_statusBarText
                             (js "reader: 已选择 " ++ name file ++ js " ["
                                ++ typeName (type file) ++ js "]") st3)
                 end = Some st5).
  { subst st5. destruct (currentChapter st3) as [i|].
    - destruct (chapters file).
      + change (previewIsVisible (set_statusBarText _ st3))
          with (previewIsVisible st3). rewrite Hc3. reflexivity.
      + unfold closePreviewAndRefresh.
        rewrite previewIsVisible_display, Hc3. reflexivity.
    - change (previewIsVisible (set_statusBarText _ st3))
        with (previewIsVisible st3). rewrite Hc3. reflexivity. }
  rewrite Hmid. simpl. exists (_saveCurrentState st5).
  assert (H5 : view st5 = view st3 /\ files st5 = files st3
               /\ scrollOffset st5
                  = match currentChapter st3 with
                    | Some i =>
                      match chapterAt file i with
                      | Some ch => clampOffset ch (scrollOffset st3)
                      | None => scrollOffset st3
                      end
                    | None => scrollOffset st3
                    end).
  { subst st5. destruct (currentChapter st3) as [i|] eqn:Ei.
    - destruct (chapters file) as [|c0 cs] eqn:Ecs.
      + split; [reflexivity|]. split; [reflexivity|].
        unfold chapterAt. rewrite Ecs. destruct (0 <=? i); reflexivity.
      + split; [apply view_display|]. split; [apply files_display|].
        destruct (chapterAt file i) as [ch|]; [|reflexivity].
        apply offset_display. rewrite Hv. exact Hvis.
    - repeat split; reflexivity. }
  destruct H5 as (Hv5 & Hf5 & Ho5).
  destruct (view_saveCurrentState st5) as [Hv6 Ho6].
  assert (Hview : view (_saveCurrentState st5) = view st3)
    by (rewrite Hv6; exact Hv5).
  split; [reflexivity|].
  split.
  { rewrite (currentFile_view _ _ Hview), Hcf. reflexivity. }
  split.
  { rewrite library_saveCurrentState. unfold library.
    rewrite Hf5, Hfs. reflexivity. }
  split; [rewrite (preview_view _ _ Hview); exact Hpv|].
  split; [rewrite (visible_of_view _ _ Hview), Hv; exact Hvis|].
  split; [rewrite (restoring_view _ _ Hview); exact Hre|].
  split; [rewrite (chapter_view _ _ Hview); exact Hch|].
  split; [rewrite Ho6, Ho5, Hch, Hoff; reflexivity|].
  intros a A HA Hid.
  apply (lookup_saveCurrentState_other st5 file).
  - unfold current. rewrite (currentFile_view _ _ Hv5), Hf5. exact Hcur3.
  - rewrite Hf5, Hfs. exact HA.
  - exact Hid.
Qed.

Lemma chapters_fixedPart (f f' : File) :
  fixedPart f' = fixedPart f -> chapters f' = chapters f.
Proof. intros H. exact (f_equal (fun t => snd (fst (fst (fst t)))) H). Qed.

Lemma quiet_closed (st st' : State) :
  quiet st st' ->
  previewIsVisible st' = previewIsVisible st
  /\ statusBarVisible st' = statusBarVisible st.
Proof.
  intros (Hv & _ & _). split.
  - apply previewIsVisible_preview, preview_view, Hv.
  - apply visible_of_view, Hv.
Qed.

Lemma leave_records (fileId : jsstring) (st : State) (a : nat) (A : File) :
  currentFile st = Some a -> files st !! a = Some A ->
  findIndex (fun f => sameId (id f) (id A)) (files st) = Some a ->
  id A <> [] -> fileId <> id A ->
  files (leave fileId st) !! a
  = Some (set_readingPosition (currentChapter st) (scrollOffset st)
            (Some (now st)) A).
Proof.
  intros Ha HA Hfirst Hid Hne. unfold leave, current. rewrite Ha, HA.
  assert (E : sameId (id A) fileId = false) by (apply sameId_false; congruence).
  rewrite E. simpl. unfold _saveFileReadingPosition.
  destruct (id A) eqn:EA; [contradiction|]. simpl.
  rewrite (updateFirst_at _ _ _ a A Hfirst HA).
  apply list_lookup_insert_eq. eapply lookup_lt_Some, HA.
Qed.

(** [X12] With the preview closed, selecting another available document
    from the list and then the first one again brings the cursor back to
    the document, the chapter and the offset it had. *)
Theorem document_switch_round_trip (st : State) (a b : nat) (A B : File)
    (ch : Chapter) (i : Z) :
  Inv st -> previewIsVisible st = false ->
  currentFile st = Some a -> files st !! a = Some A ->
  findIndex (fun f => sameId (id f) (id A)) (files st) = Some a ->
  id A <> [] -> status A = Active ->
  currentChapter st = Some i -> loaded st = Some ch ->
  findIndex (fun f => sameId (id f) (id B)) (files st) = Some b ->
  files st !! b = Some B -> status B = Active -> id B <> id A ->
  exists st1 st2,
    _selectFileFromList (id B) st = Some st1
    /\ currentFile st1 = Some b
    /\ _selectFileFromList (id A) st1 = Some st2
    /\ currentFile st2 = Some a
    /\ currentChapter st2 = Some i
    /\ loaded st2 = Some ch
    /\ scrollOffset st2 = scrollOffset st.
Proof.
  intros HI Hc Ha HA HfirstA HidA HsA Hi Hl HfirstB HB HsB Hne.
  pose proof HI as (Hvis & _ & Hr).
  apply (inRange_loaded _ ch) in Hr; [|exact Hl].
  assert (Hch : chapterAt A i = Some ch).
  { rewrite loaded_current in Hl. unfold current in Hl.
    rewrite Ha, HA, Hi in Hl. exact Hl. }
  (* leaving A for B *)
  destruct (quiet_closed _ _ (leave_quiet (id B) st)) as [Hc0 Hv0].
  rewrite Hc in Hc0. rewrite Hvis in Hv0.
  destruct (enter_closed b B (leave (id B) st) Hc0 Hv0
              (leave_lookup (id B) st b B HB eq_refl))
    as (st1 & Hs1 & Hcf1 & Hlib1 & Hpv1 & Hv1 & _ & _ & _ & Hkeep1).
  set (A' := set_readingPosition (Some i) (scrollOffset st) (Some (now st)) A).
  assert (HA1 : files st1 !! a = Some A').
  { apply Hkeep1; [|simpl; congruence].
    rewrite (leave_records (id B) st a A Ha HA HfirstA HidA Hne), Hi.
    reflexivity. }
  assert (Hlib : library st1 = library st)
    by (rewrite Hlib1; apply leave_library).
  assert (Hc1 : previewIsVisible st1 = false)
    by (rewrite (previewIsVisible_preview _ _ Hpv1); exact Hc0).
  (* and back *)
  assert (HfirstA1 :
            findIndex (fun f => sameId (id f) (id A)) (files st1) = Some a)
    by (rewrite (findIndex_library _ _ _ Hlib); exact HfirstA).
  destruct (quiet_closed _ _ (leave_quiet (id A) st1)) as [Hc2 Hv2].
  rewrite Hc1 in Hc2. rewrite Hv1 in Hv2.
  destruct (enter_closed a A' (leave (id A) st1) Hc2 Hv2
              (leave_lookup (id A) st1 a A' HA1 eq_refl))
    as (st2 & Hs2 & Hcf2 & Hlib2 & _ & _ & _ & Hch2 & Ho2 & _).
  assert (Hland : landing A' = (Some i, scrollOffset st)).
  { unfold landing. simpl. apply chapterAt_range in Hch.
    destruct (Z.of_nat (length (chapters A)) <=? i) eqn:E; [lia|reflexivity]. }
  rewrite Hland in Hch2, Ho2. simpl in Hch2, Ho2.
  change (chapterAt A' i) with (chapterAt A i) in Ho2. rewrite Hch in Ho2.
  exists st1, st2.
  split; [rewrite (select_found (id B) st b B HfirstB HB), HsB; exact Hs1|].
  split; [exact Hcf1|].
  split.
  { rewrite (select_found (id A) st1 a A' HfirstA1 HA1).
    change (status A') with (status A). rewrite HsA. exact Hs2. }
  split; [exact Hcf2|]. split; [exact Hch2|]. split.
  - assert (Hlib' : library st2 = library st1)
      by (rewrite Hlib2; apply leave_library).
    destruct (library_lookup st1 st2 a A' Hlib' HA1) as (A2 & HA2 & Hfix).
    rewrite loaded_current. unfold current. rewrite Hcf2, HA2, Hch2.
    unfold chapterAt in *. rewrite (chapters_fixedPart _ _ Hfix). exact Hch.
  - rewrite Ho2. apply clampOffset_id, Hr.
Qed.

Lemma document_switch_round_trip_witness :
  exists st1 st2,
    _selectFileFromList (js "1700000000001") Shelf.twoBooks = Some st1
    /\ currentFile st1 = Some 1%nat
    /\ _selectFileFromList (js "1700000000000") st1 = Some st2
    /\ currentFile st2 = Some 0%nat
    /\ currentChapter st2 = Some 0
    /\ loaded st2 = Some Samples.longChapter
    /\ scrollOffset st2 = 450.
Proof.
  apply (document_switch_round_trip Shelf.twoBooks 0 1 (Samples.story ∅)
           Shelf.notes Samples.longChapter 0); try reflexivity.
  - split; [reflexivity|]. split; [reflexivity|].
    unfold inRange. vm_compute. split; discriminate.
  - vm_compute. discriminate.
  - vm_compute. discriminate.
Defined.

Lemma current_saveCurrentState (st : State) :
  match current st with
  | Some f =>
    exists f', current (_saveCurrentState st) = Some f'
      /\ fixedPart f' = fixedPart f
  | None => current (_saveCurrentState st) = None
  end.
Proof.
  destruct (view_saveCurrentState st) as [Hv _].
  pose proof (library_saveCurrentState st) as Hl.
  unfold current. rewrite (currentFile_view _ _ Hv).
  destruct (currentFile st) as [r|]; [|reflexivity].
  destruct (files st !! r) as [f|] eqn:Hf.
  - apply (library_lookup _ _ r f Hl Hf).
  - pose proof (f_equal (fun l => l !! r) Hl) as Hr. unfold library in Hr.
    simpl in Hr. rewrite !list_lookup_fmap, Hf in Hr.
    destruct (files (_saveCurrentState st) !! r); [discriminate|reflexivity].
Qed.

Lemma loaded_saveCurrentState (st : State) :
  loaded (_saveCurrentState st) = loaded st.
Proof. apply view_loaded, view_saveCurrentState. Qed.

Lemma lookup_afterSplice (fs : list File) (index r : nat) :
  r <> index ->
  match afterSplice index (Some r) with
  | Some k => delete index fs !! k
  | None => None
  end = fs !! r.
Proof.
  intros Hne. unfold afterSplice.
  destruct (r <? index)%nat eqn:E.
  - apply Nat.ltb_lt in E. simpl. apply list_lookup_delete_lt. exact E.
  - apply Nat.ltb_ge in E. destruct (index <? r)%nat eqn:E'.
    + apply Nat.ltb_lt in E'. simpl.
      rewrite list_lookup_delete_ge by lia.
      replace (S (pred r)) with r by lia. reflexivity.
    + apply Nat.ltb_ge in E'. lia.
Qed.

Lemma library_delete (fs : list File) (index : nat) :
  map fixedPart (delete index fs) = delete index (map fixedPart fs).
Proof.
  revert index. induction fs as [|f fs IH]; intros [|index]; simpl;
    try reflexivity. rewrite IH. reflexivity.
Qed.

Lemma removeFile_spec (fileId : jsstring) (st : State) :
  let st' := _removeFile fileId st in
  match findIndex (fun f => sameId (id f) fileId) (files st) with
  | None => st' = st
  | Some index =>
    library st' = delete index (library st)
    /\ match current st with
       | Some cf =>
         if sameId (id cf) fileId
         then current st' = None /\ currentChapter st' = None
              /\ currentPage st' = 0 /\ scrollOffset st' = 0
              /\ statusBarText st' = ready
         else (exists cf', current st' = Some cf'
                 /\ fixedPart cf' = fixedPart cf)
              /\ currentChapter st' = currentChapter st
              /\ scrollOffset st' = scrollOffset st
              /\ loaded st' = loaded st
       | None => current st' = None
       end
  end.
Proof.
  unfold _removeFile.
  destruct (findIndex _ (files st)) as [index|] eqn:Hi; [|reflexivity].
  set (st1 := set_currentFile _ (set_files _ st)).
  set (st2 := match current st with Some cf => _ | None => st1 end).
  destruct (findIndex_Some _ _ _ Hi) as (g & Hg & Hidg & _).
  apply sameId_true in Hidg.
  assert (Hlib2 : library st2 = delete index (library st)).
  { subst st2. destruct (current st) as [cf|];
      [destruct (sameId (id cf) fileId)|]; apply library_delete. }
  split; [rewrite library_saveCurrentState; exact Hlib2|].
  destruct (view_saveCurrentState st2) as [Hv Ho].
  pose proof (current_saveCurrentState st2) as Hcur.
  destruct (current st) as [cf|] eqn:Hcf.
  - destruct (sameId (id cf) fileId) eqn:E.
    + subst st2. simpl in Hcur.
      split; [exact Hcur|]. split; [rewrite (chapter_view _ _ Hv); reflexivity|].
      split.
      { unfold _saveCurrentState, clearSelection. simpl.
        destruct (isRestoring st); [reflexivity|].
        destruct (saveDebounceTimer st); reflexivity. }
      split; [rewrite Ho; reflexivity|].
      unfold _saveCurrentState, clearSelection. simpl.
      destruct (isRestoring st); [reflexivity|].
      destruct (saveDebounceTimer st); reflexivity.
    + assert (Hcur1 : current st1 = Some cf).
      { unfold current in Hcf |- *. subst st1. simpl.
        destruct (currentFile st) as [r|]; [|discriminate].
        rewrite lookup_afterSplice; [exact Hcf|].
        intros ->. apply sameId_false in E. congruence. }
      subst st2. rewrite Hcur1 in Hcur. split; [exact Hcur|].
      split; [rewrite (chapter_view _ _ Hv); reflexivity|].
      split; [rewrite Ho; reflexivity|].
      rewrite loaded_saveCurrentState, !loaded_current, Hcur1, Hcf.
      reflexivity.
  - assert (Hcur1 : current st1 = None).
    { unfold current in Hcf |- *. subst st1. simpl.
      destruct (currentFile st) as [r|]; [|reflexivity].
      destruct (Nat.eq_dec r index) as [->|Hne].
      - unfold afterSplice. rewrite Nat.ltb_irrefl. reflexivity.
      - rewrite lookup_afterSplice; [exact Hcf|exact Hne]. }
    subst st2. rewrite Hcur1 in Hcur. exact Hcur.
Qed.

(** [X13] Removing a document by an id the list does not hold changes
    nothing.  Otherwise the first entry with that id is deleted and every
    other entry stays as it is; when the document being read has that id
    the cursor is cleared (no document, no chapter, page 0, offset 0, the
    status bar back to its idle text), and otherwise reading goes on in
    the same document at the same place. *)
Theorem remove_file_keeps_the_others (fileId : jsstring) (st : State) :
  let st' := _removeFile fileId st in
  match findIndex (fun f => sameId (id f) fileId) (files st) with
  | None => st' = st
  | Some index =>
    library st' = delete index (library st)
    /\ match current st with
       | Some cf =>
         if sameId (id cf) fileId
         then current st' = None /\ currentChapter st' = None
              /\ currentPage st' = 0 /\ scrollOffset st' = 0
              /\ statusBarText st' = ready
         else (exists cf', current st' = Some cf'
                 /\ fixedPart cf' = fixedPart cf)
              /\ currentChapter st' = currentChapter st
              /\ scrollOffset st' = scrollOffset st
              /\ loaded st' = loaded st
       | None => current st' = None
       end
  end.
Proof. exact (removeFile_spec fileId st). Qed.

Lemma lookup_filter_take (p : File -> bool) (fs : list File) :
  forall k f, fs !! k = Some f -> p f = true ->
    List.filter p fs !! length (List.filter p (take k fs)) = Some f.
Proof.
  induction fs as [|g fs IH]; intros k f Hk Hp; [discriminate|].
  destruct k as [|k]; simpl in Hk.
  - inversion Hk; subst. simpl. rewrite Hp. reflexivity.
  - simpl. destruct (p g); simpl; apply IH; assumption.
Qed.

Lemma filter_available (fs : list File) :
  Forall (fun f => status f = Active) (List.filter available fs).
Proof.
  apply Forall_forall. intros f Hf.
  apply list_elem_of_In, filter_In in Hf as [_ Hf].
  unfold available in Hf. destruct (status f); [reflexivity|discriminate..].
Qed.

Lemma cleanup_spec (st : State) :
  let st' := _cleanupMissingFiles st in
  library st' = map fixedPart (List.filter available (files st))
  /\ Forall (fun f => status f = Active) (files st')
  /\ match current st with
     | Some cf =>
       if available cf
       then (exists cf', current st' = Some cf'
               /\ fixedPart cf' = fixedPart cf)
            /\ currentChapter st' = currentChapter st
            /\ scrollOffset st' = scrollOffset st
            /\ loaded st' = loaded st
       else current st' = None /\ currentChapter st' = None
            /\ scrollOffset st' = 0 /\ statusBarText st' = ready
     | None => current st' = None
     end.
Proof.
  unfold _cleanupMissingFiles.
  set (st1 := set_currentFile _ (set_files _ st)).
  set (st2 := match current st with Some cf => _ | None => st1 end).
  assert (Hlib2 : library st2
                  = map fixedPart (List.filter available (files st))).
  { subst st2. destruct (current st) as [cf|];
      [destruct (available cf)|]; reflexivity. }
  assert (Hlib : library (_saveCurrentState st2)
                 = map fixedPart (List.filter available (files st)))
    by (rewrite library_saveCurrentState; exact Hlib2).
  split; [exact Hlib|]. split.
  { pose proof (filter_available (files st)) as Ha.
    pose proof (f_equal (map snd) Hlib) as Hs. unfold library in Hs.
    rewrite <- !list_fmap_compose in Hs.
    apply (proj1 (Forall_fmap status (fun s => s = Active) _)).
    change (status <$> files (_saveCurrentState st2))
      with (snd ∘ fixedPart <$> files (_saveCurrentState st2)).
    rewrite Hs. apply (proj2 (Forall_fmap _ (fun s => s = Active) _)).
    exact Ha. }
  destruct (view_saveCurrentState st2) as [Hv Ho].
  pose proof (current_saveCurrentState st2) as Hcur.
  destruct (current st) as [cf|] eqn:Hcf.
  - destruct (available cf) eqn:E.
    + assert (Hcur1 : current st1 = Some cf).
      { unfold current in Hcf |- *. subst st1. simpl.
        destruct (currentFile st) as [r|]; [|discriminate].
        unfold afterFilter. rewrite Hcf, E.
        apply lookup_filter_take; assumption. }
      subst st2. rewrite Hcur1 in Hcur. split; [exact Hcur|].
      split; [rewrite (chapter_view _ _ Hv); reflexivity|].
      split; [rewrite Ho; reflexivity|].
      rewrite loaded_saveCurrentState, !loaded_current, Hcur1, Hcf.
      reflexivity.
    + subst st2. simpl in Hcur. split; [exact Hcur|].
      split; [rewrite (chapter_view _ _ Hv); reflexivity|].
      split; [rewrite Ho; reflexivity|].
      unfold _saveCurrentState, clearSelection. simpl.
      destruct (isRestoring st); [reflexivity|].
      destruct (saveDebounceTimer st); reflexivity.
  - assert (Hcur1 : current st1 = None).
    { unfold current in Hcf |- *. subst st1. simpl.
      destruct (currentFile st) as [r|]; [|reflexivity].
      unfold afterFilter. rewrite Hcf. reflexivity. }
    subst st2. rewrite Hcur1 in Hcur. exact Hcur.
Qed.

(** [X14] Cleaning up keeps exactly the documents that are neither
    missing nor in error, in their order; when the document being read is
    one of those, reading goes on at the same place, and otherwise the
    cursor is cleared. *)
Theorem cleanup_keeps_available_files (st : State) :
  let st' := _cleanupMissingFiles st in
  library st' = map fixedPart (List.filter available (files st))
  /\ Forall (fun f => status f = Active) (files st')
  /\ match current st with
     | Some cf =>
       if available cf
       then (exists cf', current st' = Some cf'
               /\ fixedPart cf' = fixedPart cf)
            /\ currentChapter st' = currentChapter st
            /\ scrollOffset st' = scrollOffset st
            /\ loaded st' = loaded st
       else current st' = None /\ currentChapter st' = None
            /\ scrollOffset st' = 0 /\ statusBarText st' = ready
     | None => current st' = None
     end.
Proof. exact (cleanup_spec st). Qed.

Lemma paste_spec (formatTimestamp : Z -> jsstring)
    (content : jsstring) (st : State) :
  let st' := _loadPastedContent formatTimestamp content st in
  let new := pastedFile content (formatTimestamp (now st)) (now st) in
  library st' = library st ++ [fixedPart new]
  /\ (exists f, current st' = Some f /\ fixedPart f = fixedPart new)
  /\ chapters new = _extractChaptersWithFallback content
  /\ currentChapter st' = Some 0
  /\ scrollOffset st' = 0
  /\ (exists ch, loaded st' = Some ch /\ chapters new !! 0%nat = Some ch)
  /\ inRange st'.
Proof.
  intros st' new. subst st'. unfold _loadPastedContent.
  fold new.
  set (st3 := set_statusBarText (js "reader: 已加载粘贴内容") _).
  assert (Hne : chapters new <> []) by apply pipeline_not_empty.
  assert (Hlen : (0 <? length (_extractChaptersWithFallback content))%nat
                 = true).
  { change (chapters new <> []) in Hne. simpl in Hne.
    destruct (_extractChaptersWithFallback content);
      [contradiction|reflexivity]. }
  assert (Hcur3 : current st3 = Some new).
  { unfold current. subst st3. simpl.
    rewrite lookup_app_r by lia. rewrite Nat.sub_diag. reflexivity. }
  assert (Hch3 : currentChapter st3 = Some 0).
  { subst st3. simpl. rewrite Hlen. reflexivity. }
  destruct (view_saveCurrentState st3) as [Hv Ho].
  pose proof (current_saveCurrentState st3) as Hcur. rewrite Hcur3 in Hcur.
  assert (Hl : exists ch, loaded (_saveCurrentState st3) = Some ch
                 /\ chapters new !! 0%nat = Some ch).
  { assert (Hex : exists c,
              _extractChaptersWithFallback content !! 0%nat = Some c).
    { destruct (_extractChaptersWithFallback content) as [|c cs];
        [discriminate Hlen|exists c; reflexivity]. }
    destruct Hex as [c Hc]. exists c.
    rewrite loaded_saveCurrentState, loaded_current, Hcur3, Hch3.
    split; exact Hc. }
  split.
  { rewrite library_saveCurrentState. unfold library. subst st3. simpl.
    rewrite map_app. reflexivity. }
  split; [exact Hcur|]. split; [reflexivity|].
  split; [rewrite (chapter_view _ _ Hv); exact Hch3|].
  split; [rewrite Ho; reflexivity|].
  split; [exact Hl|].
  destruct Hl as (ch & Hl & _). unfold inRange. rewrite Hl, Ho.
  subst st3. simpl. unfold maxScrollOffsetOf. lia.
Qed.

(** [X15] Pasted text becomes a new document at the end of the list,
    segmented with the fallback, and is opened at chapter 0, offset 0,
    with the cursor in range. *)
Theorem pasted_document_opens_at_start (formatTimestamp : Z -> jsstring)
    (content : jsstring) (st : State) :
  let st' := _loadPastedContent formatTimestamp content st in
  let new := pastedFile content (formatTimestamp (now st)) (now st) in
  library st' = library st ++ [fixedPart new]
  /\ (exists f, current st' = Some f /\ fixedPart f = fixedPart new)
  /\ chapters new = _extractChaptersWithFallback content
  /\ currentChapter st' = Some 0
  /\ scrollOffset st' = 0
  /\ (exists ch, loaded st' = Some ch /\ chapters new !! 0%nat = Some ch)
  /\ inRange st'.
Proof. exact (paste_spec formatTimestamp content st). Qed.

(** [X16] A pasted document written to the store and restored from it
    is the same document, whatever its reading position and its map of
    chapter offsets. *)
Theorem pasted_document_survives_restart (disk : jsstring -> DiskEntry)
    (basename : jsstring -> jsstring) (clock t c : Z)
    (content formattedTime : jsstring) (lc : option Z) (off : Z)
    (rt : option Z) (m : gmap Z Z) :
  let f :=
    set_chapterPositions (Some m)
      (set_readingPosition lc off rt (pastedFile content formattedTime c)) in
  restoreFile disk basename clock (serialize t f) = f.
Proof. reflexivity. Qed.

Lemma loadFileQuietly_shape (disk : jsstring -> DiskEntry)
    (basename : jsstring -> jsstring) (clock : Z) (filePath fileId : jsstring)
    (f : File) :
  _loadFileQuietly disk basename clock filePath fileId = Some f ->
  type f <> Pasted /\ path f = filePath
  /\ id f = orElse fileId (toString clock)
  /\ disk filePath <> Absent.
Proof.
  unfold _loadFileQuietly.
  destruct (disk filePath); try discriminate; intros [= <-]; simpl;
    repeat split; discriminate.
Qed.

Lemma loadFileQuietly_again (disk : jsstring -> DiskEntry)
    (basename : jsstring -> jsstring) (c0 c1 : Z) (filePath fileId : jsstring)
    (f : File) :
  _loadFileQuietly disk basename c0 filePath fileId = Some f ->
  fileId <> [] ->
  _loadFileQuietly disk basename c1 filePath (id f) = Some f.
Proof.
  unfold _loadFileQuietly. intros H Hid.
  destruct fileId as [|x fileId]; [contradiction|].
  destruct (disk filePath); try discriminate; inversion H; reflexivity.
Qed.

(** [X17] A document loaded from a file that has not changed on disk,
    written to the store and restored, is the same document with the same
    reading position, provided its stored chapter index lies below the
    number of chapters. *)
Theorem file_document_survives_restart (disk : jsstring -> DiskEntry)
    (basename : jsstring -> jsstring) (c0 c1 t : Z)
    (filePath fileId : jsstring) (f : File) (lc : option Z) (off : Z)
    (rt : option Z) (m : gmap Z Z) :
  _loadFileQuietly disk basename c0 filePath fileId = Some f ->
  fileId <> [] -> filePath <> [] ->
  match lc with
  | Some k => k < Z.of_nat (length (chapters f))
  | None => True
  end ->
  let g := set_chapterPositions (Some m) (set_readingPosition lc off rt f) in
  restoreFile disk basename c1 (serialize t g) = g.
Proof.
  intros Hload Hid Hpath Hlc g.
  destruct (loadFileQuietly_shape _ _ _ _ _ _ Hload) as (Hty & Hp & _ & Hdisk).
  pose proof (loadFileQuietly_again _ _ c0 c1 _ _ _ Hload Hid) as Hagain.
  assert (Htype : sv_type (serialize t g) = type f) by reflexivity.
  assert (Hpath' : sv_path (serialize t g) = filePath) by exact Hp.
  assert (Hid' : sv_id (serialize t g) = id f) by reflexivity.
  unfold restoreFile. rewrite Htype, Hpath', Hid', Hagain.
  assert (Hvalid : forall restored : File,
            restored = g ->
            match lastChapter restored with
            | Some k =>
              if Z.of_nat (length (chapters restored)) <=? k
              then set_readingPosition (Some 0) 0 (lastReadTime restored)
                     restored
              else restored
            | None => restored
            end = g).
  { intros restored ->. subst g. simpl. destruct lc as [k|]; [|reflexivity].
    destruct (Z.of_nat (length (chapters f)) <=? k) eqn:E; [lia|reflexivity]. }
  destruct (type f); [contradiction|..];
    (destruct filePath as [|x p]; [contradiction|]);
    (destruct (disk (x :: p)); [contradiction|..]);
    apply Hvalid; reflexivity.
Qed.

Lemma file_document_survives_restart_witness :
  exists f,
    _loadFileQuietly Samples.sampleDisk Samples.sampleBasename 0
      (js "/books/abc.txt") (js "43") = Some f
    /\ restoreFile Samples.sampleDisk Samples.sampleBasename 9
         (serialize 7
            (set_chapterPositions (Some {[ 1 := 5 ]})
               (set_readingPosition (Some 1) 5 (Some 3) f)))
       = set_chapterPositions (Some {[ 1 := 5 ]})
           (set_readingPosition (Some 1) 5 (Some 3) f).
Proof.
  eexists. split; [reflexivity|].
  apply (file_document_survives_restart Samples.sampleDisk
           Samples.sampleBasename 0 9 7 (js "/books/abc.txt") (js "43")).
  - reflexivity.
  - vm_compute. discriminate.
  - vm_compute. discriminate.
  - vm_compute. reflexivity.
Defined.

Lemma percentage_at_start (fullContent : jsstring) :
  isPositive (_calculateScrollPercentage 0 fullContent) = false.
Proof.
  unfold _calculateScrollPercentage.
  destruct fullContent as [|c s]; [reflexivity|].
  change (ofZ 0) with (S754_zero false).
  destruct (ofZ (Z.of_nat (length (c :: s)))) as [sg| sg| |sg m e];
    reflexivity.
Qed.

Lemma show_loaded (st : State) (ch : Chapter) :
  loaded st = Some ch ->
  let st1 := showChapterPreview st in
  base st1 = base st /\ currentChapter st1 = currentChapter st
  /\ scrollOffset st1 = scrollOffset st
  /\ host st1 = host st /\ files st1 = files st
  /\ lastCharOffset st1 = scrollOffset st
  /\ lastScrollPercentage st1
     = _calculateScrollPercentage (scrollOffset st) (previewText ch)
  /\ webviewPanel st1 = true
  /\ isVisible st1 = (if webviewPanel st then isVisible st else true).
Proof.
  intros Hl. rewrite loaded_current in Hl. unfold showChapterPreview.
  destruct (current st) as [f|] eqn:Hf; [|discriminate].
  destruct (currentChapter st) as [i|] eqn:Hi; [|discriminate].
  rewrite Hl. cbv zeta.
  change (webviewPanel (set_lastScrollPercentage _ (set_lastCharOffset _ st)))
    with (webviewPanel st).
  destruct (webviewPanel st) eqn:E; simpl; rewrite ?E, ?Hi;
    repeat split; reflexivity.
Qed.

Lemma show_unloaded (st : State) :
  loaded st = None -> showChapterPreview st = st.
Proof.
  intros Hl. rewrite loaded_current in Hl. unfold showChapterPreview.
  destruct (current st) as [f|]; [|reflexivity].
  destruct (currentChapter st) as [i|]; [|reflexivity].
  rewrite Hl. reflexivity.
Qed.

Lemma loaded_base (st st' : State) :
  base st' = base st -> currentChapter st' = currentChapter st ->
  loaded st' = loaded st.
Proof.
  intros Hb Hc. unfold loaded. rewrite (base_chapters _ _ Hb), Hc.
  reflexivity.
Qed.

Lemma maxScrollOffset_preview (ch : Chapter) :
  maxScrollOffsetOf ch = Z.max 0 (Z.of_nat (length (previewText ch)) - 1).
Proof. unfold maxScrollOffsetOf. rewrite length_previewText. reflexivity. Qed.

(** [X18] Opening the preview over the chapter under the cursor and
    closing it again without scrolling leaves the cursor at the chapter
    and the offset it had. *)
Theorem preview_toggle_round_trip (st : State) (ch : Chapter) :
  Inv st -> webviewPanel st = false -> isVisible st = false ->
  loaded st = Some ch ->
  exists st1 st2,
    toggleChapterPreview st = Some st1
    /\ previewIsVisible st1 = true
    /\ scrollOffset st1 = scrollOffset st
    /\ toggleChapterPreview st1 = Some st2
    /\ previewIsVisible st2 = false
    /\ currentChapter st2 = currentChapter st
    /\ scrollOffset st2 = scrollOffset st.
Proof.
  intros HI Hw Hv Hl.
  pose proof HI as (_ & _ & Hr).
  apply (inRange_loaded _ ch) in Hr; [|exact Hl].
  destruct (show_loaded st ch Hl)
    as (Hb & Hc & Ho & _ & _ & Hco & Hp & Hw1 & Hv1).
  set (st1 := showChapterPreview st) in *.
  rewrite Hw in Hv1.
  assert (Hl1 : loaded st1 = Some ch) by (rewrite (loaded_base _ _ Hb Hc); exact Hl).
  assert (Hcommit : previewCommit st1 ch = Some (scrollOffset st)).
  { unfold previewCommit. rewrite Hco, Hp.
    destruct (Z.eq_dec (scrollOffset st) 0) as [E|E].
    - rewrite E. apply committedOffset_zero, percentage_at_start.
    - rewrite (committedOffset_probed _ _ _ E). f_equal.
      rewrite maxScrollOffset_preview in Hr. unfold clamp. lia. }
  destruct (hide_commits st1 ch _ Hw1 Hl1 Hcommit)
    as (st2 & Hh & Hb2 & Hc2 & Hp2 & Ho2).
  exists st1, st2. unfold toggleChapterPreview. rewrite Hv, Hv1.
  split; [reflexivity|].
  split; [unfold previewIsVisible; rewrite Hv1, Hw1; reflexivity|].
  split; [exact Ho|]. split; [exact Hh|]. split.
  - unfold previewIsVisible.
    pose proof (f_equal (fun v => fst (fst (fst v))) Hp2) as H1.
    simpl in H1. rewrite H1. apply andb_false_r.
  - split; [rewrite Hc2; exact Hc|exact Ho2].
Qed.

Lemma preview_toggle_round_trip_witness :
  exists st1 st2,
    toggleChapterPreview (Samples.reading ∅) = Some st1
    /\ previewIsVisible st1 = true
    /\ scrollOffset st1 = 450
    /\ toggleChapterPreview st1 = Some st2
    /\ previewIsVisible st2 = false
    /\ currentChapter st2 = Some 0
    /\ scrollOffset st2 = 450.
Proof.
  apply (preview_toggle_round_trip (Samples.reading ∅) Samples.longChapter);
    try reflexivity.
  split; [reflexivity|]. split; [reflexivity|].
  unfold inRange. vm_compute. split; discriminate.
Defined.

(** [X19] The answer of the panel to a request for its position moves
    the cursor inside the chapter under it, to the probed offset clamped
    into the text when that offset is not zero, and leaves the chapter
    and the map of chapter offsets as they are. *)
Theorem live_sync_commits_in_range (p : spec_float) (c : option Z)
    (st st' : State) (ch : Chapter) :
  statusBarVisible st = true -> loaded st = Some ch ->
  _handleScrollPositionResponse p c st = Some st' ->
  0 <= scrollOffset st' <= maxScrollOffsetOf ch
  /\ loaded st' = Some ch
  /\ positions st' = positions st
  /\ (forall k, c = Some k -> k <> 0 ->
        scrollOffset st'
        = clamp k 0 (Z.of_nat (length (previewText ch)) - 1)).
Proof.
  intros Hvis Hl. pose proof Hl as Hl'. rewrite loaded_current in Hl'.
  unfold _handleScrollPositionResponse.
  destruct (current st) as [f|]; [|discriminate].
  destruct (currentChapter st) as [i|]; [|discriminate].
  rewrite Hl'. cbv zeta.
  destruct (respondedOffset c p _) as [v|] eqn:Ev; [|discriminate].
  unfold mbind, option_bind. intros H. apply (inj Some) in H. subst st'.
  set (st1 := set_scrollOffset v st).
  destruct (view_saveCurrentState (_displayChapterText (Some ch) st1))
    as [Hv1 Ho1].
  destruct (view_display (Some ch) st1) as [Hv2 _].
  assert (Ho : scrollOffset (_saveCurrentState (_displayChapterText (Some ch) st1))
               = clampOffset ch v).
  { rewrite Ho1. apply (offset_display ch st1). exact Hvis. }
  split; [rewrite Ho; apply clampOffset_range|].
  split; [rewrite (view_loaded _ _ Hv1), (view_loaded _ _ Hv2); exact Hl|].
  split; [rewrite positions_saveCurrentState, positions_display; reflexivity|].
  intros k -> Hk. rewrite Ho.
  unfold respondedOffset in Ev. apply Z.eqb_neq in Hk. rewrite Hk in Ev.
  simpl in Ev. inversion Ev; subst v.
  unfold clampOffset, clamp. rewrite maxScrollOffset_preview. lia.
Qed.

Lemma live_sync_commits_in_range_witness :
  exists st',
    _handleScrollPositionResponse pct62 (Some 300) Samples.previewing
    = Some st'
    /\ scrollOffset st' = 300.
Proof.
  destruct (_handleScrollPositionResponse pct62 (Some 300) Samples.previewing)
    as [st'|] eqn:E.
  - exists st'. split; [reflexivity|].
    destruct (live_sync_commits_in_range pct62 (Some 300) Samples.previewing
                st' Samples.thousand eq_refl eq_refl E) as (_ & _ & _ & H).
    rewrite (H 300 eq_refl); [reflexivity|discriminate].
  - vm_compute in E. discriminate.
Defined.

(** *** Saving stays debounced *)








Lemma host_show (st : State) :
  host (showChapterPreview st) = host st
  /\ isRestoring (showChapterPreview st) = isRestoring st.
Proof.
  unfold showChapterPreview.
  destruct (current st) as [f|]; [|auto].
  destruct (currentChapter st) as [i|]; [|auto].
  destruct (chapterAt f i); [|auto].
  cbv zeta.
  change (webviewPanel (set_lastScrollPercentage _ (set_lastCharOffset _ st)))
    with (webviewPanel st).
  destruct (webviewPanel st); auto.
Qed.








Lemma wellStored_intro (st st' : State) :
  currentChapter st' = currentChapter st ->
  Forall storedOk (files st') ->
  storage st' = storage st ->
  WellStored st -> WellStored st'.
Proof.
  intros Hc Hf Hs (H1 & _ & H3). unfold WellStored.
  rewrite Hc, Hs. auto.
Qed.

Lemma Forall_same_image {A B} (g : A -> B) (P : B -> Prop) (l l' : list A) :
  map g l' = map g l ->
  Forall (fun x => P (g x)) l -> Forall (fun x => P (g x)) l'.
Proof.
  revert l'. induction l as [|a l IH]; intros [|a' l']; simpl; intros H;
    try discriminate; [constructor|].
  inversion H as [[Ha Hl]]. intros HF. inversion HF; subst.
  constructor; [rewrite Ha; assumption|auto].
Qed.

Lemma storage_host (st st' : State) :
  host st' = host st -> storage st' = storage st.
Proof. intros H. exact (f_equal (fun h => snd (fst h)) H). Qed.

Lemma ws_saveFileReadingPosition (fileId : jsstring) (st : State) :
  WellStored st -> WellStored (_saveFileReadingPosition fileId st).
Proof.
  intros HW. pose proof HW as (H1 & H2 & _).
  apply (wellStored_intro st); [| | |exact HW].
  - apply chapter_view, quiet_saveFileReadingPosition.
  - unfold _saveFileReadingPosition. destruct fileId; [exact H2|].
    simpl. apply Forall_updateFirst; [|exact H2].
    intros f _. exact H1.
  - apply storage_host, quiet_saveFileReadingPosition.
Qed.

Lemma ws_saveChapterPosition (i : option Z) (off : Z) (st : State) :
  WellStored st -> WellStored (_saveChapterPosition i off st).
Proof.
  intros HW. pose proof HW as (H1 & H2 & _).
  apply (wellStored_intro st); [| | |exact HW].
  - apply chapter_view, quiet_saveChapterPosition.
  - destruct (library_saveChapterPosition i off st) as [_ Hl].
    exact (Forall_same_image lastChapter notNegative _ _ Hl H2).
  - apply storage_host, quiet_saveChapterPosition.
Qed.

Lemma ws_display (chapter : option Chapter) (st : State) :
  WellStored st -> WellStored (_displayChapterText chapter st).
Proof.
  intros HW. destruct (view_display chapter st) as [Hv Hh].
  apply (wellStored_intro st); [| | |exact HW].
  - apply chapter_view, Hv.
  - rewrite files_display. apply HW.
  - apply storage_host, Hh.
Qed.

Lemma ws_same (st st' : State) :
  currentChapter st' = currentChapter st -> files st' = files st ->
  storage st' = storage st -> WellStored st -> WellStored st'.
Proof.
  intros Hc Hf Hs HW. apply (wellStored_intro st); try assumption.
  rewrite Hf. apply HW.
Qed.

Lemma ws_saveCurrentState (st : State) :
  WellStored st -> WellStored (_saveCurrentState st).
Proof.
  intros HW. unfold _saveCurrentState. destruct (isRestoring st); [exact HW|].
  set (st1 := match current st with Some f => _ | None => st end).
  assert (H1 : WellStored st1).
  { subst st1. destruct (current st);
      [apply ws_saveFileReadingPosition|]; exact HW. }
  destruct (saveDebounceTimer st1); revert H1; apply ws_same; reflexivity.
Qed.

Lemma ws_writeState (st : State) : WellStored st -> WellStored (writeState st).
Proof.
  intros (H1 & H2 & _). split; [exact H1|]. split; [exact H2|].
  simpl. apply Forall_map. eapply Forall_impl; [exact H2|].
  intros f Hf. exact Hf.
Qed.

Lemma ws_fireTimer (h : nat) (st : State) :
  WellStored st -> WellStored (fireTimer h st).
Proof.
  intros HW. unfold fireTimer.
  destruct (List.find _ (timers st)) as [t|]; [|exact HW].
  destruct (due t <=? now st); [|exact HW].
  assert (H : WellStored (clearTimeout h st))
    by (revert HW; apply ws_same; reflexivity).
  destruct (callback t); unfold runCallback;
    [apply ws_writeState|apply ws_display]; exact H.
Qed.

Lemma ws_sync (st st' : State) :
  _syncLastScrollPositionToStatusBar st = Some st' ->
  WellStored st -> WellStored st'.
Proof.
  unfold _syncLastScrollPositionToStatusBar.
  destruct (current st) as [f|]; [|intros [= <-]; auto].
  destruct (currentChapter st) as [i|] eqn:Hi; [|intros [= <-]; auto].
  destruct (chapterAt f i) as [ch|]; [|intros [= <-]; auto].
  cbv zeta. destruct (committedOffset _ _ _) as [v|]; [|discriminate].
  intros H HW. apply (inj Some) in H. subst st'.
  assert (H1 : WellStored (set_scrollOffset v st))
    by (revert HW; apply ws_same; reflexivity).
  apply (ws_display (Some ch)) in H1.
  apply (ws_saveChapterPosition
           (currentChapter (_displayChapterText (Some ch) (set_scrollOffset v st)))
           v) in H1.
  apply ws_saveCurrentState in H1.
  revert H1. apply ws_same; reflexivity.
Qed.

Lemma ws_dispose (st st' : State) :
  _onChapterPreviewDisposed st = Some st' -> WellStored st -> WellStored st'.
Proof.
  unfold _onChapterPreviewDisposed.
  destruct (_syncLastScrollPositionToStatusBar st) as [st1|] eqn:E;
    [|discriminate].
  simpl. intros [= <-] HW. apply (ws_sync _ _ E) in HW.
  revert HW. apply ws_same; reflexivity.
Qed.

Lemma ws_hide (st st' : State) :
  hide st = Some st' -> WellStored st -> WellStored st'.
Proof.
  unfold hide. destruct (webviewPanel st); [|intros [= <-]; auto].
  destruct (_syncLastScrollPositionToStatusBar st) as [st1|] eqn:E1;
    [|discriminate].
  simpl. destruct (_onChapterPreviewDisposed st1) as [st2|] eqn:E2;
    [|discriminate].
  simpl. intros [= <-] HW.
  apply (ws_sync _ _ E1), (ws_dispose _ _ E2) in HW.
  revert HW. apply ws_same; reflexivity.
Qed.

Lemma ws_afterStep (chapter : option Chapter) (st : State) :
  WellStored st -> WellStored (afterStep chapter st).
Proof.
  intros HW. unfold afterStep.
  apply ws_saveCurrentState, ws_saveChapterPosition, ws_display, HW.
Qed.

Lemma ws_stepBack (size : Z) (st : State) :
  WellStored st -> WellStored (stepBack size st).
Proof.
  intros HW. unfold stepBack.
  destruct (currentChapter st) as [i|] eqn:Hi; [|exact HW].
  destruct (current st) as [f|]; [|exact HW].
  destruct (0 <? scrollOffset st); [|exact HW].
  apply ws_afterStep. revert HW. apply ws_same; reflexivity.
Qed.

Lemma ws_stepForward (size : Z) (st : State) :
  WellStored st -> WellStored (stepForward size st).
Proof.
  intros HW. unfold stepForward.
  destruct (currentChapter st) as [i|] eqn:Hi; [|exact HW].
  destruct (current st) as [f|]; [|exact HW].
  destruct (chapterAt f i) as [ch|]; [|exact HW].
  destruct (scrollOffset st <? maxScrollOffsetOf ch); [|exact HW].
  apply ws_afterStep. revert HW. apply ws_same; reflexivity.
Qed.

Lemma ws_closePreviewAndRefresh (chapter : option Chapter) (st st' : State) :
  closePreviewAndRefresh chapter st = Some st' ->
  WellStored st -> WellStored st'.
Proof.
  unfold closePreviewAndRefresh.
  destruct (previewIsVisible st); [|intros [= <-]; auto].
  destruct (hide st) as [st1|] eqn:Hh; [|discriminate].
  destruct chapter as [ch|]; [|discriminate].
  simpl. intros [= <-] HW. apply (ws_hide _ _ Hh) in HW.
  revert HW. apply ws_same; reflexivity.
Qed.

Lemma ws_select (i : option Z) (st st' : State) :
  _selectChapter i st = Some st' -> WellStored st -> WellStored st'.
Proof.
  unfold _selectChapter.
  destruct (current st) as [f|]; [|intros [= <-]; auto].
  destruct i as [idx|]; [|intros [= <-]; auto].
  destruct ((0 <=? idx) && (idx <? Z.of_nat (length (chapters f)))) eqn:E;
    [|intros [= <-]; auto].
  apply andb_prop in E as [E0 _]. apply Z.leb_le in E0.
  cbv zeta.
  set (st1 := match currentChapter st with Some c => _ | None => st end).
  set (st3 := set_scrollOffset _ (set_currentPage 0 _)).
  set (st5 := _saveCurrentState (_displayChapterText (chapterAt f idx) st3)).
  intros H HW.
  assert (H1 : WellStored st1).
  { subst st1. destruct (currentChapter st) as [c|]; [|exact HW].
    destruct (negb (c =? idx)); [apply ws_saveChapterPosition|]; exact HW. }
  assert (H3 : WellStored st3).
  { destruct H1 as (_ & H2 & H3). split; [exact E0|]. split; assumption. }
  assert (H5 : WellStored st5)
    by (apply ws_saveCurrentState, ws_display, H3).
  destruct (previewIsVisible st5); [|inversion H; subst; exact H5].
  destruct (hide st5) as [st6|] eqn:Hh; [|discriminate]. simpl in H.
  apply (ws_hide _ _ Hh) in H5.
  destruct (chapterAt f idx); inversion H; subst; [|exact H5].
  revert H5. apply ws_same; reflexivity.
Qed.

Lemma ws_event (e : Event) (st st' : State) :
  (forall disk basename, e <> RestoreEnds disk basename) ->
  handleEvent e st = Some st' -> WellStored st -> WellStored st'.
Proof.
  intros Hne. destruct e; simpl.
  - destruct c; simpl; try (intros [= <-]);
      [apply ws_stepBack|apply ws_stepForward|apply ws_stepBack
      |apply ws_stepForward|apply ws_select].
  - intros [= <-]. apply ws_fireTimer.
  - intros [= <-]. apply ws_same; reflexivity.
  - intros [= <-]. apply ws_same; reflexivity.
  - apply ws_hide.
  - apply ws_dispose.
  - intros [= <-]. apply ws_same; reflexivity.
  - exfalso. exact (Hne _ _ eq_refl).
Qed.

Lemma landing_notNegative (file : File) :
  storedOk file -> notNegative (fst (landing file)).
Proof.
  unfold storedOk, landing. intros H.
  destruct (lastChapter file) as [lc|]; simpl in H.
  - destruct (_ <=? lc); simpl; [|exact H].
    destruct (0 <? _); simpl; [lia|exact I].
  - destruct (0 <? _); simpl; [lia|exact I].
Qed.

Lemma ws_restore (file : File) (st : State) :
  storedOk file -> WellStored st ->
  WellStored (_restoreFileReadingPosition file st).
Proof.
  intros Hf (_ & H2 & H3).
  destruct (restore_landing file st) as (Hc & _ & Hfs & _ & _ & Hh & _).
  split; [rewrite Hc; apply landing_notNegative, Hf|].
  split; [rewrite Hfs; exact H2|].
  rewrite (storage_host _ _ Hh). exact H3.
Qed.

Lemma ws_hide_if (st st' : State) :
  (if previewIsVisible st then hide st else Some st) = Some st' ->
  WellStored st -> WellStored st'.
Proof.
  destruct (previewIsVisible st); [apply ws_hide|intros [= <-]; auto].
Qed.

Lemma ws_enter (r : nat) (file : File) (st st' : State) :
  storedOk file -> enter r file st = Some st' ->
  WellStored st -> WellStored st'.
Proof.
  intros Hf. unfold enter. cbv zeta.
  set (st3 := _restoreFileReadingPosition file (set_currentFile (Some r) st)).
  destruct (match currentChapter st3, chapters file with
            | Some i, _ :: _ => _
            | _, _ => _
            end) as [st5|] eqn:E; [|discriminate].
  unfold mbind, option_bind. intros H HW. apply (inj Some) in H. subst st'.
  apply ws_saveCurrentState.
  assert (H3 : WellStored st3).
  { apply ws_restore; [exact Hf|]. revert HW. apply ws_same; reflexivity. }
  assert (Htext : forall t,
            (if previewIsVisible (set_statusBarText t st3)
             then hide (set_statusBarText t st3)
             else Some (set_statusBarText t st3)) = Some st5 ->
            WellStored st5).
  { intros t H. apply (ws_hide_if _ _ H).
    revert H3. apply ws_same; reflexivity. }
  destruct (currentChapter st3) as [i|]; [|apply (Htext _ E)].
  destruct (chapters file); [apply (Htext _ E)|].
  apply (ws_closePreviewAndRefresh _ _ _ E), ws_display, H3.
Qed.

Lemma ws_leave (fileId : jsstring) (st : State) :
  WellStored st -> WellStored (leave fileId st).
Proof.
  intros HW. unfold leave. destruct (current st) as [cf|]; [|exact HW].
  destruct (negb _); [apply ws_saveFileReadingPosition|]; exact HW.
Qed.

Lemma ws_selectFile (fileId : jsstring) (st st' : State) :
  _selectFileFromList fileId st = Some st' -> WellStored st -> WellStored st'.
Proof.
  destruct (findIndex (fun f => sameId (id f) fileId) (files st)) as [r|] eqn:Hr.
  - destruct (findIndex_Some _ _ _ Hr) as (f & Hf & _).
    rewrite (select_found _ _ _ _ Hr Hf).
    destruct (status f); try (intros [= <-]; auto).
    intros H HW.
    assert (Hok : storedOk f).
    { destruct HW as (_ & H2 & _).
      apply (proj1 (Forall_lookup _ _) H2 r f Hf). }
    apply (ws_enter _ _ _ _ Hok H), ws_leave, HW.
  - rewrite (select_absent _ _ Hr). intros [= <-]. auto.
Qed.

Lemma ws_cleared (st st1 : State) :
  Forall storedOk (files st1) -> storage st1 = storage st ->
  currentChapter st1 = None -> WellStored st -> WellStored st1.
Proof.
  intros Hf Hs Hc (_ & _ & H3). split; [rewrite Hc; exact I|].
  split; [exact Hf|]. rewrite Hs. exact H3.
Qed.

Lemma ws_removeFile (fileId : jsstring) (st : State) :
  WellStored st -> WellStored (_removeFile fileId st).
Proof.
  intros HW. unfold _removeFile.
  destruct (findIndex _ (files st)) as [index|]; [|exact HW].
  apply ws_saveCurrentState.
  assert (Hd : Forall storedOk (delete index (files st)))
    by (apply Forall_delete, HW).
  destruct (current st) as [cf|]; [destruct (sameId (id cf) fileId)|].
  - apply (ws_cleared st); [exact Hd|reflexivity..|exact HW].
  - apply (wellStored_intro st); [reflexivity|exact Hd|reflexivity|exact HW].
  - apply (wellStored_intro st); [reflexivity|exact Hd|reflexivity|exact HW].
Qed.

Lemma Forall_List_filter {A} (P : A -> Prop) (p : A -> bool) (l : list A) :
  Forall P l -> Forall P (List.filter p l).
Proof.
  induction 1 as [|a l Ha _ IH]; simpl; [constructor|].
  destruct (p a); [constructor|]; assumption.
Qed.

Lemma ws_cleanup (st : State) :
  WellStored st -> WellStored (_cleanupMissingFiles st).
Proof.
  intros HW. unfold _cleanupMissingFiles. apply ws_saveCurrentState.
  assert (Hd : Forall storedOk (List.filter available (files st)))
    by (apply Forall_List_filter, HW).
  destruct (current st) as [cf|]; [destruct (available cf)|].
  - apply (wellStored_intro st); [reflexivity|exact Hd|reflexivity|exact HW].
  - apply (ws_cleared st); [exact Hd|reflexivity..|exact HW].
  - apply (wellStored_intro st); [reflexivity|exact Hd|reflexivity|exact HW].
Qed.

Lemma ws_paste (fmt : Z -> jsstring) (content : jsstring) (st : State) :
  WellStored st -> WellStored (_loadPastedContent fmt content st).
Proof.
  intros (_ & H2 & H3). unfold _loadPastedContent. apply ws_saveCurrentState.
  split; [|split; [|exact H3]].
  - simpl. destruct (0 <? _)%nat; simpl; [lia|exact I].
  - simpl. apply Forall_app. split; [exact H2|].
    constructor; [exact I|constructor].
Qed.

Lemma files_show (st : State) :
  files (showChapterPreview st) = files st
  /\ currentChapter (showChapterPreview st) = currentChapter st.
Proof.
  unfold showChapterPreview.
  destruct (current st) as [f|]; [|auto].
  destruct (currentChapter st) as [i|] eqn:Hi; [|auto].
  destruct (chapterAt f i); [|auto].
  cbv zeta.
  change (webviewPanel (set_lastScrollPercentage _ (set_lastCharOffset _ st)))
    with (webviewPanel st).
  destruct (webviewPanel st); simpl; auto.
Qed.

Lemma ws_show (st : State) : WellStored st -> WellStored (showChapterPreview st).
Proof.
  destruct (files_show st) as [Hf Hc]. destruct (host_show st) as [Hh _].
  apply ws_same; [exact Hc|exact Hf|apply storage_host, Hh].
Qed.

Lemma ws_response (p : spec_float) (c : option Z) (st st' : State) :
  _handleScrollPositionResponse p c st = Some st' ->
  WellStored st -> WellStored st'.
Proof.
  unfold _handleScrollPositionResponse.
  destruct (current st) as [f|]; [|intros [= <-]; auto].
  destruct (currentChapter st) as [i|] eqn:Hi; [|intros [= <-]; auto].
  destruct (chapterAt f i) as [ch|]; [|intros [= <-]; auto].
  cbv zeta. destruct (respondedOffset c p _) as [v|]; [|discriminate].
  unfold mbind, option_bind. intros H HW. apply (inj Some) in H. subst st'.
  apply ws_saveCurrentState, ws_display.
  revert HW. apply ws_same; reflexivity.
Qed.

Lemma ws_opacity (st : State) :
  WellStored st -> WellStored (_applyOpacityToStatusBar st).
Proof.
  intros HW. unfold _applyOpacityToStatusBar.
  destruct (currentChapter st) eqn:Hi; [|exact HW].
  destruct (current st); [apply ws_display|]; exact HW.
Qed.

Lemma ws_act (fmt : Z -> jsstring) (a : Action) (st st' : State) :
  (forall disk basename, a <> Handle (RestoreEnds disk basename)) ->
  act fmt a st = Some st' -> WellStored st -> WellStored st'.
Proof.
  intros Hne. destruct a; simpl.
  - apply ws_event. intros d b ->. exact (Hne d b eq_refl).
  - apply ws_selectFile.
  - intros [= <-]. apply ws_removeFile.
  - intros [= <-]. apply ws_cleanup.
  - intros [= <-]. apply ws_paste.
  - intros [= <-]. apply ws_opacity.
  - unfold toggleChapterPreview. destruct (isVisible st);
      [apply ws_hide|intros [= <-]; apply ws_show].
  - intros [= <-]. apply ws_show.
  - apply ws_response.
Qed.

(** *** The cursor stays in range over the whole command surface *)

Lemma commit_total (st : State) (ch : Chapter) :
  commitSafe st -> is_Some (previewCommit st ch).
Proof.
  unfold previewCommit. intros [H|[H|H]].
  - apply committedOffset_total, H.
  - rewrite (committedOffset_probed _ _ _ H). eauto.
  - destruct (Z.eq_dec (lastCharOffset st) 0) as [E|E].
    + rewrite E, (committedOffset_zero _ _ H). eauto.
    + rewrite (committedOffset_probed _ _ _ E). eauto.
Qed.

Lemma commitSafe_preview (st st' : State) :
  preview st' = preview st -> commitSafe st -> commitSafe st'.
Proof.
  intros H. unfold commitSafe.
  pose proof (f_equal (fun v => snd (fst v)) H) as Hp.
  pose proof (f_equal snd H) as Hc. simpl in Hp, Hc.
  rewrite Hp, Hc. auto.
Qed.

Lemma calm_view (st st' : State) :
  view st' = view st -> scrollOffset st' = scrollOffset st ->
  Calm st -> Calm st'.
Proof.
  intros Hv Ho (H1 & H2 & H3). split; [|split].
  - rewrite (visible_of_view _ _ Hv). exact H1.
  - apply (commitSafe_preview st); [apply preview_view, Hv|exact H2].
  - apply (inRange_view st); assumption.
Qed.

Lemma inRange_loaded_intro (st : State) (ch : Chapter) :
  loaded st = Some ch -> 0 <= scrollOffset st <= maxScrollOffsetOf ch ->
  inRange st.
Proof. intros Hl Hr. unfold inRange. rewrite Hl. exact Hr. Qed.

Lemma loaded_None (st : State) :
  currentChapter st = None \/ current st = None -> loaded st = None.
Proof.
  rewrite loaded_current. intros [-> | ->]; [|reflexivity].
  destruct (current st); reflexivity.
Qed.

Lemma inRange_unloaded_intro (st : State) :
  currentChapter st = None \/ current st = None -> inRange st.
Proof. intros H. unfold inRange. rewrite (loaded_None st H). exact H. Qed.

Lemma calm_display (ch : Chapter) (st : State) :
  statusBarVisible st = true -> commitSafe st -> loaded st = Some ch ->
  Calm (_displayChapterText (Some ch) st)
  /\ loaded (_displayChapterText (Some ch) st) = Some ch.
Proof.
  intros Hvis Hsafe Hl. destruct (view_display (Some ch) st) as [Hv _].
  assert (Hl' : loaded (_displayChapterText (Some ch) st) = Some ch)
    by (rewrite (view_loaded _ _ Hv); exact Hl).
  split; [|exact Hl']. split; [|split].
  - rewrite (visible_of_view _ _ Hv). exact Hvis.
  - apply (commitSafe_preview st); [apply preview_view, Hv|exact Hsafe].
  - apply (inRange_loaded_intro _ ch Hl').
    rewrite (offset_display ch st Hvis). apply clampOffset_range.
Qed.

Lemma calm_saveCurrentState (st : State) :
  Calm st -> Calm (_saveCurrentState st).
Proof. apply calm_view; apply view_saveCurrentState. Qed.

Lemma calm_sync (st : State) :
  Calm st ->
  exists st', _syncLastScrollPositionToStatusBar st = Some st'
    /\ Calm st' /\ view st' = view st.
Proof.
  intros HC. pose proof HC as (Hvis & Hsafe & Hr).
  destruct (loaded st) as [ch|] eqn:Hl.
  - destruct (commit_total st ch Hsafe) as [v Hv].
    destruct (sync_commits st ch v Hl Hv) as (st' & Hs & Hview & Ho).
    exists st'. split; [exact Hs|]. split; [|exact Hview].
    split; [rewrite (visible_of_view _ _ Hview); exact Hvis|].
    split; [apply (commitSafe_preview st);
            [apply preview_view, Hview|exact Hsafe]|].
    apply (inRange_loaded_intro _ ch);
      [rewrite (view_loaded _ _ Hview); exact Hl|].
    rewrite Ho. apply committedOffset_range in Hv.
    rewrite maxScrollOffset_preview. exact Hv.
  - exists st. rewrite (sync_nothing_loaded st Hl). auto.
Qed.

Lemma calm_reset (st : State) :
  Calm st ->
  Calm (set_lastCharOffset 0
          (set_lastScrollPercentage (S754_zero false)
             (set_isVisible false (set_webviewPanel false st)))).
Proof.
  intros (Hvis & _ & Hr). split; [exact Hvis|].
  split; [left; reflexivity|]. exact Hr.
Qed.

Lemma calm_dispose (st : State) :
  Calm st ->
  exists st', _onChapterPreviewDisposed st = Some st' /\ Calm st'.
Proof.
  intros HC. destruct (calm_sync st HC) as (st1 & Hs & HC1 & _).
  unfold _onChapterPreviewDisposed. rewrite Hs. simpl.
  eexists. split; [reflexivity|]. apply calm_reset, HC1.
Qed.

Lemma calm_hide (st : State) :
  Calm st -> exists st', hide st = Some st' /\ Calm st'.
Proof.
  intros HC. unfold hide. destruct (webviewPanel st); [|eauto].
  destruct (calm_sync st HC) as (st1 & Hs & HC1 & _). rewrite Hs. simpl.
  destruct (calm_dispose st1 HC1) as (st2 & Hd & HC2). rewrite Hd. simpl.
  eexists. split; [reflexivity|].
  destruct HC2 as (Hvis & Hsafe & Hr). split; [exact Hvis|].
  split; [|exact Hr].
  unfold commitSafe in *. exact Hsafe.
Qed.

Lemma calm_hide_if (st : State) :
  Calm st ->
  exists st', (if previewIsVisible st then hide st else Some st) = Some st'
    /\ Calm st'.
Proof. intros HC. destruct (previewIsVisible st); [apply calm_hide, HC|eauto]. Qed.

Lemma calm_closePreviewAndRefresh (ch : Chapter) (st : State) :
  Calm st ->
  exists st', closePreviewAndRefresh (Some ch) st = Some st' /\ Calm st'.
Proof.
  intros HC. unfold closePreviewAndRefresh.
  destruct (previewIsVisible st); [|eauto].
  destruct (calm_hide st HC) as (st1 & Hh & HC1). rewrite Hh. simpl.
  eexists. split; [reflexivity|].
  revert HC1. apply calm_view; reflexivity.
Qed.

Lemma calm_stepForward (size : Z) (st : State) :
  Calm st -> Calm (stepForward size st).
Proof.
  intros HC. destruct (loaded st) as [ch|] eqn:Hch.
  - destruct HC as (Hvis & Hsafe & Hr).
    destruct (stepForward_spec size st ch Hvis Hch) as [Hv Ho].
    split; [rewrite (visible_of_view _ _ Hv); exact Hvis|].
    split; [apply (commitSafe_preview st);
            [apply preview_view, Hv|exact Hsafe]|].
    apply (inRange_loaded_intro _ ch);
      [rewrite (view_loaded _ _ Hv); exact Hch|].
    rewrite Ho. apply (inRange_loaded _ ch) in Hr; [|exact Hch].
    destruct (scrollOffset st <? maxScrollOffsetOf ch);
      [apply clampOffset_range|exact Hr].
  - pose proof HC as (_ & _ & Hr). apply inRange_unloaded in Hr; [|exact Hch].
    rewrite (proj1 (step_unloaded size st Hr)). exact HC.
Qed.

Lemma calm_stepBack (size : Z) (st : State) :
  Calm st -> Calm (stepBack size st).
Proof.
  intros HC. destruct (loaded st) as [ch|] eqn:Hch.
  - destruct HC as (Hvis & Hsafe & Hr).
    destruct (stepBack_spec size st ch Hvis Hch) as [Hv Ho].
    split; [rewrite (visible_of_view _ _ Hv); exact Hvis|].
    split; [apply (commitSafe_preview st);
            [apply preview_view, Hv|exact Hsafe]|].
    apply (inRange_loaded_intro _ ch);
      [rewrite (view_loaded _ _ Hv); exact Hch|].
    rewrite Ho. apply (inRange_loaded _ ch) in Hr; [|exact Hch].
    destruct (0 <? scrollOffset st); [apply clampOffset_range|exact Hr].
  - pose proof HC as (_ & _ & Hr). apply inRange_unloaded in Hr; [|exact Hch].
    rewrite (proj2 (step_unloaded size st Hr)). exact HC.
Qed.

Lemma calm_select (i : option Z) (st : State) :
  Calm st -> exists st', _selectChapter i st = Some st' /\ Calm st'.
Proof.
  intros HC. destruct (current st) as [f|] eqn:Hf.
  2:{ exists st. split; [apply select_no_document, Hf|exact HC]. }
  destruct i as [idx|].
  2:{ exists st. split; [apply (select_out_of_range None st f Hf), I|exact HC]. }
  destruct (Z.le_gt_cases 0 idx) as [H0|H0].
  2:{ exists st. split; [|exact HC].
      apply (select_out_of_range (Some idx) st f Hf). lia. }
  destruct (Z.lt_ge_cases idx (Z.of_nat (length (chapters f)))) as [H1|H1].
  2:{ exists st. split; [|exact HC].
      apply (select_out_of_range (Some idx) st f Hf). lia. }
  destruct (chapterAt_in_range f idx (conj H0 H1)) as [ch Hch].
  destruct HC as (Hvis & Hsafe & _).
  unfold _selectChapter. rewrite Hf.
  replace ((0 <=? idx) && (idx <? Z.of_nat (length (chapters f)))) with true
    by (symmetry; apply andb_true_intro; split;
        [apply Z.leb_le | apply Z.ltb_lt]; lia).
  rewrite Hch. cbv zeta.
  set (st1 := match currentChapter st with Some c => _ | None => st end).
  assert (Q1 : quiet st st1).
  { subst st1. destruct (currentChapter st) as [c|]; [|apply quiet_refl].
    destruct (negb (c =? idx));
      [apply quiet_saveChapterPosition | apply quiet_refl]. }
  destruct Q1 as (V1 & _ & _).
  set (st3 := set_scrollOffset _ (set_currentPage 0 _)).
  assert (B3 : base st3 = base st) by exact (view_base _ _ V1).
  assert (R3 : preview st3 = preview st) by exact (f_equal snd V1).
  assert (L3 : loaded st3 = Some ch).
  { unfold loaded. rewrite (base_chapters _ _ B3), (current_Some _ _ Hf).
    exact Hch. }
  assert (Vis3 : statusBarVisible st3 = true).
  { rewrite <- Hvis. exact (f_equal (fun b => fst (fst (fst b))) B3). }
  destruct (calm_display ch st3 Vis3 (commitSafe_preview _ _ R3 Hsafe) L3)
    as [HC4 _].
  apply calm_saveCurrentState in HC4.
  set (st5 := _saveCurrentState (_displayChapterText (Some ch) st3)) in *.
  destruct (previewIsVisible st5); [|eauto].
  destruct (calm_hide st5 HC4) as (st6 & Hh & HC6). rewrite Hh. simpl.
  eexists. split; [reflexivity|].
  revert HC6. apply calm_view; reflexivity.
Qed.

Lemma calm_fireTimer (h : nat) (st : State) : Calm st -> Calm (fireTimer h st).
Proof.
  intros HC. unfold fireTimer.
  destruct (List.find _ (timers st)) as [t|]; [|exact HC].
  destruct (due t <=? now st); [|exact HC].
  destruct (callback t) as [|ch']; unfold runCallback.
  - revert HC. apply calm_view; reflexivity.
  - destruct HC as (Hvis & Hsafe & Hr).
    destruct (view_display (Some ch') (clearTimeout h st)) as [Hv _].
    change (view (clearTimeout h st)) with (view st) in Hv.
    split; [rewrite (visible_of_view _ _ Hv); exact Hvis|].
    split; [apply (commitSafe_preview st);
            [apply preview_view, Hv|exact Hsafe]|].
    unfold inRange in *. rewrite (view_loaded _ _ Hv), (chapter_view _ _ Hv).
    rewrite offset_display by exact Hvis.
    change (scrollOffset (clearTimeout h st)) with (scrollOffset st).
    destruct (loaded st) as [ch|].
    + unfold clampOffset, maxScrollOffsetOf in *. lia.
    + destruct Hr as [Hr|Hr]; [left; exact Hr|right].
      apply (current_view st); assumption.
Qed.

(** *** Reading never edits a document *)

Lemma library_files (st st' : State) :
  files st' = files st -> library st' = library st.
Proof. unfold library. intros ->. reflexivity. Qed.

Lemma library_display (chapter : option Chapter) (st : State) :
  library (_displayChapterText chapter st) = library st.
Proof. apply library_files, files_display. Qed.

Lemma library_sync (st st' : State) :
  _syncLastScrollPositionToStatusBar st = Some st' -> library st' = library st.
Proof.
  unfold _syncLastScrollPositionToStatusBar.
  destruct (current st) as [f|]; [|intros [= <-]; reflexivity].
  destruct (currentChapter st) as [i|]; [|intros [= <-]; reflexivity].
  destruct (chapterAt f i) as [ch|]; [|intros [= <-]; reflexivity].
  cbv zeta. destruct (committedOffset _ _ _) as [v|]; [|discriminate].
  intros H. apply (inj Some) in H. subst st'.
  change (library (snd (setTimeout ?cb ?d ?s))) with (library s).
  rewrite library_saveCurrentState.
  rewrite (proj1 (library_saveChapterPosition _ _ _)).
  rewrite library_display. reflexivity.
Qed.

Lemma library_dispose (st st' : State) :
  _onChapterPreviewDisposed st = Some st' -> library st' = library st.
Proof.
  unfold _onChapterPreviewDisposed.
  destruct (_syncLastScrollPositionToStatusBar st) as [st1|] eqn:E;
    [|discriminate].
  simpl. intros [= <-]. apply (library_sync _ _ E).
Qed.

Lemma library_hide (st st' : State) :
  hide st = Some st' -> library st' = library st.
Proof.
  unfold hide. destruct (webviewPanel st); [|intros [= <-]; reflexivity].
  destruct (_syncLastScrollPositionToStatusBar st) as [st1|] eqn:E1;
    [|discriminate].
  simpl. destruct (_onChapterPreviewDisposed st1) as [st2|] eqn:E2;
    [|discriminate].
  simpl. intros [= <-].
  change (library st2 = library st).
  rewrite (library_dispose _ _ E2). apply (library_sync _ _ E1).
Qed.

Lemma library_hide_if (st st' : State) :
  (if previewIsVisible st then hide st else Some st) = Some st' ->
  library st' = library st.
Proof.
  destruct (previewIsVisible st); [apply library_hide|].
  intros [= <-]. reflexivity.
Qed.

Lemma library_afterStep (chapter : option Chapter) (st : State) :
  library (afterStep chapter st) = library st.
Proof.
  unfold afterStep. rewrite library_saveCurrentState.
  rewrite (proj1 (library_saveChapterPosition _ _ _)).
  apply library_display.
Qed.

Lemma library_stepBack (size : Z) (st : State) :
  library (stepBack size st) = library st.
Proof.
  unfold stepBack.
  destruct (currentChapter st) as [i|]; [|reflexivity].
  destruct (current st) as [f|]; [|reflexivity].
  destruct (0 <? scrollOffset st); [|reflexivity].
  rewrite library_afterStep. reflexivity.
Qed.

Lemma library_stepForward (size : Z) (st : State) :
  library (stepForward size st) = library st.
Proof.
  unfold stepForward.
  destruct (currentChapter st) as [i|]; [|reflexivity].
  destruct (current st) as [f|]; [|reflexivity].
  destruct (chapterAt f i) as [ch|]; [|reflexivity].
  destruct (scrollOffset st <? maxScrollOffsetOf ch); [|reflexivity].
  rewrite library_afterStep. reflexivity.
Qed.

Lemma library_closePreviewAndRefresh (chapter : option Chapter)
    (st st' : State) :
  closePreviewAndRefresh chapter st = Some st' -> library st' = library st.
Proof.
  unfold closePreviewAndRefresh.
  destruct (previewIsVisible st); [|intros [= <-]; reflexivity].
  destruct (hide st) as [st1|] eqn:Hh; [|discriminate].
  destruct chapter as [ch|]; [|discriminate].
  simpl. intros [= <-]. apply (library_hide _ _ Hh).
Qed.

Lemma library_select (i : option Z) (st st' : State) :
  _selectChapter i st = Some st' -> library st' = library st.
Proof.
  unfold _selectChapter.
  destruct (current st) as [f|]; [|intros [= <-]; reflexivity].
  destruct i as [idx|]; [|intros [= <-]; reflexivity].
  destruct (_ && _); [|intros [= <-]; reflexivity].
  cbv zeta.
  set (st1 := match currentChapter st with Some c => _ | None => st end).
  assert (H1 : library st1 = library st).
  { subst st1. destruct (currentChapter st) as [c|]; [|reflexivity].
    destruct (negb (c =? idx)); [|reflexivity].
    apply library_saveChapterPosition. }
  set (st3 := set_scrollOffset _ (set_currentPage 0 _)).
  set (st5 := _saveCurrentState (_displayChapterText (chapterAt f idx) st3)).
  assert (H5 : library st5 = library st).
  { subst st5. rewrite library_saveCurrentState, library_display.
    exact H1. }
  destruct (previewIsVisible st5); [|intros [= <-]; exact H5].
  destruct (hide st5) as [st6|] eqn:Hh; [|discriminate]. simpl.
  pose proof (library_hide _ _ Hh) as H6.
  destruct (chapterAt f idx); intros [= <-]; rewrite <- H5, <- H6;
    reflexivity.
Qed.

Lemma library_fireTimer (h : nat) (st : State) :
  library (fireTimer h st) = library st.
Proof.
  unfold fireTimer.
  destruct (List.find _ (timers st)) as [t|]; [|reflexivity].
  destruct (due t <=? now st); [|reflexivity].
  destruct (callback t); unfold runCallback; [reflexivity|].
  rewrite library_display. reflexivity.
Qed.

Lemma library_event (e : Event) (st st' : State) :
  (forall disk basename, e <> RestoreEnds disk basename) ->
  handleEvent e st = Some st' -> library st' = library st.
Proof.
  intros Hne. destruct e; simpl.
  - destruct c; simpl; try (intros [= <-]);
      [apply library_stepBack|apply library_stepForward|apply library_stepBack
      |apply library_stepForward|apply library_select].
  - intros [= <-]. apply library_fireTimer.
  - intros [= <-]. reflexivity.
  - intros [= <-]. reflexivity.
  - apply library_hide.
  - apply library_dispose.
  - intros [= <-]. reflexivity.
  - exfalso. exact (Hne _ _ eq_refl).
Qed.

Lemma library_enter (r : nat) (file : File) (st st' : State) :
  enter r file st = Some st' -> library st' = library st.
Proof.
  unfold enter. cbv zeta.
  set (st3 := _restoreFileReadingPosition file (set_currentFile (Some r) st)).
  assert (H3 : library st3 = library st).
  { apply library_files.
    destruct (restore_landing file (set_currentFile (Some r) st))
      as (_ & _ & Hfs & _). exact Hfs. }
  destruct (match currentChapter st3, chapters file with
            | Some i, _ :: _ => _
            | _, _ => _
            end) as [st5|] eqn:E; [|discriminate].
  unfold mbind, option_bind. intros H. apply (inj Some) in H. subst st'.
  rewrite library_saveCurrentState, <- H3.
  assert (Htext : forall t,
            (if previewIsVisible (set_statusBarText t st3)
             then hide (set_statusBarText t st3)
             else Some (set_statusBarText t st3)) = Some st5 ->
            library st5 = library st3).
  { intros t H. apply (library_hide_if _ _ H). }
  destruct (currentChapter st3) as [i|]; [|apply (Htext _ E)].
  destruct (chapters file); [apply (Htext _ E)|].
  rewrite (library_closePreviewAndRefresh _ _ _ E). apply library_display.
Qed.

Lemma library_selectFile (fileId : jsstring) (st st' : State) :
  _selectFileFromList fileId st = Some st' -> library st' = library st.
Proof.
  destruct (findIndex (fun f => sameId (id f) fileId) (files st)) as [r|] eqn:Hr.
  - destruct (findIndex_Some _ _ _ Hr) as (f & Hf & _).
    rewrite (select_found _ _ _ _ Hr Hf).
    destruct (status f); try (intros [= <-]; reflexivity).
    intros H. rewrite (library_enter _ _ _ _ H). apply leave_library.
  - rewrite (select_absent _ _ Hr). intros [= <-]. reflexivity.
Qed.

Lemma library_response (p : spec_float) (c : option Z) (st st' : State) :
  _handleScrollPositionResponse p c st = Some st' -> library st' = library st.
Proof.
  unfold _handleScrollPositionResponse.
  destruct (current st) as [f|]; [|intros [= <-]; reflexivity].
  destruct (currentChapter st) as [i|]; [|intros [= <-]; reflexivity].
  destruct (chapterAt f i) as [ch|]; [|intros [= <-]; reflexivity].
  cbv zeta. destruct (respondedOffset c p _) as [v|]; [|discriminate].
  unfold mbind, option_bind. intros H. apply (inj Some) in H. subst st'.
  rewrite library_saveCurrentState, library_display. reflexivity.
Qed.

Lemma library_act (fmt : Z -> jsstring) (a : Action) (st st' : State) :
  reads a = true -> act fmt a st = Some st' -> library st' = library st.
Proof.
  destruct a as [e| | | | | | | |]; simpl; try discriminate; intros Ha.
  - apply library_event. intros d b ->. discriminate.
  - apply library_selectFile.
  - intros [= <-]. unfold _applyOpacityToStatusBar.
    destruct (currentChapter st); [|reflexivity].
    destruct (current st); [apply library_display|reflexivity].
  - unfold toggleChapterPreview. destruct (isVisible st);
      [apply library_hide|].
    intros [= <-]. apply library_files, files_show.
  - intros [= <-]. apply library_files, files_show.
  - apply library_response.
Qed.

(** [X20] Whatever is done to the reader short of adding, removing or
    restoring documents, the identity, the type, the text, the chapters
    and the status of every document stay as they were. *)
Theorem reading_never_edits_documents (formatTimestamp : Z -> jsstring)
    (actions : list Action) (st st' : State) :
  Forall (fun a => reads a = true) actions ->
  actAll formatTimestamp actions st = Some st' ->
  map fixedPart (files st') = map fixedPart (files st).
Proof.
  intros Hall. revert st. induction Hall as [|a rest Ha _ IH]; intros st; simpl.
  - intros [= <-]. reflexivity.
  - destruct (act formatTimestamp a st) as [st1|] eqn:E; [|discriminate].
    simpl. intros H. rewrite (IH _ H).
    apply (library_act _ _ _ _ Ha E).
Qed.

Lemma reading_never_edits_documents_witness :
  exists st',
    actAll Shelf.stamp
      [SelectFile (js "1700000000001"); ToggleChapterPreview;
       Handle (Do NextPage); ToggleChapterPreview;
       Handle (Do (SelectChapter (Some 0)))]
      Shelf.twoBooks = Some st'
    /\ map fixedPart (files st') = map fixedPart (files Shelf.twoBooks).
Proof.
  destruct (actAll Shelf.stamp
              [SelectFile (js "1700000000001"); ToggleChapterPreview;
               Handle (Do NextPage); ToggleChapterPreview;
               Handle (Do (SelectChapter (Some 0)))]
              Shelf.twoBooks) as [st'|] eqn:E.
  - exists st'. split; [reflexivity|].
    apply (reading_never_edits_documents Shelf.stamp
             [SelectFile (js "1700000000001"); ToggleChapterPreview;
              Handle (Do NextPage); ToggleChapterPreview;
              Handle (Do (SelectChapter (Some 0)))]
             Shelf.twoBooks st'); [repeat constructor|exact E].
  - vm_compute in E. discriminate.
Defined.

(** Entering a document whose stored chapter index is not negative. *)
Lemma calm_arrive (file : File) (st3 : State) :
  statusBarVisible st3 = true -> commitSafe st3 ->
  current st3 = Some file -> storedOk file ->
  currentChapter st3 = fst (landing file) ->
  match currentChapter st3, chapters file with
  | Some i, _ :: _ =>
    exists ch, chapterAt file i = Some ch
      /\ Calm (_displayChapterText (Some ch) st3)
  | Some i, [] => False
  | None, _ => forall t, Calm (set_statusBarText t st3)
  end.
Proof.
  intros Hvis Hsafe Hcur Hok Hc.
  destruct (currentChapter st3) as [i|] eqn:Hi.
  - symmetry in Hc. pose proof (landing_chapter file i Hc Hok) as Hrange.
    destruct (chapterAt_in_range file i Hrange) as [ch Hch].
    destruct (chapters file) as [|c0 cs] eqn:Ecs; [simpl in Hrange; lia|].
    exists ch. split; [exact Hch|].
    apply calm_display; [exact Hvis|exact Hsafe|].
    rewrite loaded_current, Hcur, Hi. exact Hch.
  - intros t. split; [exact Hvis|]. split; [exact Hsafe|].
    apply inRange_unloaded_intro. left. exact Hi.
Qed.

Lemma calm_enter (r : nat) (file : File) (st1 : State) :
  statusBarVisible st1 = true -> commitSafe st1 ->
  files st1 !! r = Some file -> storedOk file ->
  exists st', enter r file st1 = Some st' /\ Calm st'.
Proof.
  intros Hvis Hsafe Hfile Hok. unfold enter. cbv zeta.
  set (st2 := set_currentFile (Some r) st1).
  destruct (restore_landing file st2)
    as (Hch & _ & Hfs & Hcf & Hpv & _ & Hv & _).
  set (st3 := _restoreFileReadingPosition file st2) in *.
  assert (Hcur3 : current st3 = Some file).
  { unfold current. rewrite Hcf, Hfs. exact Hfile. }
  assert (Hvis3 : statusBarVisible st3 = true) by (rewrite Hv; exact Hvis).
  assert (Hsafe3 : commitSafe st3)
    by (apply (commitSafe_preview st2); [exact Hpv|exact Hsafe]).
  pose proof (calm_arrive file st3 Hvis3 Hsafe3 Hcur3 Hok Hch) as Harr.
  destruct (currentChapter st3) as [i|].
  - destruct (chapters file) as [|c0 cs]; [contradiction|].
    destruct Harr as (ch & Hc & HC4). rewrite Hc.
    destruct (calm_closePreviewAndRefresh ch _ HC4) as (st5 & H5 & HC5).
    rewrite H5. simpl. eexists. split; [reflexivity|].
    apply calm_saveCurrentState, HC5.
  - assert (Htext : forall t,
              exists st', (st5 ← (if previewIsVisible (set_statusBarText t st3)
                                  then hide (set_statusBarText t st3)
                                  else Some (set_statusBarText t st3));
                           Some (_saveCurrentState st5)) = Some st'
                /\ Calm st').
    { intros t. destruct (calm_hide_if _ (Harr t)) as (st5 & H5 & HC5).
      rewrite H5. simpl. eexists. split; [reflexivity|].
      apply calm_saveCurrentState, HC5. }
    destruct (chapters file); apply Htext.
Qed.

Lemma calm_selectFile (fileId : jsstring) (st : State) :
  Steady st ->
  exists st', _selectFileFromList fileId st = Some st' /\ Calm st'.
Proof.
  intros [HC HW].
  destruct (findIndex (fun f => sameId (id f) fileId) (files st)) as [r|] eqn:Hr.
  - destruct (findIndex_Some _ _ _ Hr) as (f & Hf & Hid & _).
    apply sameId_true in Hid.
    rewrite (select_found _ _ _ _ Hr Hf).
    destruct (status f); eauto.
    pose proof (calm_view _ _ (proj1 (leave_quiet fileId st))
                  (proj2 (proj2 (leave_quiet fileId st))) HC)
      as (Hvis & Hsafe & _).
    apply calm_enter; [exact Hvis|exact Hsafe| |].
    + apply leave_lookup; assumption.
    + destruct HW as (_ & H2 & _).
      apply (proj1 (Forall_lookup _ _) H2 r f Hf).
  - rewrite (select_absent _ _ Hr). eauto.
Qed.

Lemma frame_saveCurrentState (st : State) :
  statusBarVisible (_saveCurrentState st) = statusBarVisible st
  /\ preview (_saveCurrentState st) = preview st.
Proof.
  destruct (view_saveCurrentState st) as [Hv _].
  split; [apply visible_of_view, Hv|apply preview_view, Hv].
Qed.

Lemma frame_removeFile (fileId : jsstring) (st : State) :
  statusBarVisible (_removeFile fileId st) = statusBarVisible st
  /\ preview (_removeFile fileId st) = preview st.
Proof.
  unfold _removeFile. destruct (findIndex _ (files st)); [|auto].
  match goal with
  | |- context [_saveCurrentState ?s] =>
    destruct (frame_saveCurrentState s) as [-> ->]
  end.
  destruct (current st) as [cf|]; [destruct (sameId (id cf) fileId)|]; auto.
Qed.

Lemma frame_cleanup (st : State) :
  statusBarVisible (_cleanupMissingFiles st) = statusBarVisible st
  /\ preview (_cleanupMissingFiles st) = preview st.
Proof.
  unfold _cleanupMissingFiles.
  match goal with
  | |- context [_saveCurrentState ?s] =>
    destruct (frame_saveCurrentState s) as [-> ->]
  end.
  destruct (current st) as [cf|]; [destruct (available cf)|]; auto.
Qed.

Lemma frame_paste (fmt : Z -> jsstring) (content : jsstring) (st : State) :
  statusBarVisible (_loadPastedContent fmt content st) = statusBarVisible st
  /\ preview (_loadPastedContent fmt content st) = preview st.
Proof.
  unfold _loadPastedContent.
  match goal with
  | |- context [_saveCurrentState ?s] =>
    destruct (frame_saveCurrentState s) as [-> ->]
  end.
  auto.
Qed.

(** A command that leaves the document under the cursor alone, or clears
    the selection, keeps the cursor in range. *)
Lemma calm_kept_or_cleared (st st' : State) :
  statusBarVisible st' = statusBarVisible st -> preview st' = preview st ->
  match current st with
  | Some cf =>
    ((exists cf', current st' = Some cf')
     /\ currentChapter st' = currentChapter st
     /\ scrollOffset st' = scrollOffset st
     /\ loaded st' = loaded st)
    \/ currentChapter st' = None
  | None => current st' = None
  end ->
  Calm st -> Calm st'.
Proof.
  intros Hv Hp H (Hvis & Hsafe & Hr).
  split; [rewrite Hv; exact Hvis|].
  split; [apply (commitSafe_preview st); assumption|].
  destruct (current st) as [cf|] eqn:Hcf.
  - destruct H as [(_ & Hc & Ho & Hl)|Hc].
    + unfold inRange in *. rewrite Hl, Ho, Hc.
      destruct (loaded st); [exact Hr|].
      destruct Hr as [Hr|Hr]; [left; exact Hr|congruence].
    + apply inRange_unloaded_intro. left. exact Hc.
  - apply inRange_unloaded_intro. right. exact H.
Qed.

Lemma calm_removeFile (fileId : jsstring) (st : State) :
  Calm st -> Calm (_removeFile fileId st).
Proof.
  destruct (frame_removeFile fileId st) as [Hv Hp].
  apply calm_kept_or_cleared; [exact Hv|exact Hp|].
  pose proof (removeFile_spec fileId st) as H. cbv zeta in H.
  destruct (findIndex _ (files st)) as [index|].
  - destruct H as [_ H]. destruct (current st) as [cf|]; [|exact H].
    destruct (sameId (id cf) fileId).
    + right. apply H.
    + left. destruct H as ((cf' & Hcf' & _) & Hc & Ho & Hl). eauto.
  - rewrite H. destruct (current st) as [cf|]; [|reflexivity].
    left. eauto.
Qed.

Lemma calm_cleanup (st : State) : Calm st -> Calm (_cleanupMissingFiles st).
Proof.
  destruct (frame_cleanup st) as [Hv Hp].
  apply calm_kept_or_cleared; [exact Hv|exact Hp|].
  pose proof (cleanup_spec st) as (_ & _ & H).
  destruct (current st) as [cf|]; [|exact H].
  destruct (available cf).
  - left. destruct H as ((cf' & Hcf' & _) & Hc & Ho & Hl). eauto.
  - right. apply H.
Qed.

Lemma calm_paste (fmt : Z -> jsstring) (content : jsstring) (st : State) :
  Calm st -> Calm (_loadPastedContent fmt content st).
Proof.
  intros (Hvis & Hsafe & _).
  destruct (frame_paste fmt content st) as [Hv Hp].
  split; [rewrite Hv; exact Hvis|].
  split; [apply (commitSafe_preview st); assumption|].
  apply (paste_spec fmt content st).
Qed.

Lemma calm_show (st : State) : Calm st -> Calm (showChapterPreview st).
Proof.
  intros HC. destruct (loaded st) as [ch|] eqn:Hl.
  - destruct HC as (Hvis & _ & Hr).
    destruct (show_loaded st ch Hl) as (Hb & Hc & Ho & _ & _ & Hco & Hp & _).
    split.
    { rewrite <- Hvis. exact (f_equal (fun b => fst (fst (fst b))) Hb). }
    split.
    { unfold commitSafe. rewrite Hco, Hp.
      destruct (Z.eq_dec (scrollOffset st) 0) as [E|E].
      - right. right. rewrite E. apply percentage_at_start.
      - right. left. exact E. }
    apply (inRange_loaded_intro _ ch);
      [rewrite (loaded_base _ _ Hb Hc); exact Hl|].
    rewrite Ho. apply (inRange_loaded _ ch Hr Hl).
  - rewrite (show_unloaded st Hl). exact HC.
Qed.

Lemma calm_opacity (st : State) : Calm st -> Calm (_applyOpacityToStatusBar st).
Proof.
  intros HC. unfold _applyOpacityToStatusBar.
  destruct (currentChapter st) as [i|] eqn:Hi; [|exact HC].
  destruct (current st) as [f|] eqn:Hf; [|exact HC].
  destruct (chapterAt f i) as [ch|] eqn:Hch; [|exact HC].
  destruct HC as (Hvis & Hsafe & _).
  apply (calm_display ch st Hvis Hsafe).
  rewrite loaded_current, Hf, Hi. exact Hch.
Qed.

Lemma respondedOffset_total (c : option Z) (p : spec_float) (len : Z) :
  soundResponse p c = true -> is_Some (respondedOffset c p len).
Proof.
  unfold soundResponse. intros H. apply andb_prop in H as [Hfin H].
  assert (Hfloor : isPositive p = true ->
            is_Some (toOffset (Math_max 0
              (Math_min (Math_floor (mul p (ofZ len))) (len - 1))))).
  { intros Hpos. pose proof (mul_length_not_nan p len Hfin Hpos) as Hn.
    destruct (mul p (ofZ len)) as [s|s| |s m e]; simpl;
      try destruct s; simpl; eauto. contradiction. }
  unfold respondedOffset. destruct c as [k|].
  - destruct (k =? 0) eqn:E; [|simpl; eauto].
    simpl in H. rewrite orb_false_r in H. apply Hfloor, H.
  - rewrite orb_false_r in H. apply Hfloor, H.
Qed.

Lemma calm_response (p : spec_float) (c : option Z) (st : State) :
  soundResponse p c = true -> Calm st ->
  exists st', _handleScrollPositionResponse p c st = Some st' /\ Calm st'.
Proof.
  intros Hs HC. unfold _handleScrollPositionResponse.
  destruct (current st) as [f|] eqn:Hf; [|eauto].
  destruct (currentChapter st) as [i|] eqn:Hi; [|eauto].
  destruct (chapterAt f i) as [ch|] eqn:Hch; [|eauto].
  cbv zeta.
  destruct (respondedOffset_total c p (Z.of_nat (length (previewText ch))) Hs)
    as [v Hv].
  rewrite Hv. unfold mbind, option_bind. eexists. split; [reflexivity|].
  destruct HC as (Hvis & Hsafe & _).
  apply calm_saveCurrentState.
  assert (Hl : loaded (set_scrollOffset v st) = Some ch).
  { rewrite loaded_current.
    change (current (set_scrollOffset v st)) with (current st).
    change (currentChapter (set_scrollOffset v st)) with (currentChapter st).
    rewrite Hf, Hi. exact Hch. }
  apply (calm_display ch (set_scrollOffset v st) Hvis Hsafe Hl).
Qed.

Lemma calm_scrolled (p : spec_float) (c : option Z) (st : State) :
  isFinite p = true -> Calm st -> Calm (_handleScrollPositionChanged p c st).
Proof.
  intros Hp (Hvis & _ & Hr). split; [exact Hvis|]. split; [left; exact Hp|].
  exact Hr.
Qed.

Lemma calm_act (fmt : Z -> jsstring) (a : Action) (st : State) :
  steadyAction a = true -> Steady st ->
  exists st', act fmt a st = Some st' /\ Calm st'.
Proof.
  intros Ha [HC HW]. destruct a as [e| | | | | | | |]; simpl.
  - destruct e as [c| | | | | | |]; simpl in Ha |- *.
    + destruct c; simpl; eauto using calm_stepBack, calm_stepForward.
      apply calm_select, HC.
    + eauto using calm_fireTimer.
    + eexists. split; [reflexivity|].
      revert HC. apply calm_view; reflexivity.
    + eauto using calm_scrolled.
    + apply calm_hide, HC.
    + apply calm_dispose, HC.
    + eexists. split; [reflexivity|].
      destruct HC as (Hvis & Hsafe & Hr). split; [exact Hvis|].
      split; [exact Hsafe|exact Hr].
    + discriminate.
  - apply calm_selectFile. split; assumption.
  - eauto using calm_removeFile.
  - eauto using calm_cleanup.
  - eauto using calm_paste.
  - eauto using calm_opacity.
  - unfold toggleChapterPreview. destruct (isVisible st);
      [apply calm_hide, HC|eauto using calm_show].
  - eauto using calm_show.
  - apply calm_response; assumption.
Qed.

Lemma steadyAction_not_restore (a : Action) :
  steadyAction a = true ->
  forall disk basename, a <> Handle (RestoreEnds disk basename).
Proof. intros H d b ->. discriminate. Qed.

Lemma steady_act (fmt : Z -> jsstring) (a : Action) (st : State) :
  steadyAction a = true -> Steady st ->
  exists st', act fmt a st = Some st' /\ Steady st'.
Proof.
  intros Ha HS. destruct (calm_act fmt a st Ha HS) as (st' & H & HC).
  exists st'. split; [exact H|]. split; [exact HC|].
  apply (ws_act fmt a st st' (steadyAction_not_restore a Ha) H), HS.
Qed.

(** [X21] From a steady state, every sequence of commands and events
    other than the end of a restore, with sound reports from the panel,
    runs to the end and leaves the reader steady with the cursor inside
    the chapter it is in. *)
Theorem cursor_in_range_over_all_commands (formatTimestamp : Z -> jsstring)
    (actions : list Action) (st : State) :
  Steady st ->
  Forall (fun a => steadyAction a = true) actions ->
  exists st',
    actAll formatTimestamp actions st = Some st'
    /\ Steady st' /\ inRange st'.
Proof.
  intros HS Hall. revert st HS.
  induction Hall as [|a rest Ha _ IH]; intros st HS; simpl.
  - exists st. split; [reflexivity|]. split; [exact HS|apply HS].
  - destruct (steady_act formatTimestamp a st Ha HS) as (st1 & -> & HS1).
    simpl. apply IH, HS1.
Qed.

Lemma cursor_in_range_over_all_commands_witness :
  exists st',
    actAll Shelf.stamp
      [SelectFile (js "1700000000001"); LoadPastedContent (js "Hello there");
       ToggleChapterPreview; Handle (Do NextPage);
       Handle (PreviewScrolled pct62 None); ToggleChapterPreview;
       RemoveFile (js "1700000000000"); CleanupMissingFiles]
      Shelf.twoBooks = Some st'
    /\ inRange st'.
Proof.
  assert (HS : Steady Shelf.twoBooks).
  { split.
    - split; [reflexivity|]. split; [left; reflexivity|].
      unfold inRange. vm_compute. split; discriminate.
    - split; [vm_compute; discriminate|]. split; [|constructor].
      repeat constructor; vm_compute; discriminate. }
  destruct (cursor_in_range_over_all_commands Shelf.stamp
              [SelectFile (js "1700000000001");
               LoadPastedContent (js "Hello there");
               ToggleChapterPreview; Handle (Do NextPage);
               Handle (PreviewScrolled pct62 None); ToggleChapterPreview;
               RemoveFile (js "1700000000000"); CleanupMissingFiles]
              Shelf.twoBooks HS ltac:(repeat constructor))
    as (st' & H & _ & Hr).
  exists st'. split; assumption.
Defined.

Lemma restoreFile_storedOk (disk : jsstring -> DiskEntry)
    (basename : jsstring -> jsstring) (clock : Z) (savedFile : SavedFile) :
  notNegative (sv_lastChapter savedFile) ->
  storedOk (restoreFile disk basename clock savedFile).
Proof.
  intros H. unfold storedOk, restoreFile.
  destruct (sv_type savedFile); [exact H|..];
    (destruct (sv_path savedFile); [exact H|]);
    (destruct (disk _); [exact H|..]);
    (destruct (_loadFileQuietly _ _ _ _ _) as [fileInfo|]; [|exact H]);
    cbn [lastChapter set_chapterPositions set_readingPosition];
    (destruct (sv_lastChapter savedFile) as [lc|]; [|exact H]);
    (destruct (_ <=? lc); [simpl; lia|exact H]).
Qed.

Lemma restored_storedOk (disk : jsstring -> DiskEntry)
    (basename : jsstring -> jsstring) (clock : Z) (saved : list SavedFile) :
  Forall (fun s => notNegative (sv_lastChapter s)) saved ->
  Forall storedOk (map (restoreFile disk basename clock) saved).
Proof.
  induction 1 as [|s ss Hs _ IH]; simpl; constructor;
    [apply restoreFile_storedOk, Hs|exact IH].
Qed.

Lemma steady_text (t : jsstring) (st : State) :
  Steady st -> Steady (set_statusBarText t st).
Proof.
  intros [HC HW]. split.
  - revert HC. apply calm_view; reflexivity.
  - revert HW. apply ws_same; reflexivity.
Qed.

Lemma steady_hide_if (st : State) :
  Steady st ->
  exists st', (if previewIsVisible st then hide st else Some st) = Some st'
    /\ Steady st'.
Proof.
  intros [HC HW]. destruct (calm_hide_if st HC) as (st' & H & HC').
  exists st'. split; [exact H|]. split; [exact HC'|].
  apply (ws_hide_if _ _ H HW).
Qed.

Lemma steady_restoring (b : bool) (st : State) :
  Steady st -> Steady (set_isRestoring b st).
Proof.
  intros [(Hvis & Hsafe & Hr) HW]. split.
  - split; [exact Hvis|]. split; [exact Hsafe|exact Hr].
  - revert HW. apply ws_same; reflexivity.
Qed.

Lemma steady_restoreReadingState (st : State) :
  statusBarVisible st = true -> commitSafe st -> WellStored st ->
  currentFile st = None ->
  exists st', _restoreReadingState st = Some st' /\ Steady st'.
Proof.
  intros Hvis Hsafe HW Hnone.
  assert (HS : Steady st).
  { split; [|exact HW]. split; [exact Hvis|]. split; [exact Hsafe|].
    apply inRange_unloaded_intro. right. unfold current. rewrite Hnone.
    reflexivity. }
  assert (Hready : exists st',
            Some (set_statusBarText ready st) = Some st' /\ Steady st')
    by (eexists; split; [reflexivity|apply steady_text, HS]).
  unfold _restoreReadingState.
  destruct (storedCurrentFileId (storage st)) as [[|x fid]|]; try exact Hready.
  destruct (findIndex _ (files st)) as [r|] eqn:Hr; [|exact Hready].
  destruct (findIndex_Some _ _ _ Hr) as (file & Hfile & _).
  rewrite Hfile. destruct (status file); try exact Hready.
  cbv zeta.
  set (st2 := set_currentFile (Some r) st).
  destruct (restore_landing file st2)
    as (Hch & _ & Hfs & Hcf & Hpv & _ & Hv & _).
  set (st3 := _restoreFileReadingPosition file st2) in *.
  assert (Hok : storedOk file).
  { destruct HW as (_ & H2 & _).
    apply (proj1 (Forall_lookup _ _) H2 r file Hfile). }
  assert (Hcur3 : current st3 = Some file).
  { unfold current. rewrite Hcf, Hfs. exact Hfile. }
  assert (Hvis3 : statusBarVisible st3 = true) by (rewrite Hv; exact Hvis).
  assert (Hsafe3 : commitSafe st3)
    by (apply (commitSafe_preview st2); [exact Hpv|exact Hsafe]).
  assert (HW3 : WellStored st3).
  { apply ws_restore; [exact Hok|]. revert HW. apply ws_same; reflexivity. }
  pose proof (calm_arrive file st3 Hvis3 Hsafe3 Hcur3 Hok Hch) as Harr.
  assert (Htext : forall t,
            Calm (set_statusBarText t st3) ->
            exists st',
              (if previewIsVisible (set_statusBarText t st3)
               then hide (set_statusBarText t st3)
               else Some (set_statusBarText t st3)) = Some st'
              /\ Steady st').
  { intros t HC. apply steady_hide_if. split; [exact HC|].
    revert HW3. apply ws_same; reflexivity. }
  destruct (currentChapter st3) as [i|].
  - destruct (chapters file) as [|c0 cs]; [contradiction|].
    destruct Harr as (ch & Hc & HC4). rewrite Hc.
    apply steady_hide_if. split; [exact HC4|apply ws_display, HW3].
  - destruct (chapters file); apply Htext, Harr.
Qed.

Lemma library_restoreReadingState (st st' : State) :
  _restoreReadingState st = Some st' -> library st' = library st.
Proof.
  unfold _restoreReadingState.
  destruct (storedCurrentFileId (storage st)) as [[|x fid]|];
    try (intros [= <-]; reflexivity).
  destruct (findIndex _ (files st)) as [r|]; [|intros [= <-]; reflexivity].
  destruct (files st !! r) as [file|]; [|intros [= <-]; reflexivity].
  destruct (status file); try (intros [= <-]; reflexivity).
  cbv zeta.
  set (st3 := _restoreFileReadingPosition file (set_currentFile (Some r) st)).
  assert (H3 : library st3 = library st).
  { apply library_files.
    destruct (restore_landing file (set_currentFile (Some r) st))
      as (_ & _ & Hfs & _). exact Hfs. }
  intros H. rewrite (library_hide_if _ _ H), <- H3.
  destruct (currentChapter st3); [|reflexivity].
  destruct (chapters file); [reflexivity|].
  rewrite library_display. reflexivity.
Qed.

(** [X22] A restore that starts with no document open runs to the end:
    it leaves the restore mode with the reader steady and the cursor in
    range, and the list of documents is what the store held, each record
    restored (or the list as it was when the store held none). *)
Theorem restore_lands_in_range (disk : jsstring -> DiskEntry)
    (basename : jsstring -> jsstring) (st : State) :
  Steady st -> currentFile st = None ->
  exists st',
    finishRestore disk basename st = Some st'
    /\ Steady st' /\ inRange st' /\ isRestoring st' = false
    /\ map fixedPart (files st')
       = match default [] (storedFiles (storage st)) with
         | [] => map fixedPart (files st)
         | saved =>
           map (fun s => fixedPart (restoreFile disk basename (now st) s))
             saved
         end.
Proof.
  intros HS Hnone. unfold finishRestore.
  destruct (default [] (storedFiles (storage st))) as [|s ss] eqn:Hsaved.
  - cbv zeta.
    destruct (steady_hide_if _ (steady_text ready st HS)) as (st2 & H2 & HS2).
    rewrite H2. simpl. eexists. split; [reflexivity|].
    pose proof (steady_restoring false st2 HS2) as HS'.
    split; [exact HS'|]. split; [apply HS'|]. split; [reflexivity|].
    exact (library_hide_if _ _ H2).
  - cbv zeta.
    set (st1 := set_files (map (restoreFile disk basename (now st)) (s :: ss))
                  (set_statusBarText restoring st)).
    destruct HS as [(Hvis & Hsafe & _) (Hc & _ & Hst)].
    assert (HW1 : WellStored st1).
    { split; [exact Hc|]. split; [|exact Hst].
      rewrite Hsaved in Hst.
      apply (restored_storedOk disk basename (now st) (s :: ss) Hst). }
    destruct (steady_restoreReadingState st1 Hvis Hsafe HW1 Hnone)
      as (st2 & H2 & HS2).
    rewrite H2. simpl.
    destruct (steady_hide_if st2 HS2) as (st3 & H3 & HS3). rewrite H3. simpl.
    eexists. split; [reflexivity|].
    pose proof (steady_restoring false st3 HS3) as HS'.
    split; [exact HS'|]. split; [apply HS'|]. split; [reflexivity|].
    change (library st3
            = map (fun s0 => fixedPart (restoreFile disk basename (now st) s0))
                (s :: ss)).
    rewrite (library_hide_if _ _ H3), (library_restoreReadingState _ _ H2).
    unfold library. subst st1. cbn [files set_files].
    apply map_map.
Qed.

Lemma restore_lands_in_range_witness :
  exists st',
    finishRestore Samples.sampleDisk Samples.sampleBasename
      (beginRestore Shelf.startup) = Some st'
    /\ inRange st' /\ isRestoring st' = false
    /\ length (files st') = 2%nat.
Proof.
  assert (HS : Steady (beginRestore Shelf.startup)).
  { split.
    - split; [reflexivity|]. split; [left; reflexivity|].
      unfold inRange. vm_compute. left. reflexivity.
    - split; [exact I|]. split; [constructor|].
      repeat constructor; vm_compute; discriminate. }
  destruct (restore_lands_in_range Samples.sampleDisk Samples.sampleBasename
              (beginRestore Shelf.startup) HS eq_refl)
    as (st' & H & _ & Hr & Hre & Hlib).
  exists st'. split; [exact H|]. split; [exact Hr|]. split; [exact Hre|].
  rewrite <- (length_map fixedPart), Hlib. reflexivity.
Defined.

End LibraryFacts.

(** ** Debounced saving across all commands *)

Module SavingFacts.

Import Reader JsStringFacts ReaderFacts CursorFacts Library LibraryFacts.
Local Open Scope Z_scope.










































End SavingFacts.

(** ** The stored chapter index at startup *)

Module RestoreFacts.

Import Reader JsStringFacts ReaderFacts CursorFacts Library LibraryFacts.
Local Open Scope Z_scope.










End RestoreFacts.

(** ** The wheel handler *)

Module WheelFacts.

Import Reader JsStringFacts ReaderFacts CursorFacts LibraryFacts Wheel.
Local Open Scope Z_scope.

Lemma length_window (s : jsstring) (pos : Z) :
  0 <= pos <= Z.of_nat (length s) ->
  Z.of_nat (length (substring s pos (pos + windowLength)))
  = Z.min windowLength (Z.of_nat (length s) - pos).
Proof.
  intros H. unfold substring, windowLength.
  rewrite length_take, length_drop. lia.
Qed.

(** [X23] The first wheel event over the chapter under the cursor leaves
    the wheel handler initialised with its position inside
    [0, max(0, length - 200)]; over a chapter that has text it yields a
    window of at most 300 characters from that position, and
    synchronising the position to the status bar leaves the cursor in
    range. *)
Theorem wheel_scroll_stays_in_chapter (deltaY : spec_float) (ctrlKey : bool)
    (st : State) (w w' : ScrollWheelHandler)
    (content : option ScrolledContent) (ch : Chapter) :
  loaded st = Some ch ->
  _isInitialized w = false ->
  handleWheelEvent deltaY ctrlKey st w = Some (w', content) ->
  let len := Z.of_nat (length (previewText ch)) in
  0 <= _scrollPosition w' <= Z.max 0 (len - 200)
  /\ _isInitialized w' = true
  /\ (0 < len ->
      exists c, content = Some c
        /\ scrollPosition c = _scrollPosition w'
        /\ Z.of_nat (length (text c))
           = Z.min 300 (len - _scrollPosition w')
        /\ hasMore c = (_scrollPosition w' + 300 <? len))
  /\ scrollOffset (syncToStatusBar w' st) = _scrollPosition w'
  /\ inRange (syncToStatusBar w' st).
Proof.
  intros Hl Hinit H len.
  destruct (current_of_loaded st ch Hl) as (f & i & Hf & Hi & Hch).
  unfold handleWheelEvent in H. rewrite Hf, Hi, Hinit in H. cbv zeta in H.
  destruct (Math_sign deltaY) as [direction|]; [|discriminate].
  unfold mbind, option_bind in H. apply (inj Some) in H.
  assert (Hmax : _maxScrollPosition (initialize st w) = len).
  { unfold initialize, _getCurrentChapterLength. rewrite Hf, Hi, Hch.
    reflexivity. }
  assert (Hin : _isInitialized (initialize st w) = true).
  { unfold initialize. rewrite Hf, Hi. reflexivity. }
  pose proof (f_equal fst H) as Hw. pose proof (f_equal snd H) as Hc.
  simpl in Hw, Hc. subst w' content. cbn [_scrollPosition _isInitialized].
  rewrite Hmax, Hin.
  set (pos := Z.min _ (Z.max 0 (len - 200))).
  assert (Hpos : 0 <= pos <= Z.max 0 (len - 200)) by (subst pos; lia).
  split; [exact Hpos|]. split; [reflexivity|]. split.
  - intros Hlen. unfold _generateScrolledContent. rewrite Hf, Hi, Hch.
    cbn [_scrollPosition]. fold pos.
    destruct (previewText ch) as [|c0 s0] eqn:Et; [simpl in len; lia|].
    eexists. split; [reflexivity|]. cbn [scrollPosition text hasMore].
    split; [reflexivity|]. split; [|reflexivity].
    apply length_window. fold len. lia.
  - unfold syncToStatusBar. rewrite Hf. cbn [_isInitialized _scrollPosition].
    fold pos.
    destruct (view_saveCurrentState (set_scrollOffset pos st)) as [Hv Ho].
    change (_displayChapterText None ?s) with s.
    split; [rewrite Ho; reflexivity|].
    apply (inRange_loaded_intro _ ch).
    + rewrite (view_loaded _ _ Hv). exact Hl.
    + rewrite Ho. cbn [scrollOffset set_scrollOffset].
      rewrite maxScrollOffset_preview. fold len. lia.
Qed.

Lemma wheel_scroll_stays_in_chapter_witness :
  exists w' content,
    handleWheelEvent (ofZ 120) false Samples.previewing newHandler
    = Some (w', content)
    /\ 0 <= _scrollPosition w' <= 800
    /\ inRange (syncToStatusBar w' Samples.previewing).
Proof.
  destruct (handleWheelEvent (ofZ 120) false Samples.previewing newHandler)
    as [[w' content]|] eqn:E.
  - exists w', content. split; [reflexivity|].
    destruct (wheel_scroll_stays_in_chapter (ofZ 120) false
                Samples.previewing newHandler w' content Samples.thousand
                eq_refl eq_refl E) as (Hpos & _ & _ & _ & Hr).
    split; [exact Hpos|exact Hr].
  - vm_compute in E. discriminate.
Defined.

End WheelFacts.
